(** * wpb-bot: matching strategies and the per-post driver

    A shallow embedding of [src/matching.py] and [src/plan_bot.py], of
    [_flatten] of [scripts/parse_plans.py] and of the file handling of
    [src/main.py].

    Python text is a sequence of code points; here a [string] is read as a
    sequence of code points below 256, one [ascii] per code point.  Scores
    (Python floats) are rationals.  Exceptions are values of [exn]; code
    with effects (the processed-id set, the audit store, the reply call)
    runs in a state-and-exception monad over [World]. *)

From Stdlib Require Import Ascii String QArith.
From stdpp Require Import gmap strings list pretty sorting.

Local Open Scope string_scope.

(** ** Python text primitives *)

Module Py.

Definition code (c : ascii) : nat := nat_of_ascii c.

Definition between (lo hi : nat) (c : ascii) : bool :=
  (lo <=? code c)%nat && (code c <=? hi)%nat.

Definition one_of (l : list nat) (c : ascii) : bool :=
  existsb (Nat.eqb (code c)) l.

(** [str.isalnum] on one code point. *)
Definition isalnum (c : ascii) : bool :=
  between 48 57 c || between 65 90 c || between 97 122 c
  || one_of [170; 178; 179; 181; 185; 186; 188; 189; 190] c
  || between 192 214 c || between 216 246 c || between 248 255 c.

(** [str.isspace] on one code point, also the class [\s]. *)
Definition isspace (c : ascii) : bool :=
  between 9 13 c || between 28 32 c || one_of [133; 160] c.

Definition lower_char (c : ascii) : ascii :=
  if between 65 90 c || between 192 214 c || between 216 222 c
  then ascii_of_nat (code c + 32)
  else c.

(** [s.lower()] *)
Fixpoint lower (s : string) : string :=
  match s with
  | EmptyString => EmptyString
  | String c s' => String (lower_char c) (lower s')
  end.

(** [s[n:]] *)
Fixpoint drop (n : nat) (s : string) : string :=
  match n, s with
  | O, _ => s
  | S n', String _ s' => drop n' s'
  | S _, EmptyString => EmptyString
  end.

(** [s[:n]] *)
Fixpoint take (n : nat) (s : string) : string :=
  match n, s with
  | S n', String c s' => String c (take n' s')
  | _, _ => EmptyString
  end.

(** [s.startswith(p)] returning what follows the prefix. *)
Fixpoint strip_prefix (p s : string) : option string :=
  match p, s with
  | EmptyString, _ => Some s
  | String a p', String b s' =>
      if Ascii.eqb a b then strip_prefix p' s' else None
  | String _ _, EmptyString => None
  end.

Definition startswith (s p : string) : bool :=
  match strip_prefix p s with Some _ => true | None => false end.

(** [needle in hay] *)
Fixpoint contains (needle hay : string) : bool :=
  startswith hay needle ||
  match hay with
  | EmptyString => false
  | String _ hay' => contains needle hay'
  end.

(** [c in s] for one character. *)
Fixpoint has_char (c : ascii) (s : string) : bool :=
  match s with
  | EmptyString => false
  | String d s' => Ascii.eqb c d || has_char c s'
  end.

(** The words of [s.split()]: maximal runs without white space.  [cur] is
    the run being read. *)
Fixpoint split_from (cur : string) (s : string) : list string :=
  match s with
  | EmptyString => match cur with EmptyString => [] | _ => [cur] end
  | String c s' =>
      if isspace c
      then match cur with
           | EmptyString => split_from EmptyString s'
           | _ => cur :: split_from EmptyString s'
           end
      else split_from (cur ++ String c EmptyString) s'
  end.

Definition split (s : string) : list string := split_from EmptyString s.

(** [sep.join(l)] *)
Definition join (sep : string) (l : list string) : string :=
  String.concat sep l.

(** Truth value of a string. *)
Definition truthy (s : string) : bool :=
  match s with EmptyString => false | _ => true end.

End Py.

(** ** The regular expressions of the sources

    The patterns used by the sources are built from literals, character
    classes with [*], [+] and [?], alternation, one capturing group and
    [$].  [Re.run] is a backtracking matcher with Python's priorities
    (greedy repetition, left alternative first); all patterns are compiled
    with [re.IGNORECASE], and [$] is the [re.MULTILINE] one. *)

Module Re.

Inductive regex : Type :=
| Lit (s : string)
| Cls (p : ascii -> bool)
| Star (p : ascii -> bool)
| Plus (p : ascii -> bool)
| Seq (a b : regex)
| Alt (a b : regex)
| Opt (a : regex)
| Group (a : regex)
| Eol.

Definition newline : ascii := ascii_of_nat 10.

(** [\w] and friends. *)
Definition word (c : ascii) : bool := Py.isalnum c || Ascii.eqb c "_"%char.
Definition non_word (c : ascii) : bool := negb (word c).
Definition space (c : ascii) : bool := Py.isspace c.
(** [[^-\w]] *)
Definition not_hyphen_word (c : ascii) : bool :=
  negb (Ascii.eqb c "-"%char || word c).
(** [[!?.]] and [[^!?.]] *)
Definition terminal (c : ascii) : bool := Py.has_char c "!?.".
Definition not_terminal (c : ascii) : bool := negb (terminal c).

(** Literal text under IGNORECASE; the text after it on success. *)
Fixpoint lit (l s : string) : option string :=
  match l, s with
  | EmptyString, _ => Some s
  | String a l', String b s' =>
      if Ascii.eqb (Py.lower_char a) (Py.lower_char b) then lit l' s' else None
  | String _ _, EmptyString => None
  end.

Definition at_eol (s : string) : bool :=
  match s with
  | EmptyString => true
  | String c _ => Ascii.eqb c newline
  end.

(** What [a] consumed, given the text before and after. *)
Definition consumed (before after : string) : string :=
  Py.take (String.length before - String.length after) before.

Section Run.
Context {R : Type}.

(** A continuation gets the rest of the text and the text of group 1. *)
Definition cont : Type := string -> option string -> option R.

Definition or_else (x : option R) (y : option R) : option R :=
  match x with Some _ => x | None => y end.

(** Greedy [p*]: as many as possible first, then fewer. *)
Fixpoint star (p : ascii -> bool) (s : string) (g : option string)
  (k : cont) : option R :=
  match s with
  | String c s' =>
      if p c then or_else (star p s' g k) (k s g) else k s g
  | EmptyString => k s g
  end.

Fixpoint run (r : regex) (s : string) (g : option string) (k : cont)
  : option R :=
  match r with
  | Lit l => match lit l s with Some s' => k s' g | None => None end
  | Cls p =>
      match s with
      | String c s' => if p c then k s' g else None
      | EmptyString => None
      end
  | Star p => star p s g k
  | Plus p =>
      match s with
      | String c s' => if p c then star p s' g k else None
      | EmptyString => None
      end
  | Seq a b => run a s g (fun s' g' => run b s' g' k)
  | Alt a b => or_else (run a s g k) (run b s g k)
  | Opt a => or_else (run a s g k) (k s g)
  | Group a => run a s g (fun s' _ => k s' (Some (consumed s s')))
  | Eol => if at_eol s then k s g else None
  end.
End Run.

(** [re.match(r, s)]: the text of group 1 (if it took part) and the text
    after the match. *)
Definition match_ (r : regex) (s : string) : option (option string * string) :=
  run r s None (fun s' g => Some (g, s')).

(** [re.search(r, s)]: the leftmost position with a match. *)
Fixpoint search (r : regex) (s : string) : option (option string * string) :=
  match match_ r s with
  | Some m => Some m
  | None =>
      match s with
      | String _ s' => search r s'
      | EmptyString => None
      end
  end.

(** [re.findall(r, s)] for a pattern with one group: the group's text of
    each match, scanning left to right and resuming where the previous
    match ended ([skip] characters remain to be passed over). *)
Fixpoint findall_from (r : regex) (s : string) (skip : nat) : list string :=
  match skip with
  | S n =>
      match s with
      | String _ s' => findall_from r s' n
      | EmptyString => []
      end
  | O =>
      match match_ r s with
      | Some (g, rest) =>
          default EmptyString g ::
          match s with
          | String _ s' =>
              findall_from r s' (String.length s - String.length rest - 1)
          | EmptyString => []
          end
      | None =>
          match s with
          | String _ s' => findall_from r s' 0
          | EmptyString => []
          end
      end
  end.

Definition findall (r : regex) (s : string) : list string :=
  findall_from r s 0.

End Re.

(** ** Python values shared by both files *)

(** Exceptions that the modelled code can raise. *)
Inductive exn : Type :=
| IndexError
| KeyError (key : string)
| TypeError
| AttributeError
| UnboundLocalError
| SystemExit (status : Z)
| APIException (error_type : string)
| OtherException (name : string).

Inductive result (A : Type) : Type :=
| Ok (a : A)
| Raise (e : exn).
Arguments Ok {A} a.
Arguments Raise {A} e.

Definition rbind {A B} (x : result A) (f : A -> result B) : result B :=
  match x with Ok a => f a | Raise e => Raise e end.

(** [[f(x) for x in l]] where [f] may raise. *)
Fixpoint rmap {A B} (f : A -> result B) (l : list A) : result (list B) :=
  match l with
  | [] => Ok []
  | x :: l' => rbind (f x) (fun y => rbind (rmap f l') (fun ys => Ok (y :: ys)))
  end.

(** The state of a key of a dict: not there, bound to [None], or bound to
    a value. *)
Inductive entry (A : Type) : Type :=
| Absent
| PyNone
| Val (a : A).
Arguments Absent {A}.
Arguments PyNone {A}.
Arguments Val {A} a.

(** [d.get(k)] *)
Definition get {A} (e : entry A) : option A :=
  match e with Val a => Some a | _ => None end.

(** [d[k]] *)
Definition subscript {A} (k : string) (e : entry A) : result (option A) :=
  match e with
  | Absent => Raise (KeyError k)
  | PyNone => Ok None
  | Val a => Ok (Some a)
  end.

(** A plan of [plans.json]; a cluster lists its member plans. *)
#[warnings="-register-all"] Inductive Plan : Type := mkPlan {
  id : string;
  topic : string;
  display_title : string;
  url : string;
  summary : string;
  is_cluster : bool;
  plans_of : list Plan
}.

Record Verbatim : Type := mkVerbatim {
  verbatim_id_of : string;
  verbatim_text : string
}.

Record PotentialMatch : Type := mkPotentialMatch {
  pm_plan_id : string;
  pm_plan : option Plan;
  pm_confidence : Q
}.

(** The dict every strategy returns. *)
Record MatchInfo : Type := mkMatchInfo {
  mi_match : entry string;
  mi_operation : entry string;
  mi_confidence : entry Q;
  mi_plan : entry Plan;
  mi_potential_matches : entry (list PotentialMatch);
  mi_verbatim : entry Verbatim
}.

Definition empty_info : MatchInfo :=
  mkMatchInfo Absent Absent Absent Absent Absent Absent.

(** A strategy called as [strategy(plans, post_text)]; [Ok None] is a
    returned [None]. *)
Definition strategy : Type := list Plan -> string -> result (option MatchInfo).

(** [a > b] on scores. *)
Definition Qgtb (a b : Q) : bool := negb (Qle_bool a b).

(** ** matching.py *)

Module matching.

Definition GENSIM_V3_MODELS_PATH : string := "models/gensim_strategy_v3".

Definition CUSTOM_STOPWORDS : gset string :=
  {[ "elizabeth"; "warren"; "plan"; "warrenplanbot"; "warrenplanbotdev";
     "sen"; "senator"; "thanks"; "thank"; "you"; "show" ]}.

(** [sorted(l, key=key)]: stable, ascending. *)
Fixpoint insert_by {A} (key : A -> Q) (x : A) (l : list A) : list A :=
  match l with
  | [] => [x]
  | y :: l' =>
      if Qle_bool (key x) (key y) then x :: l else y :: insert_by key x l'
  end.

Fixpoint sorted {A} (key : A -> Q) (l : list A) : list A :=
  match l with
  | [] => []
  | x :: l' => insert_by key x (sorted key l')
  end.

(** [enumerate(l)] *)
Fixpoint enumerate_from {A} (n : nat) (l : list A) : list (nat * A) :=
  match l with
  | [] => []
  | x :: l' => (n, x) :: enumerate_from (S n) l'
  end.

Definition enumerate {A} (l : list A) : list (nat * A) := enumerate_from 0 l.

(** [next(filter(lambda p: p["id"] == plan_id, plans), None)] *)
Definition find_plan (plan_id : string) (plans : list Plan) : option Plan :=
  List.find (fun p => String.eqb (id p) plan_id) plans.

Inductive model_kind : Type := LsiModel | TfidfModel.
Inductive similarity_kind : Type := MatrixSimilarity.

(** What [_load_gensim_models] returns, seen from its one use: the id
    list and the scores [index[model[dictionary.doc2bow(tokens)]]]. *)
Record GensimModels : Type := mkGensimModels {
  plan_ids : list string;
  similarities : list string -> list Q
}.

(** The libraries the module imports, as far as it uses them: the text
    filters of gensim and unidecode, gensim's stop words, fuzzywuzzy's
    [fuzz.token_sort_ratio], and the model files as loaded from disk. *)
Record Libraries : Type := mkLibraries {
  unidecode : string -> string;
  strip_punctuation : string -> string;
  strip_multiple_whitespaces : string -> string;
  strip_numeric : string -> string;
  strip_short : string -> string;
  stem_text : string -> string;
  GENSIM_STOPWORDS : gset string;
  fuzz_token_sort_ratio : string -> string -> Z;
  _load_gensim_models :
    string -> model_kind -> similarity_kind -> string -> GensimModels
}.

Section WithLibraries.

Variable lib : Libraries.

(** *** Preprocess *)

Definition _remove_stopwords (stopwords : gset string) (s : string)
  : string :=
  Py.join " "
    (List.filter (fun w => negb (bool_decide (Py.lower w ∈ stopwords)))
       (Py.split s)).

(** gensim's [preprocess_string(doc, filters)] *)
Definition preprocess_string (doc : string)
  (filters : list (string -> string)) : list string :=
  Py.split (fold_left (fun s f => f s) filters doc).

Definition preprocess_gensim_v1 (doc : string) : list string :=
  preprocess_string doc
    [ unidecode lib;
      Py.lower;
      strip_punctuation lib;
      strip_multiple_whitespaces lib;
      strip_numeric lib;
      _remove_stopwords (GENSIM_STOPWORDS lib);
      _remove_stopwords CUSTOM_STOPWORDS;
      strip_short lib;
      stem_text lib ].

Fixpoint bigrams (list_of_words : list string) : list string :=
  match list_of_words with
  | w :: ((w' :: _) as tl) => (w ++ " " ++ w') :: bigrams tl
  | _ => []
  end.

Definition preprocess_gensim_v3 (doc : string) : list string :=
  let preprocessed_v1 := preprocess_gensim_v1 doc in
  preprocessed_v1 ++ bigrams preprocessed_v1.

(** *** Strategy *)

Definition token_sort_ratio (threshold : Q) (plans : list Plan)
  (post_text : string) : result (option MatchInfo) :=
  let '(match_confidence, match_) :=
    fold_left
      (fun '(match_confidence, match_) plan =>
         let plan_match_confidence :=
           fuzz_token_sort_ratio lib (Py.lower post_text) (Py.lower (topic plan)) in
         if (match_confidence <? plan_match_confidence)%Z
         then (plan_match_confidence, Some plan)
         else (match_confidence, match_))
      plans (0%Z, None) in
  rbind
    (if Qgtb (inject_Z match_confidence) threshold
     then match match_ with
          | Some p => Ok (Val (id p))
          | None => Raise TypeError
          end
     else Ok PyNone)
    (fun m =>
       Ok (Some
         {| mi_match := m;
            mi_operation := Absent;
            mi_confidence := Val (inject_Z match_confidence);
            mi_plan := match match_ with Some p => Val p | None => PyNone end;
            mi_potential_matches := Absent;
            mi_verbatim := Absent |})).

(** The loop of [_composite_strategy]; [last] is the binding of
    [match_info] so far. *)
Fixpoint _composite_loop (plans : list Plan) (post_text : string)
  (strategies : list strategy) (last : option (option MatchInfo))
  : result (option MatchInfo) :=
  match strategies with
  | [] =>
      match last with
      | Some match_info => Ok match_info
      | None => Raise UnboundLocalError
      end
  | strategy :: rest =>
      rbind (strategy plans post_text) (fun match_info =>
        match match_info with
        | None => Raise TypeError
        | Some d =>
            rbind (subscript "match" (mi_match d)) (fun m =>
              if from_option Py.truthy false m
              then Ok match_info
              else _composite_loop plans post_text rest (Some match_info))
        end)
  end.

Definition _composite_strategy (plans : list Plan) (post_text : string)
  (strategies : list strategy) : result (option MatchInfo) :=
  _composite_loop plans post_text strategies None.

(** The de-duplication loop; [seen] is [potential_plan_ids]. *)
Fixpoint dedupe (seen : gset string) (l : list PotentialMatch)
  : list PotentialMatch :=
  match l with
  | [] => []
  | potential_match :: l' =>
      if bool_decide (pm_plan_id potential_match ∈ seen)
      then dedupe seen l'
      else potential_match
             :: dedupe ({[ pm_plan_id potential_match ]} ∪ seen) l'
  end.

Definition potential_match_of (plan_ids : list string) (plans : list Plan)
  (sim : nat * Q) : result PotentialMatch :=
  match plan_ids !! sim.1 with
  | None => Raise IndexError
  | Some plan_id =>
      Ok {| pm_plan_id := plan_id;
            pm_plan := find_plan plan_id plans;
            pm_confidence := sim.2 * 100 |}
  end.

Definition _gensim_similarity (plans : list Plan) (post_text : string)
  (model_name : string) (model : model_kind) (similarity : similarity_kind)
  (threshold : Q) (potential_plan_threshold : Q) (model_path : string)
  (preprocess : string -> list string) : result (option MatchInfo) :=
  let models := _load_gensim_models lib model_name model similarity model_path in
  let preprocessed_post := preprocess post_text in
  let sims := similarities models preprocessed_post in
  let sims := sorted (fun item => - item.2) (enumerate sims) in
  rbind (rmap (potential_match_of (plan_ids models) plans) sims)
    (fun potential_matches_with_dups =>
       let potential_matches := dedupe ∅ potential_matches_with_dups in
       match potential_matches with
       | [] => Raise IndexError
       | best :: _ =>
           let best_match_confidence := pm_confidence best in
           let best_match_plan := pm_plan best in
           let best_match_plan_id := pm_plan_id best in
           Ok (Some
             {| mi_match :=
                  if Qgtb best_match_confidence threshold
                  then Val best_match_plan_id else PyNone;
                mi_operation := Absent;
                mi_confidence := Val best_match_confidence;
                mi_plan :=
                  match best_match_plan with
                  | Some p => Val p
                  | None => PyNone
                  end;
                mi_potential_matches :=
                  Val (List.filter
                         (fun m => Qgtb (pm_confidence m) potential_plan_threshold)
                         potential_matches);
                mi_verbatim := Absent |})
       end).


Definition tfidf_gensim_v3 (plans : list Plan) (post_text : string)
  : result (option MatchInfo) :=
  _gensim_similarity plans post_text "tfidf" TfidfModel MatrixSimilarity
    15 50 GENSIM_V3_MODELS_PATH preprocess_gensim_v3.

(** *** RuleStrategy *)

(** [\W*$] *)
Definition to_eol : Re.regex := Re.Seq (Re.Star Re.non_word) Re.Eol.

(** [why warren\W*$] *)
Definition re_why_warren : Re.regex := Re.Seq (Re.Lit "why warren") to_eol.

(** [(advanced\s+)?help\W*$] *)
Definition re_help : Re.regex :=
  Re.Seq (Re.Opt (Re.Group (Re.Seq (Re.Lit "advanced") (Re.Plus Re.space))))
    (Re.Seq (Re.Lit "help") to_eol).

(** [show me the plans\W*$] *)
Definition re_plan_list : Re.regex :=
  Re.Seq (Re.Lit "show me the plans") to_eol.

(** [state of (?:the )?(?:race|primary)\W*$] *)
Definition re_state_of : Re.regex :=
  Re.Seq (Re.Lit "state of ")
    (Re.Seq (Re.Opt (Re.Lit "the "))
       (Re.Seq (Re.Alt (Re.Lit "race") (Re.Lit "primary")) to_eol)).

(** [is the (?:race|primary) over\W*$] *)
Definition re_is_over : Re.regex :=
  Re.Seq (Re.Lit "is the ")
    (Re.Seq (Re.Alt (Re.Lit "race") (Re.Lit "primary"))
       (Re.Seq (Re.Lit " over") to_eol)).

(** [status check\W*$] *)
Definition re_status_check : Re.regex :=
  Re.Seq (Re.Lit "status check") to_eol.

Definition match_verbatim (verbatims : list Verbatim) (post_text : string)
  (options : gset string) : option MatchInfo :=
  let verbatim_id : option string :=
    if bool_decide ("why_warren" ∈ options)
       || bool_decide (is_Some (Re.match_ re_why_warren post_text))
    then Some "why_warren"
    else match Re.match_ re_help post_text with
         | Some (group1, _) =>
             if from_option Py.truthy false group1
             then Some "advanced_help"
             else Some "basic_help"
         | None => None
         end in
  match List.find
          (fun verbatim =>
             bool_decide (Some (verbatim_id_of verbatim) = verbatim_id))
          verbatims with
  | Some verbatim =>
      Some {| mi_match := Absent;
              mi_operation := Val "verbatim";
              mi_confidence := Absent;
              mi_plan := Absent;
              mi_potential_matches := Absent;
              mi_verbatim := Val verbatim |}
  | None => None
  end.

Definition match_display_title (plans : list Plan) (post_text : string)
  : option MatchInfo :=
  let preprocessed_post := preprocess_gensim_v1 post_text in
  match List.find
          (fun plan =>
             bool_decide
               (preprocess_gensim_v1 (display_title plan) = preprocessed_post))
          plans with
  | Some plan =>
      Some {| mi_match := Val (id plan);
              mi_operation := Absent;
              mi_confidence := Val 100%Q;
              mi_plan := Val plan;
              mi_potential_matches := Absent;
              mi_verbatim := Absent |}
  | None => None
  end.

Definition operation_info (op : string) : MatchInfo :=
  {| mi_match := Absent;
     mi_operation := Val op;
     mi_confidence := Absent;
     mi_plan := Absent;
     mi_potential_matches := Absent;
     mi_verbatim := Absent |}.

Definition request_plan_list (plans : list Plan) (post_text : string)
  : option MatchInfo :=
  if bool_decide (is_Some (Re.search re_plan_list post_text))
  then Some (operation_info "all_the_plans")
  else None.

Definition request_state_of_race (plans : list Plan) (post_text : string)
  (options : gset string) : option MatchInfo :=
  if bool_decide ("state_of_race" ∈ options)
     || bool_decide (is_Some (Re.search re_state_of post_text))
     || bool_decide (is_Some (Re.search re_is_over post_text))
     || bool_decide (is_Some (Re.search re_status_check post_text))
  then Some (operation_info "state_of_race")
  else None.

End WithLibraries.

End matching.

(** ** plan_bot.py *)

Module plan_bot.
Import matching.

Definition nl : string := String Re.newline EmptyString.

(** *** Posts, audit records, the outside world *)

Record Author : Type := mkAuthor { name : string }.

Record Subreddit : Type := mkSubreddit {
  subreddit_name : string;
  subreddit_display_name : string
}.

(** Who a reply goes to: the [type] and [id] of a post. *)
Definition target : Type := (string * string)%type.

(** A standardized submission or comment.  [parent] is
    [standardize(post.parent())] when the post has a [parent] attribute. *)
Record Post : Type := mkPost {
  post_id : string;
  post_type : string;
  locked : bool;
  author : option Author;
  text : string;
  parent_id : string;
  link_id : string;
  title : string;
  permalink : string;
  subreddit : Subreddit;
  parent : option target
}.

Inductive timestamp : Type := SERVER_TIMESTAMP.

(** The dict built by [create_db_record], one field per key. *)
Record AuditRecord : Type := mkAuditRecord {
  r_processed : bool;
  r_processed_timestamp : timestamp;
  r_replied : bool;
  r_skipped : bool;
  r_skip_reason : option string;
  r_type : string;
  r_post_id : string;
  r_post_author : string;
  r_post_text : string;
  r_post_parent_id : option string;
  r_post_url : string;
  r_post_subreddit_id : string;
  r_post_subreddit_display_name : string;
  r_post_title : option string;
  r_post_top_level_parent_id : option string;
  r_post_locked : bool;
  r_plan_match : option string;
  r_top_plan_confidence : option Q;
  r_top_plan : option string;
  r_verbatim_id : option string;
  r_reply_timestamp : option timestamp
}.

(** The dict [post_record_update].  [reply_type] and [replied] are always
    set before it is written; the other keys are optional ([None] here is
    a key that is not there).  [u_replied] is the value of [did_reply],
    which is [True], [False] or [None]. *)
Record RecordUpdate : Type := mkRecordUpdate {
  u_reply_type : string;
  u_operation : option string;
  u_skipped : option bool;
  u_skip_reason : option string;
  u_replied : option bool;
  u_reply_timestamp : option timestamp
}.

(** A stored document: the record last [set], and what [update]s put on
    top of it. *)
Record Doc : Type := mkDoc {
  d_record : AuditRecord;
  d_updates : list RecordUpdate
}.

Inductive event : Type :=
| StrategyCalled (strategy_name : string) (post_text : string)
| DbSet (doc_id : string) (record : AuditRecord)
| DbUpdate (doc_id : string) (update : RecordUpdate)
| ReplyAttempt (to : target) (reply_string : string)
| RedditReply (to : target) (reply_string : string).

(** The caller's set of processed ids, the audit store, and everything
    the code did to the outside, oldest first. *)
Record World : Type := mkWorld {
  post_ids_processed : gset string;
  posts_db : gmap string Doc;
  log : list event
}.

Definition M (A : Type) : Type := World -> result A * World.

Definition ret {A} (a : A) : M A := fun w => (Ok a, w).
Definition raise {A} (e : exn) : M A := fun w => (Raise e, w).
Definition lift {A} (r : result A) : M A := fun w => (r, w).
Definition bind {A B} (m : M A) (f : A -> M B) : M B :=
  fun w => match m w with
           | (Ok a, w') => f a w'
           | (Raise e, w') => (Raise e, w')
           end.
(** [try: m except: handler] *)
Definition try_except {A} (m : M A) (handler : exn -> M A) : M A :=
  fun w => match m w with
           | (Ok a, w') => (Ok a, w')
           | (Raise e, w') => handler e w'
           end.

Notation "'let!' x ':=' m 'in' k" := (bind m (fun x => k))
  (at level 10, x name, m at level 100, k at level 200).
Notation "'do!' m 'in' k" := (bind m (fun _ => k))
  (at level 10, m at level 100, k at level 200).

Definition emit (e : event) : M unit :=
  fun w => (Ok tt, mkWorld (post_ids_processed w) (posts_db w) (log w ++ [e])).

(** [posts_db.document(doc_id).set(record)] *)
Definition db_set (doc_id : string) (record : AuditRecord) : M unit :=
  fun w =>
    (Ok tt,
     mkWorld (post_ids_processed w)
       (<[doc_id := mkDoc record []]> (posts_db w))
       (log w ++ [DbSet doc_id record])).

(** [posts_db.document(doc_id).update(update)]; Firestore refuses to
    update a document that does not exist. *)
Definition db_update (doc_id : string) (update : RecordUpdate) : M unit :=
  fun w =>
    let w' := mkWorld (post_ids_processed w) (posts_db w)
                (log w ++ [DbUpdate doc_id update]) in
    match posts_db w !! doc_id with
    | Some d =>
        (Ok tt,
         mkWorld (post_ids_processed w)
           (<[doc_id := mkDoc (d_record d) (d_updates d ++ [update])]>
              (posts_db w))
           (log w'))
    | None => (Raise (OtherException "NotFound"), w')
    end.

(** How the caller passes [post_ids_processed]: not at all (the call
    makes a new empty set) or its own set object, which lives in the
    world and is changed in place. *)
Inductive processed_arg : Type := no_set | callers_set.

Definition already_processed (arg : processed_arg) (i : string) : M bool :=
  fun w =>
    (Ok match arg with
        | no_set => false
        | callers_set => bool_decide (i ∈ post_ids_processed w)
        end, w).

Definition add_processed (arg : processed_arg) (i : string) : M unit :=
  fun w =>
    (Ok tt,
     match arg with
     | no_set => w
     | callers_set =>
         mkWorld ({[ i ]} ∪ post_ids_processed w) (posts_db w) (log w)
     end).

Record date : Type := mkDate { year : nat; month : nat; day : nat }.

(** What the module reaches outside itself: [llm.py]'s reply builder,
    the clock, and what [post.reply] does for a given target and text
    ([None]: the reply is posted). *)
Record Services : Type := mkServices {
  build_llm_plan_response_text : option Plan -> string -> option string;
  today : date;
  reddit_reply : target -> string -> option exn
}.

(** *** Reply texts *)

Definition parent_reply_prefix (post : Post) : result string :=
  match author post with
  | Some a => Ok ("/u/" ++ name a ++ " asked me to chime in!" ++ nl ++ nl)
  | None => Raise AttributeError
  end.

Definition footer : string :=
  nl ++ nl ++ nl ++ "***" ++ nl
  ++ "This bot was created independently by volunteers. [Join us!](https://elizabethwarren.com/join-us) ".

(** [plans] are dicts, or [None] where a potential match found no plan. *)
Definition _plan_links (plans : list (option Plan)) : result string :=
  rbind
    (rmap (fun plan => match plan with
                       | Some p =>
                           Ok ("[" ++ display_title p ++ "](" ++ url p ++ ")  ")
                       | None => Raise TypeError
                       end) plans)
    (fun links => Ok (Py.join nl links)).

Definition build_response_text_plan_cluster (plan_cluster : Plan)
  : result string :=
  rbind (_plan_links (map Some (plans_of plan_cluster))) (fun links =>
    Ok ("Senator Warren has quite a number of plans for that!"
        ++ nl ++ nl
        ++ "Learn more about her plans for " ++ display_title plan_cluster ++ ":"
        ++ nl ++ nl
        ++ links
        ++ footer)).

Definition build_response_text_pure_plan (plan : Plan) : string :=
  "Senator Warren has a plan for that!"
  ++ nl ++ nl
  ++ summary plan
  ++ nl ++ nl
  ++ "Learn more about her plan: [" ++ display_title plan ++ "](" ++ url plan ++ ")"
  ++ footer.

(** [plan] is [None] for the empty dict that [process_post] uses when the
    match has no plan. *)
Definition build_plan_response_text (sv : Services) (plan : option Plan)
  (full_post_text : string) : result (string * string) :=
  if from_option is_cluster false plan
  then rbind (from_option build_response_text_plan_cluster
                (Raise (KeyError "display_title")) plan)
         (fun t => Ok (t, "plan_cluster"))
  else match build_llm_plan_response_text sv plan full_post_text with
       | Some llm_response =>
           if Py.truthy llm_response
           then Ok (llm_response, "plan_llm")
           else match plan with
                | Some p => Ok (build_response_text_pure_plan p, "plan")
                | None => Raise (KeyError "summary")
                end
       | None =>
           match plan with
           | Some p => Ok (build_response_text_pure_plan p, "plan")
           | None => Raise (KeyError "summary")
           end
       end.

(** [verbatim] is [None] for the empty dict. *)
Definition build_verbatim_response_text (verbatim : option Verbatim)
  : result string :=
  match verbatim with
  | Some v => Ok (verbatim_text v ++ footer)
  | None => Raise (KeyError "text")
  end.

Definition build_no_match_response_text
  (potential_plan_matches : option (list PotentialMatch)) : result string :=
  match potential_plan_matches with
  | Some ((_ :: _) as l) =>
      rbind (_plan_links (map pm_plan (firstn 8 l))) (fun links =>
        Ok ("I'm not sure I have an exact match for you! "
            ++ "Here are the plans that seem most relevant:"
            ++ nl ++ nl
            ++ links
            ++ nl ++ nl
            ++ "Or I can show you my full list of her plans if you reply with"
            ++ nl ++ nl
            ++ "```" ++ "!WarrenPlanBot show me the plans" ++ "```"
            ++ nl ++ nl
            ++ footer))
  | _ =>
      Ok ("I'm not sure exactly which plan you're looking for, "
          ++ "and I'm not feeling confident enough in any of my guesses to tell you about them! ':("
          ++ nl ++ nl
          ++ "I can show you my full list of her plans if you reply with"
          ++ nl ++ nl
          ++ "```" ++ "!WarrenPlanBot show me the plans" ++ "```"
          ++ nl ++ nl
          ++ "Or please kindly rephrase? ':D"
          ++ footer)
  end.

Definition link_cell (plan : Plan) : string :=
  "|[" ++ display_title plan ++ "](" ++ url plan ++ ")".

(** The loop over [enumerate(pure_plans[3:], start=3)]. *)
Fixpoint more_rows (i : nat) (l : list Plan) : string :=
  match l with
  | [] => EmptyString
  | plan :: l' =>
      link_cell plan
      ++ (if ((i + 1) mod 3 =? 0)%nat then "|" ++ nl else EmptyString)
      ++ more_rows (S i) l'
  end.

Definition build_all_plans_response_text (plans : list Plan) : result string :=
  let pure_plans := List.filter (fun p => negb (is_cluster p)) plans in
  match pure_plans with
  | p0 :: p1 :: p2 :: others =>
      Ok ("Here's the full list of plans Sen. Warren has released that I know about:"
          ++ nl ++ nl
          ++ link_cell p0 ++ link_cell p1 ++ link_cell p2 ++ "|"
          ++ nl
          ++ "|:-:|:-:|:-:|"
          ++ nl
          ++ more_rows 3 others
          ++ nl ++ nl ++ footer)
  | _ => Raise IndexError
  end.

Definition day_suffix (d : nat) : string :=
  if (11 <=? d)%nat && (d <=? 13)%nat then "th"
  else match (d mod 10)%nat with
       | 1 => "st"
       | 2 => "nd"
       | 3 => "rd"
       | _ => "th"
       end.

(** [%b] *)
Definition month_abbr (m : nat) : string :=
  nth (m - 1)
    ["Jan"; "Feb"; "Mar"; "Apr"; "May"; "Jun";
     "Jul"; "Aug"; "Sep"; "Oct"; "Nov"; "Dec"] EmptyString.

Definition date_after (a b : date) : bool :=
  (year b <? year a)%nat
  || ((year a =? year b)%nat
      && ((month b <? month a)%nat
          || ((month a =? month b)%nat && (day b <? day a)%nat))).

(** [custom_strftime("%b {S}", t)] *)
Definition custom_strftime_b_S (t : date) : string :=
  month_abbr (month t) ++ " " ++ pretty (day t) ++ day_suffix (day t).

(** 101 of 3,979 delegates; [round((1 - 101 / 3979) * 100)] is 97. *)
Definition build_state_of_race_response_text (today : date) : string :=
  if date_after today (mkDate 2020 3 6) then "rip."
  else
    "As of " ++ custom_strftime_b_S today
    ++ ", only 101 out of 3,979 total delegates have been awarded in the primary. "
    ++ "That means 97% of the delegates are still up for grabs!"
    ++ nl ++ nl
    ++ "[Be part of Warren’s surge in support!](https://elizabethwarren.com/join-us)".

(** *** get_trigger_line and process_flags *)

(** [!warrenplanbot[^-\w]+([^!?.]*[!?.]?)]; the trigger word is spliced
    into the pattern and has no character that is special there. *)
Definition re_trigger_line (trigger_word : string) : Re.regex :=
  Re.Seq (Re.Lit trigger_word)
    (Re.Seq (Re.Plus Re.not_hyphen_word)
       (Re.Group (Re.Seq (Re.Star Re.not_terminal)
                    (Re.Opt (Re.Cls Re.terminal))))).

Definition get_trigger_line_with (trigger_word : string) (text : string)
  : string :=
  let matches := Re.findall (re_trigger_line trigger_word) text in
  match matches with
  | [] => EmptyString
  | _ => List.last matches EmptyString
  end.

Definition get_trigger_line (text : string) : string :=
  get_trigger_line_with "!warrenplanbot" text.

(** *** process_flags

    [argparse] with three [store_true] options and the positional [rest]
    with [nargs=REMAINDER], as [parse_known_args] of CPython 3.11 handles
    them ([_parse_optional], [_get_option_tuples], [consume_optional],
    [consume_positionals] of [argparse.py]). *)

Inductive flag : Type := parent_flag | why_warren | state_of_race.

(** The [dest] of each option. *)
Definition dest (f : flag) : string :=
  match f with
  | parent_flag => "parent"
  | why_warren => "why_warren"
  | state_of_race => "state_of_race"
  end.

(** [parser._option_string_actions], in the order of the
    [add_argument] calls. *)
Definition option_string_actions : list (string * flag) :=
  [ ("--parent", parent_flag);
    ("--tell-parent", parent_flag);
    ("--why-warren", why_warren);
    ("--state-of-race", state_of_race);
    ("--state-of-the-race", state_of_race);
    ("--status-check", state_of_race) ].

Definition lookup_option (s : string) : option flag :=
  snd <$> List.find (fun oa => String.eqb (fst oa) s) option_string_actions.

(** [s.split('=', 1)] when [s] has a ['=']. *)
Fixpoint split_eq (s : string) : option (string * string) :=
  match s with
  | EmptyString => None
  | String c s' =>
      if Ascii.eqb c "="%char then Some (EmptyString, s')
      else match split_eq s' with
           | Some (a, b) => Some (String c a, b)
           | None => None
           end
  end.

Definition digit (c : ascii) : bool := Py.between 48 57 c.

(** [parser._negative_number_matcher]: [^-\d+$|^-\d*\.\d+$], used on
    single words. *)
Definition negative_number : Re.regex :=
  Re.Alt
    (Re.Seq (Re.Lit "-") (Re.Seq (Re.Plus digit) Re.Eol))
    (Re.Seq (Re.Lit "-")
       (Re.Seq (Re.Star digit)
          (Re.Seq (Re.Lit ".") (Re.Seq (Re.Plus digit) Re.Eol)))).

(** The options an abbreviation could stand for, each with the explicit
    argument that comes with it. *)
Definition _get_option_tuples (option_string : string)
  : list (flag * option string) :=
  match option_string with
  | String _ (String c1 _) =>
      if Ascii.eqb c1 "-"%char
      then
        let '(option_prefix, explicit_arg) :=
          match split_eq option_string with
          | Some (p, e) => (p, Some e)
          | None => (option_string, None)
          end in
        map (fun oa => (snd oa, explicit_arg))
          (List.filter (fun oa => Py.startswith (fst oa) option_prefix)
             option_string_actions)
      else
        let short_option_prefix := Py.take 2 option_string in
        let short_explicit_arg := Py.drop 2 option_string in
        flat_map
          (fun oa =>
             if String.eqb (fst oa) short_option_prefix
             then [(snd oa, Some short_explicit_arg)]
             else if Py.startswith (fst oa) option_string
                  then [(snd oa, None)]
                  else [])
          option_string_actions
  | _ => []
  end.

(** [None]: a positional; [Some (action, explicit_arg)]: an option
    string, of an action of the parser or ([action = None]) of none.
    [parser.error] exits with status 2. *)
Definition _parse_optional (arg_string : string)
  : result (option (option flag * option string)) :=
  match arg_string with
  | EmptyString => Ok None
  | String c _ =>
      if negb (Ascii.eqb c "-"%char) then Ok None
      else
        match lookup_option arg_string with
        | Some action => Ok (Some (Some action, None))
        | None =>
            if (String.length arg_string =? 1)%nat then Ok None
            else
              match
                match split_eq arg_string with
                | Some (option_string, explicit_arg) =>
                    match lookup_option option_string with
                    | Some action => Some (action, explicit_arg)
                    | None => None
                    end
                | None => None
                end
              with
              | Some (action, explicit_arg) =>
                  Ok (Some (Some action, Some explicit_arg))
              | None =>
                  match _get_option_tuples arg_string with
                  | _ :: _ :: _ => Raise (SystemExit 2)
                  | [(action, explicit_arg)] =>
                      Ok (Some (Some action, explicit_arg))
                  | [] =>
                      if bool_decide
                           (is_Some (Re.match_ negative_number arg_string))
                      then Ok None
                      else if Py.has_char " "%char arg_string then Ok None
                      else Ok (Some (None, None))
                  end
              end
        end
  end.

(** One letter of [arg_strings_pattern]: ['A'], ['O'] (with what
    [option_string_indices] holds for it) or ['-']. *)
Inductive arg_pattern : Type :=
| A
| O (action : option flag) (explicit_arg : option string)
| DashDash.

Fixpoint arg_patterns (arg_strings : list string) : result (list arg_pattern) :=
  match arg_strings with
  | [] => Ok []
  | arg_string :: others =>
      if String.eqb arg_string "--"
      then Ok (DashDash :: map (fun _ => A) others)
      else
        rbind (_parse_optional arg_string) (fun option_tuple =>
        rbind (arg_patterns others) (fun ps =>
          Ok (match option_tuple with
              | None => A
              | Some (action, explicit_arg) => O action explicit_arg
              end :: ps)))
  end.

Record Namespace : Type := mkNamespace {
  ns_parent : bool;
  ns_why_warren : bool;
  ns_state_of_race : bool;
  rest : list string
}.

(** The [store_true] action. *)
Definition store_true (f : flag) (ns : Namespace) : Namespace :=
  match f with
  | parent_flag =>
      mkNamespace true (ns_why_warren ns) (ns_state_of_race ns) (rest ns)
  | why_warren =>
      mkNamespace (ns_parent ns) true (ns_state_of_race ns) (rest ns)
  | state_of_race =>
      mkNamespace (ns_parent ns) (ns_why_warren ns) true (rest ns)
  end.

(** The main loop, from [start_index] on ([args] are the strings left,
    with their pattern letters).  At an option string,
    [consume_optional] runs: an unknown option goes to [extras], a known
    one is stored, an explicit argument (["--parent=x"]) is an error.
    At anything else [consume_positionals] runs, and [rest], whose
    pattern is [[-AO]*], takes every string that is left; so it does
    when the strings run out. *)
Fixpoint consume (args : list (string * arg_pattern)) (namespace : Namespace)
  (extras : list string) : result (Namespace * list string) :=
  match args with
  | (arg_string, O action explicit_arg) :: args' =>
      match action, explicit_arg with
      | None, _ => consume args' namespace (extras ++ [arg_string])
      | Some _, Some _ => Raise (SystemExit 2)
      | Some a, None => consume args' (store_true a namespace) extras
      end
  | _ =>
      Ok (mkNamespace (ns_parent namespace) (ns_why_warren namespace)
            (ns_state_of_race namespace) (map fst args),
          extras)
  end.

Definition parse_known_args (arg_strings : list string)
  : result (Namespace * list string) :=
  rbind (arg_patterns arg_strings) (fun pattern =>
    consume (zip arg_strings pattern) (mkNamespace false false false []) []).

Definition process_flags (text : string) : result (string * gset string) :=
  rbind (parse_known_args (Py.split text)) (fun parsed =>
    let options := fst parsed in
    let remaining_text := Py.join " " (rest options) in
    Ok (remaining_text,
        list_to_set
          (map fst
             (List.filter snd
                [ ("parent", ns_parent options);
                  ("why_warren", ns_why_warren options);
                  ("state_of_race", ns_state_of_race options) ])))).

(** *** create_db_record, reply, process_post *)

Definition create_db_record (post : Post) (match_ : option string)
  (plan_confidence : option Q) (plan_id verbatim_id : option string)
  (reply_timestamp : option timestamp) (reply_made processed skipped : bool)
  (skip_reason : option string) : result AuditRecord :=
  let post_parent_id :=
    if String.eqb (post_type post) "comment"
    then Some (Py.drop 3 (parent_id post)) else None in
  let post_subreddit_id := Py.drop 3 (subreddit_name (subreddit post)) in
  let post_top_level_parent_id :=
    if String.eqb (post_type post) "comment"
    then Some (Py.drop 3 (link_id post)) else None in
  let post_title :=
    if String.eqb (post_type post) "submission"
    then Some (title post) else None in
  match author post with
  | None => Raise AttributeError
  | Some a =>
      Ok {| r_processed := processed;
            r_processed_timestamp := SERVER_TIMESTAMP;
            r_replied := reply_made;
            r_skipped := skipped;
            r_skip_reason := skip_reason;
            r_type := post_type post;
            r_post_id := post_id post;
            r_post_author := "/u/" ++ name a;
            r_post_text := text post;
            r_post_parent_id := post_parent_id;
            r_post_url := "https://www.reddit.com" ++ permalink post;
            r_post_subreddit_id := post_subreddit_id;
            r_post_subreddit_display_name :=
              subreddit_display_name (subreddit post);
            r_post_title := post_title;
            r_post_top_level_parent_id := post_top_level_parent_id;
            r_post_locked := locked post;
            r_plan_match := match_;
            r_top_plan_confidence := plan_confidence;
            r_top_plan := plan_id;
            r_verbatim_id := verbatim_id;
            r_reply_timestamp := reply_timestamp |}
  end.

Section WithServices.

Variable lib : Libraries.
Variable sv : Services.

(** [did_reply]: [Some true] for a real or simulated reply, [None]
    when the function falls off its end. *)
Definition reply (post : Post) (reply_string : string)
  (parent_ send simulate : bool) : M (option bool) :=
  let to : target :=
    match parent_, parent post with
    | true, Some p => p
    | _, _ => (post_type post, post_id post)
    end in
  do! emit (ReplyAttempt to reply_string) in
  if simulate then ret (Some true)
  else if send then
    do! emit (RedditReply to reply_string) in
    match reddit_reply sv to reply_string with
    | Some e => raise e
    | None => ret (Some true)
    end
  else ret None.

(** Truth value of what a strategy returned: [None] and the empty
    dict are false. *)
Definition info_truthy (r : option MatchInfo) : bool :=
  match r with
  | None => false
  | Some (mkMatchInfo Absent Absent Absent Absent Absent Absent) => false
  | Some _ => true
  end.

Definition call (strategy_name : string) (post_text : string)
  (r : result (option MatchInfo)) : M (option MatchInfo) :=
  do! emit (StrategyCalled strategy_name post_text) in lift r.

(** [x or y] *)
Definition or_ (x y : M (option MatchInfo)) : M (option MatchInfo) :=
  let! r := x in if info_truthy r then ret r else y.

(** The expression bound to [match_info]. *)
Definition match_info_of (plans : list Plan) (verbatims : list Verbatim)
  (post_text : string) (options : gset string)
  (matching_strategy : strategy) : M (option MatchInfo) :=
  or_ (call "match_verbatim" post_text
         (Ok (match_verbatim verbatims post_text options)))
    (or_ (call "request_plan_list" post_text
            (Ok (request_plan_list plans post_text)))
       (or_ (call "request_state_of_race" post_text
               (Ok (request_state_of_race plans post_text ∅)))
          (or_ (call "match_display_title" post_text
                  (Ok (match_display_title lib plans post_text)))
             (call "matching_strategy" post_text
                (matching_strategy plans post_text))))).

(** [d.get(k, {}).get("id")]: the default dict has no id, [None] has
    no [get]. *)
Definition get_id {A} (id_of : A -> string) (e : entry A)
  : result (option string) :=
  match e with
  | Absent => Ok None
  | PyNone => Raise AttributeError
  | Val a => Ok (Some (id_of a))
  end.

Definition operations_map : list string :=
  ["verbatim"; "all_the_plans"; "state_of_race"].

Definition process_post (post : Post) (plans : list Plan)
  (verbatims : list Verbatim) (post_ids_processed : processed_arg)
  (send simulate skip_tracking : bool) (matching_strategy : strategy)
  : M unit :=
  let! seen := already_processed post_ids_processed (post_id post) in
  if seen then ret tt
  else
    do! add_processed post_ids_processed (post_id post) in
    let skip_reason :=
      if locked post then Some "post_locked"
      else match author post with
           | None => Some "no_author"
           | Some a =>
               if Py.contains "warrenplanbot" (Py.lower (name a))
               then Some "own_post"
               else if negb (bool_decide (is_Some
                         (Re.search (Re.Lit "!warrenplanbot") (text post))))
                    then Some "trigger_not_found"
                    else None
           end in
    match skip_reason with
    | Some skip_reason =>
        let! post_record :=
          lift (create_db_record post None None None None None false
                  true true (Some skip_reason)) in
        if negb skip_tracking then db_set (post_id post) post_record
        else ret tt
    | None =>
        let! flags := lift (process_flags (get_trigger_line (text post))) in
        let post_text := fst flags in
        let options := snd flags in
        let! match_info :=
          match_info_of plans verbatims post_text options matching_strategy in
        match match_info with
        | None => raise AttributeError
        | Some match_info =>
            let match_ := get (mi_match match_info) in
            let operation := get (mi_operation match_info) in
            let plan_confidence := get (mi_confidence match_info) in
            let plan := get (mi_plan match_info) in
            let potential_matches := get (mi_potential_matches match_info) in
            let! plan_id := lift (get_id id (mi_plan match_info)) in
            let verbatim := get (mi_verbatim match_info) in
            let! verbatim_id :=
              lift (get_id verbatim_id_of (mi_verbatim match_info)) in
            let! post_record :=
              lift (create_db_record post match_ plan_confidence plan_id
                      verbatim_id None false true false None) in
            do! (if negb skip_tracking
                 then db_set (post_id post) post_record else ret tt) in
            let! built :=
              lift
                (if from_option Py.truthy false match_
                 then
                   rbind (build_plan_response_text sv plan (text post))
                     (fun tr => Ok (fst tr, snd tr, None))
                 else if from_option Py.truthy false operation
                         && bool_decide
                              (default EmptyString operation ∈ operations_map)
                 then
                   rbind
                     (match operation with
                      | Some "verbatim" =>
                          build_verbatim_response_text verbatim
                      | Some "all_the_plans" =>
                          build_all_plans_response_text plans
                      | _ =>
                          Ok (build_state_of_race_response_text (today sv))
                      end)
                     (fun t => Ok (t, "operation", operation))
                 else
                   rbind (build_no_match_response_text potential_matches)
                     (fun t => Ok (t, "no_match", None))) in
            let reply_type := snd (fst built) in
            let update_operation := snd built in
            let! reply_string :=
              lift (if bool_decide ("parent" ∈ options)
                    then rbind (parent_reply_prefix post)
                           (fun pre => Ok (pre ++ fst (fst built)))
                    else Ok (fst (fst built))) in
            let! outcome :=
              try_except
                (let! did_reply :=
                   reply post reply_string
                     (bool_decide ("parent" ∈ options)) send simulate in
                 ret (did_reply, false))
                (fun e =>
                   match e with
                   | APIException error_type =>
                       if String.eqb error_type "DELETED_COMMENT"
                       then ret (Some false, true)
                       else raise e
                   | _ => raise e
                   end) in
            let did_reply := fst outcome in
            let deleted := snd outcome in
            let post_record_update :=
              {| u_reply_type := reply_type;
                 u_operation := update_operation;
                 u_skipped := if deleted then Some true else None;
                 u_skip_reason :=
                   if deleted then Some "deleted_comment" else None;
                 u_replied := did_reply;
                 u_reply_timestamp :=
                   if default false did_reply
                   then Some SERVER_TIMESTAMP else None |} in
            if negb skip_tracking
            then db_update (post_id post) post_record_update
            else ret tt
        end
    end.

End WithServices.

End plan_bot.

(** ** scripts/parse_plans.py *)

Module parse_plans.

(** A value as [json.load] gives it: [None], a boolean, a number, a
    string, a list or a dict. *)
#[warnings="-register-all"] Inductive value : Type :=
| VNone
| VBool (b : bool)
| VInt (n : Z)
| VFloat (q : Q)
| VStr (s : string)
| VList (items : list value)
| VDict (items : list (string * value)).

(** [[a for i in x for a in _flatten(i)]] for a list, [[x]] for
    anything else. *)
Fixpoint _flatten (x : value) : list value :=
  match x with
  | VList items => flat_map _flatten items
  | _ => [x]
  end.

End parse_plans.

(** ** main.py: the file of the posts replied to *)

Module main.

Definition carriage_return : ascii := ascii_of_nat 13.

(** What [f.read()] makes of the characters of a file opened in text
    mode: every line ending becomes one newline. *)
Fixpoint read_text (s : string) : string :=
  match s with
  | EmptyString => EmptyString
  | String c s' =>
      if Ascii.eqb c carriage_return
      then String Re.newline
             match s' with
             | String d s2 =>
                 if Ascii.eqb d Re.newline then read_text s2 else read_text s'
             | EmptyString => EmptyString
             end
      else String c (read_text s')
  end.

(** [s.split("\n")]; [cur] is the line being read. *)
Fixpoint split_lines_from (cur : string) (s : string) : list string :=
  match s with
  | EmptyString => [cur]
  | String c s' =>
      if Ascii.eqb c Re.newline
      then cur :: split_lines_from EmptyString s'
      else split_lines_from (cur ++ String c EmptyString) s'
  end.

(** The list [posts_replied_to] that the script starts from when the
    file is there: [list(filter(None, f.read().split("\n")))]. *)
Definition read_posts_replied_to (file : string) : list string :=
  List.filter Py.truthy (split_lines_from EmptyString (read_text file)).

(** What the loop at the end of the script writes into the file: each
    id and a newline. *)
Fixpoint write_posts_replied_to (posts_replied_to : list string) : string :=
  match posts_replied_to with
  | [] => EmptyString
  | post_id :: others =>
      post_id ++ String Re.newline EmptyString
      ++ write_posts_replied_to others
  end.

End main.

(** * Vocabulary of the properties *)

Local Open Scope list_scope.

(** [w] occurs in [text] at offset [i], up to case. *)
Definition occurs_at (w text : string) (i : nat) : Prop :=
  Py.lower (Py.take (String.length w) (Py.drop i text)) = Py.lower w.

Definition trigger : string := "!warrenplanbot".

(** The world after some more events. *)
Definition add_log (w : plan_bot.World) (evs : list plan_bot.event)
  : plan_bot.World :=
  plan_bot.mkWorld (plan_bot.post_ids_processed w) (plan_bot.posts_db w)
    (plan_bot.log w ++ evs).

(** Calls of the named strategies on one text, in order. *)
Definition calls (post_text : string) (names : list string)
  : list plan_bot.event :=
  map (fun n => plan_bot.StrategyCalled n post_text) names.
Arguments calls : simpl never.

(** The four rules of [process_post] in the order of its [or] chain, each
    with what it returns. *)
Definition rule_results (lib : matching.Libraries) (plans : list Plan)
  (verbatims : list Verbatim) (post_text : string) (options : gset string)
  : list (string * option MatchInfo) :=
  [ ("match_verbatim", matching.match_verbatim verbatims post_text options);
    ("request_plan_list", matching.request_plan_list plans post_text);
    ("request_state_of_race", matching.request_state_of_race plans post_text ∅);
    ("match_display_title", matching.match_display_title lib plans post_text) ].

(** [s] returns a dict whose ["match"] is an accepted plan id. *)
Definition accepts (s : strategy) (plans : list Plan) (text : string)
  (d : MatchInfo) : Prop :=
  s plans text = Ok (Some d)
  /\ exists m, mi_match d = Val m /\ Py.truthy m = true.

(** [s] returns a dict whose ["match"] is there and is not an accepted
    plan id. *)
Definition declines (s : strategy) (plans : list Plan) (text : string)
  (d : MatchInfo) : Prop :=
  s plans text = Ok (Some d)
  /\ (mi_match d = PyNone \/ mi_match d = Val EmptyString).

(** What the result of a rule names: an operation, which is never
    empty, or the plan whose title equals the text, by its id. *)
Definition names_operation_or_plan (plans : list Plan) (info : MatchInfo)
  : Prop :=
  (exists op,
     mi_operation info = Val op /\ op <> EmptyString
     /\ mi_match info = Absent)
  \/ (exists p,
        p ∈ plans /\ mi_match info = Val (id p)
        /\ mi_confidence info = Val 100%Q /\ mi_plan info = Val p
        /\ mi_operation info = Absent).

(** A post that passes the four skip checks of [process_post]. *)
Definition not_skipped (post : plan_bot.Post) : Prop :=
  plan_bot.locked post = false
  /\ (exists a, plan_bot.author post = Some a
              /\ Py.contains "warrenplanbot" (Py.lower (plan_bot.name a)) = false)
  /\ (exists i, occurs_at trigger (plan_bot.text post) i).

Section Shapes.
Import matching plan_bot.

Variable lib : Libraries.
Variable sv : Services.
Variable post : Post.
Variable plans : list Plan.
Variable verbatims : list Verbatim.
Variable send simulate skip_tracking : bool.
Variable matching_strategy : strategy.

(** The world after the first write of the audit record. *)
Definition written (w : World) (rec : AuditRecord) : World :=
  if skip_tracking then w
  else mkWorld (post_ids_processed w)
         (<[post_id post := mkDoc rec []]> (posts_db w))
         (log w ++ [DbSet (post_id post) rec]).

(** The world after the second write, given the record of the first. *)
Definition updated (w : World) (rec : AuditRecord) (u : RecordUpdate)
  : World :=
  if skip_tracking then w
  else mkWorld (post_ids_processed w)
         (<[post_id post := mkDoc rec [u]]> (posts_db w))
         (log w ++ [DbUpdate (post_id post) u]).

(** How the call of [reply] ends inside the [try]: what it adds to the
    log after the attempt itself, and either [did_reply] with whether the
    deleted-comment handler ran, or the exception that escapes. *)
Inductive reply_outcome (to : target) (s : string)
  : list event -> result (option bool * bool) -> Prop :=
| simulated :
    simulate = true -> reply_outcome to s [] (Ok (Some true, false))
| suppressed :
    simulate = false -> send = false ->
    reply_outcome to s [] (Ok (None, false))
| posted :
    simulate = false -> send = true -> reddit_reply sv to s = None ->
    reply_outcome to s [RedditReply to s] (Ok (Some true, false))
| target_deleted :
    simulate = false -> send = true ->
    reddit_reply sv to s = Some (APIException "DELETED_COMMENT") ->
    reply_outcome to s [RedditReply to s] (Ok (Some false, true))
| reply_raised e :
    simulate = false -> send = true -> reddit_reply sv to s = Some e ->
    e <> APIException "DELETED_COMMENT" ->
    reply_outcome to s [RedditReply to s] (Raise e).

(** The record of the first write agrees with the match. *)
Definition decision (mi : MatchInfo) (rec : AuditRecord) : Prop :=
  exists plan_id verbatim_id,
    get_id id (mi_plan mi) = Ok plan_id
    /\ get_id verbatim_id_of (mi_verbatim mi) = Ok verbatim_id
    /\ create_db_record post (get (mi_match mi)) (get (mi_confidence mi))
         plan_id verbatim_id None false true false None = Ok rec.

(** The update of the second write agrees with how the reply ended. *)
Definition outcome_update (did_reply : option bool) (deleted : bool)
  (u : RecordUpdate) : Prop :=
  u_replied u = did_reply
  /\ u_skipped u = (if deleted then Some true else None)
  /\ u_skip_reason u = (if deleted then Some "deleted_comment" else None)
  /\ u_reply_timestamp u
     = (if default false did_reply then Some SERVER_TIMESTAMP else None).

(** How [process_post] can end on a post that it does not skip, from
    the world [w0] in which the skip checks were made. *)
Inductive run_shape (w0 : World) : result unit -> World -> Prop :=
| flags_failed e :
    process_flags (get_trigger_line (text post)) = Raise e ->
    run_shape w0 (Raise e) w0
| undecided post_text options names e :
    process_flags (get_trigger_line (text post)) = Ok (post_text, options) ->
    run_shape w0 (Raise e)
      (add_log w0 (calls post_text ("match_verbatim" :: names)))
| text_failed post_text options names mi rec e :
    process_flags (get_trigger_line (text post)) = Ok (post_text, options) ->
    match_info_of lib plans verbatims post_text options matching_strategy w0
    = (Ok (Some mi),
       add_log w0 (calls post_text ("match_verbatim" :: names))) ->
    decision mi rec ->
    run_shape w0 (Raise e)
      (written (add_log w0 (calls post_text ("match_verbatim" :: names))) rec)
| reply_failed post_text options names mi rec to s evs e :
    process_flags (get_trigger_line (text post)) = Ok (post_text, options) ->
    match_info_of lib plans verbatims post_text options matching_strategy w0
    = (Ok (Some mi),
       add_log w0 (calls post_text ("match_verbatim" :: names))) ->
    decision mi rec ->
    reply_outcome to s evs (Raise e) ->
    run_shape w0 (Raise e)
      (add_log
         (written (add_log w0 (calls post_text ("match_verbatim" :: names)))
            rec)
         (ReplyAttempt to s :: evs))
| completed post_text options names mi rec to s evs did_reply deleted u :
    process_flags (get_trigger_line (text post)) = Ok (post_text, options) ->
    match_info_of lib plans verbatims post_text options matching_strategy w0
    = (Ok (Some mi),
       add_log w0 (calls post_text ("match_verbatim" :: names))) ->
    decision mi rec ->
    reply_outcome to s evs (Ok (did_reply, deleted)) ->
    outcome_update did_reply deleted u ->
    run_shape w0 (Ok tt)
      (updated
         (add_log
            (written
               (add_log w0 (calls post_text ("match_verbatim" :: names)))
               rec)
            (ReplyAttempt to s :: evs))
         rec u).

End Shapes.

(** Which skip reason [process_post] settles on: the first check that
    holds, in the order locked, no author, own post, no trigger. *)
Inductive skip_reason (post : plan_bot.Post) : string -> Prop :=
| skip_locked :
    plan_bot.locked post = true -> skip_reason post "post_locked"
| skip_no_author :
    plan_bot.locked post = false -> plan_bot.author post = None ->
    skip_reason post "no_author"
| skip_own a :
    plan_bot.locked post = false -> plan_bot.author post = Some a ->
    Py.contains "warrenplanbot" (Py.lower (plan_bot.name a)) = true ->
    skip_reason post "own_post"
| skip_no_trigger a :
    plan_bot.locked post = false -> plan_bot.author post = Some a ->
    Py.contains "warrenplanbot" (Py.lower (plan_bot.name a)) = false ->
    (forall i, ~ occurs_at trigger (plan_bot.text post) i) ->
    skip_reason post "trigger_not_found".

(** A call of a strategy. *)
Definition is_strategy_call (e : plan_bot.event) : Prop :=
  exists n t, e = plan_bot.StrategyCalled n t.

(** Rank order of scored corpus positions: higher score first, earlier
    position first among equal scores. *)
Definition ranks_before (a b : nat * Q) : Prop :=
  (b.2 < a.2)%Q \/ ((b.2 == a.2)%Q /\ a.1 < b.1).

(** The key of the sort in [_gensim_similarity], by name. *)
Definition by_descending_score (item : nat * Q) : Q := (- item.2)%Q.

(** The value of a flag in a namespace. *)
Definition flag_of (f : plan_bot.flag) (ns : plan_bot.Namespace) : bool :=
  match f with
  | plan_bot.parent_flag => plan_bot.ns_parent ns
  | plan_bot.why_warren => plan_bot.ns_why_warren ns
  | plan_bot.state_of_race => plan_bot.ns_state_of_race ns
  end.

(** [tok] is an option string that names the flag [f]: an alias of it or
    an abbreviation that fits only it. *)
Definition names_flag (tok : string) (f : plan_bot.flag) : Prop :=
  plan_bot._parse_optional tok = Ok (Some (Some f, None)).

(** [tok] is taken for an option string by the parser. *)
Definition option_string (tok : string) : Prop :=
  tok <> "--"
  /\ exists action, plan_bot._parse_optional tok = Ok (Some (action, None)).

(** [tok] ends the options: a positional word or ["--"]. *)
Definition ends_options (tok : string) : Prop :=
  tok = "--" \/ plan_bot._parse_optional tok = Ok None.

(** Flag extraction as the specification words it: flag tokens are taken
    out wherever they stand. *)
Definition extract_flags_anywhere (text : string) : string * gset string :=
  let tokens := Py.split text in
  (Py.join " "
     (List.filter (fun tok => negb (Py.startswith tok "--")) tokens),
   list_to_set
     (omap (fun tok => plan_bot.dest <$> plan_bot.lookup_option tok) tokens)).

(** Whom [reply] answers: the parent of the post when that is asked for
    and the post has one, else the post itself. *)
Definition reply_target (post : plan_bot.Post) (parent_ : bool)
  : plan_bot.target :=
  match parent_, plan_bot.parent post with
  | true, Some p => p
  | _, _ => (plan_bot.post_type post, plan_bot.post_id post)
  end.

Section Outcomes.
Import matching plan_bot.

(** The reply text, the reply type and the operation of the update that
    [process_post] settles on for a match info: the reply for the plan
    of an accepted match, the reply of a known operation, and the
    no-match reply otherwise. *)
Definition response_of (sv : Services) (post : Post) (plans : list Plan)
  (mi : MatchInfo) : result (string * string * option string) :=
  let match_ := get (mi_match mi) in
  let operation := get (mi_operation mi) in
  if from_option Py.truthy false match_
  then
    rbind (build_plan_response_text sv (get (mi_plan mi)) (text post))
      (fun tr => Ok (fst tr, snd tr, None))
  else if from_option Py.truthy false operation
          && bool_decide (default EmptyString operation ∈ operations_map)
  then
    rbind
      (match operation with
       | Some "verbatim" =>
           build_verbatim_response_text (get (mi_verbatim mi))
       | Some "all_the_plans" => build_all_plans_response_text plans
       | _ => Ok (build_state_of_race_response_text (today sv))
       end)
      (fun t => Ok (t, "operation", operation))
  else
    rbind (build_no_match_response_text (get (mi_potential_matches mi)))
      (fun t => Ok (t, "no_match", None)).

(** The text handed to [reply]: with the parent option, the line that
    names the author goes before the reply text. *)
Definition reply_string_of (post : Post) (options : gset string)
  (text_ : string) : result string :=
  if bool_decide ("parent" ∈ options)
  then rbind (parent_reply_prefix post) (fun pre => Ok (pre ++ text_)%string)
  else Ok text_.

(** The test of the handler around [reply]: an [APIException] whose
    error type is DELETED_COMMENT. *)
Definition is_deleted_comment (e : exn) : bool :=
  match e with
  | APIException error_type => String.eqb error_type "DELETED_COMMENT"
  | _ => false
  end.

(** The record of the first write holds the decision [mi]. *)
Definition records_decision (post : Post) (mi : MatchInfo)
  (rec : AuditRecord) : Prop :=
  r_post_id rec = post_id post /\ r_processed rec = true
  /\ r_replied rec = false /\ r_skipped rec = false
  /\ r_plan_match rec = get (mi_match mi)
  /\ r_top_plan_confidence rec = get (mi_confidence mi)
  /\ r_top_plan rec = id <$> get (mi_plan mi)
  /\ r_verbatim_id rec = verbatim_id_of <$> get (mi_verbatim mi).


(** What a run of [process_post] makes of the exception [e] that
    [post.reply] raised on the target [to] and the text [s]: the reply
    was sent; for the deleted-comment error the run returns and (with
    tracking on) its last act is the update that marks the skip; for any
    other exception the run raises it, makes no update, and the stored
    record is not a skip. *)
Definition reply_failure_handling (post : Post) (skip_tracking : bool)
  (to : target) (s : string) (e : exn) (w : World)
  (run : result unit * World) : Prop :=
  let '(r, w') := run in
  exists evs,
    log w' = log w ++ evs
    /\ RedditReply to s ∈ evs
    /\ if is_deleted_comment e
       then
         r = Ok tt
         /\ if skip_tracking then posts_db w' = posts_db w
            else exists rec u,
                   last evs = Some (DbUpdate (post_id post) u)
                   /\ posts_db w' !! post_id post = Some (mkDoc rec [u])
                   /\ u_skipped u = Some true
                   /\ u_skip_reason u = Some "deleted_comment"
                   /\ u_replied u = Some false
                   /\ u_reply_timestamp u = None
       else
         r = Raise e
         /\ (forall i u, DbUpdate i u ∉ evs)
         /\ if skip_tracking then posts_db w' = posts_db w
            else exists rec,
                   posts_db w' !! post_id post = Some (mkDoc rec [])
                   /\ r_skipped rec = false
                   /\ r_skip_reason rec = None.

(** Every occurrence of the trigger word in [text] is followed at once
    by a word character, a hyphen, or the end of the text. *)
Definition never_followed_by_separator (text : string) : Prop :=
  forall i, occurs_at trigger text i ->
    match String.get (i + String.length trigger) text with
    | None => True
    | Some c => Re.word c = true \/ c = "-"%char
    end.

(** The run called the strategies, the verbatim rule first, and every call
    was on the empty text. *)
Definition matched_on_empty_text (w : plan_bot.World)
  (run : result unit * plan_bot.World) : Prop :=
  let '(r, w') := run in
  exists names rest,
    plan_bot.log w'
    = plan_bot.log w ++ calls EmptyString ("match_verbatim" :: names) ++ rest
    /\ forall e, e ∈ rest -> ~ is_strategy_call e.

(** The run called no strategy and attempted no reply: all it did to
    the outside is write records of this post marked processed and
    skipped. *)
Definition skipped_without_matching (post : plan_bot.Post)
  (w : plan_bot.World) (run : result unit * plan_bot.World) : Prop :=
  let '(r, w') := run in
  exists evs,
    plan_bot.log w' = plan_bot.log w ++ evs
    /\ forall e, e ∈ evs ->
         exists rec, e = plan_bot.DbSet (plan_bot.post_id post) rec
                     /\ plan_bot.r_processed rec = true
                     /\ plan_bot.r_skipped rec = true.

(** The run returned after writing one record of this post, marked
    processed and skipped for the reason [reason]. *)
Definition recorded_skip (post : plan_bot.Post) (reason : string)
  (w : plan_bot.World) (run : result unit * plan_bot.World) : Prop :=
  let '(r, w') := run in
  exists rec,
    r = Ok tt
    /\ plan_bot.log w'
       = plan_bot.log w ++ [plan_bot.DbSet (plan_bot.post_id post) rec]
    /\ plan_bot.posts_db w'
       = <[plan_bot.post_id post := plan_bot.mkDoc rec []]>
           (plan_bot.posts_db w)
    /\ plan_bot.r_processed rec = true
    /\ plan_bot.r_skipped rec = true
    /\ plan_bot.r_skip_reason rec = Some reason
    /\ plan_bot.r_replied rec = false.

(** The potential matches of a result, against the scores [sims] and the
    id list [ids] of the model: no plan id twice, confidence never
    rising, every confidence above the threshold; and the entries are, in
    order, those of the corpus positions [ranked], which go from higher
    score to lower and, among equal scores, from earlier to later. *)
Definition ranked_potential_matches (sims : list Q) (ids : list string)
  (potential_plan_threshold : Q) (mi : MatchInfo) : Prop :=
  exists l ranked,
    mi_potential_matches mi = Val l
    /\ NoDup (pm_plan_id <$> l)
    /\ StronglySorted (fun a b => (pm_confidence b <= pm_confidence a)%Q) l
    /\ Forall (fun m => (potential_plan_threshold < pm_confidence m)%Q) l
    /\ Forall2 (fun m (p : nat * Q) =>
                  sims !! p.1 = Some p.2
                  /\ ids !! p.1 = Some (pm_plan_id m)
                  /\ pm_confidence m = (p.2 * 100)%Q) l ranked
    /\ StronglySorted ranks_before ranked.


End Outcomes.

(** ** Vocabulary of the further properties *)

(** Every character of [s] is in the class [p]. *)
Fixpoint all_chars (p : ascii -> bool) (s : string) : bool :=
  match s with
  | EmptyString => true
  | String c s' => p c && all_chars p s'
  end.

(** A word as [str.split()] yields them: not empty, no white space. *)
Definition is_word (w : string) : Prop :=
  w <> EmptyString /\ all_chars (fun c => negb (Py.isspace c)) w = true.

(** The texts that a pattern made of literals, sequence, alternation
    and [?] can match, up to letter case; [None] for other patterns. *)
Fixpoint phrases (r : Re.regex) : option (list string) :=
  match r with
  | Re.Lit l => Some [l]
  | Re.Seq a b =>
      match phrases a, phrases b with
      | Some xs, Some ys =>
          Some (flat_map (fun x => map (fun y => (x ++ y)%string) ys) xs)
      | _, _ => None
      end
  | Re.Alt a b =>
      match phrases a, phrases b with
      | Some xs, Some ys => Some (xs ++ ys)
      | _, _ => None
      end
  | Re.Opt a =>
      match phrases a with
      | Some xs => Some (xs ++ [EmptyString])
      | None => None
      end
  | _ => None
  end.

(** [text] starts with [phrase], in any letter case, and goes on to the
    end of its line with nothing but characters that are not word
    characters. *)
Definition begins_a_line (phrase text : string) : Prop :=
  exists P nw rest,
    text = (P ++ nw ++ rest)%string
    /\ Py.lower P = Py.lower phrase
    /\ all_chars Re.non_word nw = true
    /\ Re.at_eol rest = true.

(** [phrase] stands somewhere in [text] in this way. *)
Definition ends_a_line (phrase text : string) : Prop :=
  exists pre rest,
    text = (pre ++ rest)%string /\ begins_a_line phrase rest.

(** [text] starts with "advanced", white space and a line of "help". *)
Definition asks_advanced_help (text : string) : Prop :=
  exists A sp rest,
    text = (A ++ sp ++ rest)%string
    /\ Py.lower A = "advanced"
    /\ sp <> EmptyString /\ all_chars Re.space sp = true
    /\ begins_a_line "help" rest.

Definition asks_why_warren (text : string) (options : gset string) : Prop :=
  "why_warren" ∈ options \/ begins_a_line "why warren" text.

(** The id of the verbatim that a text and its options ask for. *)
Inductive verbatim_request (text : string) (options : gset string)
  : string -> Prop :=
| request_why_warren :
    asks_why_warren text options ->
    verbatim_request text options "why_warren"
| request_advanced_help :
    ~ asks_why_warren text options -> asks_advanced_help text ->
    verbatim_request text options "advanced_help"
| request_basic_help :
    ~ asks_why_warren text options -> begins_a_line "help" text ->
    verbatim_request text options "basic_help".

(** [x] is the first element of [l] with the property [P]. *)
Definition first_such {A} (P : A -> Prop) (l : list A) (x : A) : Prop :=
  exists before after,
    l = before ++ x :: after /\ P x /\ forall y, y ∈ before -> ~ P y.

(** The dict that [match_verbatim] returns for a verbatim. *)
Definition verbatim_reply (v : Verbatim) : MatchInfo :=
  {| mi_match := Absent;
     mi_operation := Val "verbatim";
     mi_confidence := Absent;
     mi_plan := Absent;
     mi_potential_matches := Absent;
     mi_verbatim := Val v |}.

(** The phrases of the three patterns of [request_state_of_race]. *)
Definition state_of_race_phrases : list string :=
  [ "state of the race"; "state of the primary"; "state of race";
    "state of primary"; "is the race over"; "is the primary over";
    "status check" ].

(** At most one sentence: characters other than [!], [?] and [.], then
    at most one of these. *)
Definition one_sentence (q : string) : Prop :=
  exists body stop,
    q = (body ++ stop)%string
    /\ all_chars Re.not_terminal body = true
    /\ (stop = EmptyString
        \/ exists t, stop = String t EmptyString /\ Re.terminal t = true).

(** [q] stands in [text] behind the trigger word and at least one
    character that is neither a hyphen nor a word character. *)
Definition follows_trigger (q text : string) : Prop :=
  exists pre T sep post,
    text = (pre ++ T ++ sep ++ q ++ post)%string
    /\ Py.lower T = trigger
    /\ sep <> EmptyString
    /\ all_chars Re.not_hyphen_word sep = true.

(** The score of a plan in [token_sort_ratio]. *)
Definition topic_score (lib : matching.Libraries) (post_text : string)
  (plan : Plan) : Z :=
  matching.fuzz_token_sort_ratio lib (Py.lower post_text)
    (Py.lower (topic plan)).

(** A write into the audit store. *)
Definition is_db_write (e : plan_bot.event) : Prop :=
  match e with
  | plan_bot.DbSet _ _ | plan_bot.DbUpdate _ _ => True
  | _ => False
  end.

(** The replies that a list of events posted. *)
Definition posted_replies (evs : list plan_bot.event)
  : list (plan_bot.target * string) :=
  omap (fun e => match e with
                 | plan_bot.RedditReply to s => Some (to, s)
                 | _ => None
                 end) evs.

(** What a call may do to the outside, in order: calls of strategies,
    then at most one write of a record, then at most one reply attempt,
    of which at most one reply is posted, then at most one update. *)
Definition run_trace (post : plan_bot.Post)
  (send simulate skip_tracking : bool) (evs : list plan_bot.event) : Prop :=
  exists cs db1 att db2,
    evs = cs ++ db1 ++ att ++ db2
    /\ Forall is_strategy_call cs
    /\ (db1 = []
        \/ skip_tracking = false
           /\ exists rec, db1 = [plan_bot.DbSet (plan_bot.post_id post) rec])
    /\ (att = []
        \/ exists to s,
             att = [plan_bot.ReplyAttempt to s]
             \/ att = [plan_bot.ReplyAttempt to s; plan_bot.RedditReply to s]
                /\ send = true /\ simulate = false)
    /\ (db2 = []
        \/ skip_tracking = false
           /\ exists u, db2 = [plan_bot.DbUpdate (plan_bot.post_id post) u]).

(** The caller's set after a call for the post id [i]; without a
    caller's set there is nothing to mark. *)
Definition marked (arg : plan_bot.processed_arg) (i : string)
  (ids : gset string) : gset string :=
  match arg with
  | plan_bot.callers_set => {[ i ]} ∪ ids
  | plan_bot.no_set => ids
  end.

(** The reply attempts of a run go to the target that the options ask
    for, and a reply for a parent starts by naming the author who
    asked. *)
Definition replies_as_asked (post : plan_bot.Post) (options : gset string)
  (w : plan_bot.World) (run : result unit * plan_bot.World) : Prop :=
  let '(r, w') := run in
  exists evs,
    plan_bot.log w' = plan_bot.log w ++ evs
    /\ forall to s,
         plan_bot.ReplyAttempt to s ∈ evs ->
         to = reply_target post (bool_decide ("parent" ∈ options))
         /\ ("parent" ∈ options ->
             exists a body,
               plan_bot.author post = Some a
               /\ s = ("/u/" ++ plan_bot.name a ++ " asked me to chime in!"
                       ++ plan_bot.nl ++ plan_bot.nl ++ body)%string).

Definition is_list (v : parse_plans.value) : Prop :=
  match v with parse_plans.VList _ => True | _ => False end.

(** A post id that can stand on a line of its own. *)
Definition one_line (i : string) : Prop :=
  all_chars (fun c => negb (Ascii.eqb c Re.newline
                            || Ascii.eqb c main.carriage_return)) i = true.

(** ** Concrete inputs *)

Module Examples.
Import matching plan_bot.

(** A model of four corpus entries, two of them of the same plan, and a
    model of an empty corpus. *)
Definition models4 : GensimModels :=
  {| plan_ids := ["a"; "b"; "a"; "c"];
     similarities := fun _ => [1 # 2; 9 # 10; 9 # 10; 3 # 5] |}.

Definition models_none : GensimModels :=
  {| plan_ids := []; similarities := fun _ => [] |}.

(** Libraries whose filters leave the text as it is. *)
Definition lib_with (m : GensimModels) : Libraries :=
  {| unidecode := fun s => s;
     strip_punctuation := fun s => s;
     strip_multiple_whitespaces := fun s => s;
     strip_numeric := fun s => s;
     strip_short := fun s => s;
     stem_text := fun s => s;
     GENSIM_STOPWORDS := ∅;
     fuzz_token_sort_ratio := fun _ _ => 0%Z;
     _load_gensim_models := fun _ _ _ _ => m |}.

Definition plan_help : Plan :=
  mkPlan "help_plan" "help" "Help" "https://example.org/help"
    "A plan about help." false [].

Definition basic_help : Verbatim :=
  mkVerbatim "basic_help" "Ask me about a plan.".

(** The comment [c1] of alice with the given text and lock state. *)
Definition comment_with (text : string) (locked : bool) : Post :=
  mkPost "c1" "comment" locked (Some (mkAuthor "alice")) text
    "t1_c0" "t3_s0" EmptyString "/r/WPBSandbox/comments/s0/_/c1/"
    (mkSubreddit "t5_2sandbox" "WPBSandbox") (Some ("comment", "c0")).

(** Services whose [post.reply] ends as given. *)
Definition replies (outcome : option exn) : Services :=
  {| build_llm_plan_response_text := fun _ _ => None;
     today := mkDate 2020 3 1;
     reddit_reply := fun _ _ => outcome |}.

(** A statistical strategy that never accepts a match. *)
Definition no_opinion : strategy :=
  fun _ _ =>
    Ok (Some {| mi_match := PyNone;
                mi_operation := Absent;
                mi_confidence := Val 0%Q;
                mi_plan := Absent;
                mi_potential_matches := Val [];
                mi_verbatim := Absent |}).

Definition fresh : World := mkWorld ∅ ∅ [].

(** Libraries whose lexical score of a topic is the length of the
    topic. *)
Definition lib_by_length : Libraries :=
  {| unidecode := fun s => s;
     strip_punctuation := fun s => s;
     strip_multiple_whitespaces := fun s => s;
     strip_numeric := fun s => s;
     strip_short := fun s => s;
     stem_text := fun s => s;
     GENSIM_STOPWORDS := ∅;
     fuzz_token_sort_ratio := fun _ topic => Z.of_nat (String.length topic);
     _load_gensim_models := fun _ _ _ _ => models4 |}.

Definition plan_care : Plan :=
  mkPlan "child_care" "child care" "Universal Child Care"
    "https://example.org/care" "A plan about child care." false [].

(** A plan whose id is the empty string. *)
Definition plan_without_id : Plan :=
  mkPlan EmptyString "child care" "Child Care" "https://example.org/care"
    "A plan about child care." false [].

(** A statistical strategy that is sure of the help plan, and a rule
    that finds nothing. *)
Definition sure_of_help : strategy :=
  fun _ _ =>
    Ok (Some {| mi_match := Val "help_plan";
                mi_operation := Absent;
                mi_confidence := Val 100%Q;
                mi_plan := Val plan_help;
                mi_potential_matches := Val [];
                mi_verbatim := Absent |}).

Definition rule_miss : strategy := fun _ _ => Ok None.

(** The comment [c2], whose author is gone. *)
Definition deleted_comment : Post :=
  mkPost "c2" "comment" false None "!WarrenPlanBot help"
    "t1_c0" "t3_s0" EmptyString "/r/WPBSandbox/comments/s0/_/c2/"
    (mkSubreddit "t5_2sandbox" "WPBSandbox") (Some ("comment", "c0")).

(** A potential match that found its plan. *)
Definition maybe_help : PotentialMatch :=
  mkPotentialMatch "help_plan" (Some plan_help) 60.

End Examples.

(** * Properties *)

(** ** Text and patterns *)

Section TextFacts.

Lemma lower_length s : String.length (Py.lower s) = String.length s.
Proof. induction s as [|c s IH]; simpl; congruence. Qed.

Lemma drop_empty n : Py.drop n EmptyString = EmptyString.
Proof. destruct n; reflexivity. Qed.

Lemma drop_drop n m s : Py.drop n (Py.drop m s) = Py.drop (m + n) s.
Proof.
  revert s; induction m as [|m IH]; intros s; simpl; [reflexivity|].
  destruct s as [|c s]; [apply drop_empty | apply IH].
Qed.

Lemma get_drop n s :
  String.get n s = match Py.drop n s with
                   | String c _ => Some c
                   | EmptyString => None
                   end.
Proof.
  revert s; induction n as [|n IH]; intros [|c s]; simpl; auto.
Qed.

(** A literal matches exactly where the text starts with it up to case. *)
Lemma lit_Some l s r :
  Re.lit l s = Some r ->
  Py.lower (Py.take (String.length l) s) = Py.lower l
  /\ r = Py.drop (String.length l) s.
Proof.
  revert s; induction l as [|a l IH]; intros s H; simpl in *.
  - injection H as <-. split; reflexivity.
  - destruct s as [|b s]; [discriminate|].
    destruct (Ascii.eqb_spec (Py.lower_char a) (Py.lower_char b)) as [E|];
      [|discriminate].
    destruct (IH _ H) as [H1 H2]. simpl. rewrite H1, E. auto.
Qed.

Lemma lit_None l s :
  Re.lit l s = None ->
  Py.lower (Py.take (String.length l) s) <> Py.lower l.
Proof.
  revert s; induction l as [|a l IH]; intros s H; simpl in *.
  - discriminate.
  - destruct s as [|b s]; [simpl; discriminate|].
    simpl. intros E; inversion E as [[E1 E2]].
    rewrite E1, Ascii.eqb_refl in H. exact (IH _ H E2).
Qed.

End TextFacts.

Section TriggerFacts.

(** [re.search] of a literal fails exactly when the literal occurs
    nowhere. *)
Lemma search_lit_None w text :
  Re.search (Re.Lit w) text = None <-> forall i, ~ occurs_at w text i.
Proof.
  unfold occurs_at. induction text as [|c text IH].
  - simpl. unfold Re.match_; simpl. split.
    + intros H i. rewrite drop_empty.
      destruct (Re.lit w EmptyString) eqn:E; [discriminate|].
      exact (lit_None _ _ E).
    + intros H. destruct (Re.lit w EmptyString) eqn:E; [|reflexivity].
      exfalso. apply (H 0). exact (proj1 (lit_Some _ _ _ E)).
  - cbn [Re.search]. unfold Re.match_ at 1; cbn [Re.run]. split.
    + intros H i.
      destruct (Re.lit w (String c text)) eqn:E; [discriminate|].
      destruct i as [|i]; [exact (lit_None _ _ E)|].
      simpl. apply IH. exact H.
    + intros H.
      destruct (Re.lit w (String c text)) eqn:E.
      * exfalso. apply (H 0). exact (proj1 (lit_Some _ _ _ E)).
      * apply IH. intros i. exact (H (S i)).
Qed.

Lemma search_lit_Some w text :
  is_Some (Re.search (Re.Lit w) text) <-> exists i, occurs_at w text i.
Proof.
  split.
  - intros Hs. induction text as [|c text IH].
    + exists 0. revert Hs. simpl. unfold Re.match_; simpl.
      destruct (Re.lit w EmptyString) eqn:E; [|intros [? ?]; discriminate].
      intros _. exact (proj1 (lit_Some _ _ _ E)).
    + revert Hs. cbn [Re.search]. unfold Re.match_ at 1; cbn [Re.run].
      destruct (Re.lit w (String c text)) eqn:E.
      * intros _. exists 0. exact (proj1 (lit_Some _ _ _ E)).
      * intros Hs. destruct (IH Hs) as [i Hi]. exists (S i). exact Hi.
  - intros [i Hi].
    destruct (Re.search (Re.Lit w) text) eqn:E; [eauto|].
    exfalso. exact (proj1 (search_lit_None w text) E i Hi).
Qed.

End TriggerFacts.

(** ** The chain of strategies *)

Section Chain.
Import matching plan_bot.

Variable lib : Libraries.

Lemma add_log_add_log w a b : add_log (add_log w a) b = add_log w (a ++ b).
Proof. unfold add_log; simpl. by rewrite app_assoc. Qed.

Lemma add_log_nil w : add_log w [] = w.
Proof. destruct w; unfold add_log; simpl. by rewrite app_nil_r. Qed.

Lemma call_run n t r w : call n t r w = (r, add_log w [StrategyCalled n t]).
Proof. unfold call, bind, emit, lift; simpl. by destruct r. Qed.

Lemma or_hit x y (w w' : World) info :
  x w = (Ok (Some info), w') -> info_truthy (Some info) = true ->
  or_ x y w = (Ok (Some info), w').
Proof. intros Hx Ht. unfold or_, bind. rewrite Hx, Ht. reflexivity. Qed.

Lemma or_miss x y (w w' : World) :
  x w = (Ok None, w') -> or_ x y w = y w'.
Proof. intros Hx. unfold or_, bind. rewrite Hx. reflexivity. Qed.

(** What a rule returns on a hit is taken by the [or] chain, and names
    an operation or the plan of the title. *)
Lemma rule_hit_names verbatims plans post_text options name info :
  (name, Some info) ∈ rule_results lib plans verbatims post_text options ->
  info_truthy (Some info) = true /\ names_operation_or_plan plans info.
Proof.
  unfold rule_results. rewrite !elem_of_cons, elem_of_nil.
  intros [H|[H|[H|[H|[]]]]]; injection H as _ H; revert H.
  - unfold match_verbatim. destruct (List.find _ verbatims); [|discriminate].
    intros [= E]; subst info. split; [reflexivity|].
    left. exists "verbatim". by repeat split.
  - unfold request_plan_list. case_match; [|discriminate].
    intros [= E]; subst info. split; [reflexivity|].
    left. exists "all_the_plans". by repeat split.
  - unfold request_state_of_race. case_match; [|discriminate].
    intros [= E]; subst info. split; [reflexivity|].
    left. exists "state_of_race". by repeat split.
  - unfold match_display_title.
    destruct (List.find _ plans) as [p|] eqn:Hfind; [|discriminate].
    intros [= E]; subst info. split; [reflexivity|].
    right. exists p. repeat split.
    apply find_some in Hfind as [Hin _]. by apply list_elem_of_In.
Qed.

(** C1.  The composite strategy of [process_post] calls the verbatim
    rule, the plan-list rule, the state-of-race rule, the exact-title
    rule and the statistical strategy in this order, all on the same
    text, and stops at the first rule that returns a result; that result
    is returned.  It names an operation, which is not empty, or, from
    the exact-title rule, the id of the plan whose title was matched,
    empty or not.  When no rule returns a result, all five are called
    and the outcome is the outcome of the statistical strategy, whole:
    its match, confidence, plan and potential matches. *)
Theorem composite_first_match_or_last plans verbatims post_text options
  (matching_strategy : strategy) (w : World) :
  let rules := rule_results lib plans verbatims post_text options in
  (exists k name info,
      rules !! k = Some (name, Some info)
      /\ (forall j e, j < k -> rules !! j = Some e -> e.2 = None)
      /\ names_operation_or_plan plans info
      /\ match_info_of lib plans verbatims post_text options
           matching_strategy w
         = (Ok (Some info),
            add_log w (calls post_text (take (S k) rules.*1))))
  \/ (Forall (fun r => r.2 = None) rules
      /\ match_info_of lib plans verbatims post_text options
           matching_strategy w
         = (matching_strategy plans post_text,
            add_log w
              (calls post_text (rules.*1 ++ ["matching_strategy"])))).
Proof.
  intros rules.
  assert (Hhit : forall name info, (name, Some info) ∈ rules ->
            info_truthy (Some info) = true
            /\ names_operation_or_plan plans info)
    by (intros; eapply rule_hit_names; eauto).
  subst rules. unfold rule_results in *. unfold match_info_of.
  destruct (match_verbatim verbatims post_text options) as [i1|] eqn:E1.
  { left. exists 0, "match_verbatim", i1.
    destruct (Hhit "match_verbatim" i1) as [Ht Hm];
      [rewrite !elem_of_cons; auto 10|].
    repeat split; [intros; lia | exact Hm |].
    eapply or_hit; [apply call_run | exact Ht]. }
  erewrite or_miss by apply call_run.
  destruct (request_plan_list plans post_text) as [i2|] eqn:E2.
  { left. exists 1, "request_plan_list", i2.
    destruct (Hhit "request_plan_list" i2) as [Ht Hm];
      [rewrite !elem_of_cons; auto 10|].
    repeat split; [| exact Hm |].
    - intros [|j] e Hj; [intros [= <-]; reflexivity | lia].
    - erewrite or_hit; [| apply call_run | exact Ht].
      rewrite add_log_add_log. reflexivity. }
  erewrite or_miss by apply call_run.
  destruct (request_state_of_race plans post_text ∅) as [i3|] eqn:E3.
  { left. exists 2, "request_state_of_race", i3.
    destruct (Hhit "request_state_of_race" i3) as [Ht Hm];
      [rewrite !elem_of_cons; auto 10|].
    repeat split; [| exact Hm |].
    - intros [|[|j]] e Hj; [intros [= <-]; reflexivity ..| lia].
    - erewrite or_hit; [| apply call_run | exact Ht].
      rewrite !add_log_add_log. reflexivity. }
  erewrite or_miss by apply call_run.
  destruct (match_display_title lib plans post_text) as [i4|] eqn:E4.
  { left. exists 3, "match_display_title", i4.
    destruct (Hhit "match_display_title" i4) as [Ht Hm];
      [rewrite !elem_of_cons; auto 10|].
    repeat split; [| exact Hm |].
    - intros [|[|[|j]]] e Hj; [intros [= <-]; reflexivity ..| lia].
    - erewrite or_hit; [| apply call_run | exact Ht].
      rewrite !add_log_add_log. reflexivity. }
  erewrite or_miss by apply call_run.
  right. split; [repeat constructor|].
  rewrite call_run, !add_log_add_log. reflexivity.
Qed.

End Chain.

(** ** Strategy._composite_strategy *)

Section CompositeStrategy.
Import matching.

Variables (plans : list Plan) (text : string).

Lemma composite_loop_step s d rest last :
  declines s plans text d ->
  _composite_loop plans text (s :: rest) last
  = _composite_loop plans text rest (Some (Some d)).
Proof.
  intros (Hs & Hm). cbn [_composite_loop]. rewrite Hs. cbn [rbind].
  destruct Hm as [-> | ->]; reflexivity.
Qed.

(** [_composite_strategy] returns the result of the first strategy that
    accepts a match, *)
Lemma composite_strategy_first_match before s after d :
  Forall (fun q => exists d', declines q plans text d') before ->
  accepts s plans text d ->
  _composite_strategy plans text (before ++ s :: after) = Ok (Some d).
Proof.
  intros Hb (Hs & m & Hm & Ht). unfold _composite_strategy.
  generalize (@None (option MatchInfo)).
  induction Hb as [|q before (d' & Hq) _ IH]; intros last.
  - cbn [app _composite_loop]. rewrite Hs. cbn [rbind]. rewrite Hm.
    simpl. by rewrite Ht.
  - cbn [app]. erewrite composite_loop_step by exact Hq. apply IH.
Qed.

(** and the result of the last one when none does. *)
Lemma composite_strategy_last before s d :
  Forall (fun q => exists d', declines q plans text d') before ->
  declines s plans text d ->
  _composite_strategy plans text (before ++ [s]) = Ok (Some d).
Proof.
  intros Hb Hs. unfold _composite_strategy.
  generalize (@None (option MatchInfo)).
  induction Hb as [|q before (d' & Hq) _ IH]; intros last.
  - cbn [app]. erewrite composite_loop_step by exact Hs. reflexivity.
  - cbn [app]. erewrite composite_loop_step by exact Hq. apply IH.
Qed.

(** It cannot run the rules: a rule that finds nothing returns [None],
    which has no ["match"]. *)
Lemma composite_strategy_on_a_rule_miss s rest :
  s plans text = Ok None ->
  _composite_strategy plans text (s :: rest) = Raise TypeError.
Proof. intros H. unfold _composite_strategy. simpl. by rewrite H. Qed.

End CompositeStrategy.

(** ** Runs of process_post *)

Section Runs.
Import matching plan_bot.

Variable lib : Libraries.
Variable sv : Services.

Lemma or_run x y (w w' : World) r :
  x w = (Ok r, w') ->
  or_ x y w = if info_truthy r then (Ok r, w') else y w'.
Proof. intros Hx. unfold or_, bind. rewrite Hx. by destruct (info_truthy r). Qed.

Lemma match_info_of_calls plans verbatims post_text options ms w :
  exists names,
    (match_info_of lib plans verbatims post_text options ms w).2
    = add_log w (calls post_text ("match_verbatim" :: names)).
Proof.
  unfold match_info_of.
  erewrite or_run by apply call_run.
  destruct (info_truthy _); [by exists []|].
  erewrite or_run by apply call_run.
  destruct (info_truthy _);
    [exists ["request_plan_list"]; simpl; by rewrite ?add_log_add_log|].
  erewrite or_run by apply call_run.
  destruct (info_truthy _);
    [exists ["request_plan_list"; "request_state_of_race"]; simpl;
     by rewrite ?add_log_add_log|].
  erewrite or_run by apply call_run.
  destruct (info_truthy _);
    [exists ["request_plan_list"; "request_state_of_race";
             "match_display_title"]; simpl; by rewrite ?add_log_add_log|].
  rewrite call_run.
  exists ["request_plan_list"; "request_state_of_race";
          "match_display_title"; "matching_strategy"].
  simpl; by rewrite ?add_log_add_log.
Qed.

(** The result of the chain does not depend on the world it runs in. *)
Lemma match_info_of_result plans verbatims post_text options ms
  (w w' : World) :
  (match_info_of lib plans verbatims post_text options ms w).1
  = (match_info_of lib plans verbatims post_text options ms w').1.
Proof.
  unfold match_info_of.
  rewrite !(or_run _ _ _ _ _ (call_run _ _ _ _)), !call_run.
  by repeat (destruct (info_truthy _); [reflexivity|]).
Qed.

Lemma reply_run post s par send simulate (w : World) :
  exists to evs ro,
    reply_outcome sv send simulate to s evs ro
    /\ try_except
         (let! did_reply := reply sv post s par send simulate in
          ret (did_reply, false))
         (fun e =>
            match e with
            | APIException error_type =>
                if String.eqb error_type "DELETED_COMMENT"
                then ret (Some false, true)
                else raise e
            | _ => raise e
            end) w
       = (ro, add_log w (ReplyAttempt to s :: evs)).
Proof.
  unfold reply.
  set (to := match par, parent post with
             | true, Some p => p
             | _, _ => (post_type post, post_id post)
             end).
  exists to.
  unfold try_except, bind, emit, ret, raise; simpl.
  destruct simulate eqn:Hsim.
  { exists [], (Ok (Some true, false)). split; [by constructor|reflexivity]. }
  destruct send eqn:Hsend.
  2:{ exists [], (Ok (None, false)). split; [by constructor|reflexivity]. }
  simpl. destruct (reddit_reply sv to s) as [e|] eqn:Hr.
  2:{ exists [RedditReply to s], (Ok (Some true, false)).
      split; [by constructor|].
      unfold add_log; simpl. by rewrite <- app_assoc. }
  assert (Hlog : forall r : result (option bool * bool),
            (r, mkWorld (post_ids_processed w) (posts_db w)
                  ((log w ++ [ReplyAttempt to s]) ++ [RedditReply to s]))
            = (r, add_log w [ReplyAttempt to s; RedditReply to s])).
  { intros r. unfold add_log. by rewrite <- app_assoc. }
  destruct e as [|key| | | |status|error_type|name];
    try (match type of Hr with
         | _ = Some ?x => exists [RedditReply to s], (Raise x)
         end; split; [by constructor|apply Hlog]).
  destruct (String.eqb_spec error_type "DELETED_COMMENT") as [->|Hne].
  - exists [RedditReply to s], (Ok (Some false, true)).
    split; [by constructor|apply Hlog].
  - exists [RedditReply to s], (Raise (APIException error_type)).
    split; [constructor; congruence|apply Hlog].
Qed.

Lemma reply_run_target post s par send simulate (w : World) :
  exists evs ro,
    reply_outcome sv send simulate (reply_target post par) s evs ro
    /\ try_except
         (let! did_reply := reply sv post s par send simulate in
          ret (did_reply, false))
         (fun e =>
            match e with
            | APIException error_type =>
                if String.eqb error_type "DELETED_COMMENT"
                then ret (Some false, true)
                else raise e
            | _ => raise e
            end) w
       = (ro, add_log w (ReplyAttempt (reply_target post par) s :: evs)).
Proof.
  unfold reply. fold (reply_target post par).
  set (to := reply_target post par).
  unfold try_except, bind, emit, ret, raise; simpl.
  destruct simulate eqn:Hsim.
  { exists [], (Ok (Some true, false)). split; [by constructor|reflexivity]. }
  destruct send eqn:Hsend.
  2:{ exists [], (Ok (None, false)). split; [by constructor|reflexivity]. }
  simpl. destruct (reddit_reply sv to s) as [e|] eqn:Hr.
  2:{ exists [RedditReply to s], (Ok (Some true, false)).
      split; [by constructor|].
      unfold add_log; simpl. by rewrite <- app_assoc. }
  assert (Hlog : forall r : result (option bool * bool),
            (r, mkWorld (post_ids_processed w) (posts_db w)
                  ((log w ++ [ReplyAttempt to s]) ++ [RedditReply to s]))
            = (r, add_log w [ReplyAttempt to s; RedditReply to s])).
  { intros r. unfold add_log. by rewrite <- app_assoc. }
  destruct e as [|key| | | |status|error_type|name];
    try (match type of Hr with
         | _ = Some ?x => exists [RedditReply to s], (Raise x)
         end; split; [by constructor|apply Hlog]).
  destruct (String.eqb_spec error_type "DELETED_COMMENT") as [->|Hne].
  - exists [RedditReply to s], (Ok (Some false, true)).
    split; [by constructor|apply Hlog].
  - exists [RedditReply to s], (Raise (APIException error_type)).
    split; [constructor; congruence|apply Hlog].
Qed.

Local Opaque process_flags get_trigger_line match_info_of create_db_record
  build_plan_response_text build_verbatim_response_text
  build_all_plans_response_text build_state_of_race_response_text
  build_no_match_response_text Re.search Py.contains Py.lower.

Lemma process_post_not_skipped post plans verbatims arg send simulate
  skip_tracking ms w :
  not_skipped post ->
  (arg = callers_set -> post_id post ∉ post_ids_processed w) ->
  let '(r, w') :=
    process_post lib sv post plans verbatims arg send simulate
      skip_tracking ms w in
  run_shape lib sv post plans verbatims send simulate skip_tracking ms
    (add_processed arg (post_id post) w).2 r w'.
Proof.
  intros (Hl & (a & Ha & Hown) & Htrig) Hnew.
  unfold process_post.
  unfold bind at 1.
  assert (Hseen : already_processed arg (post_id post) w = (Ok false, w)).
  { unfold already_processed. destruct arg; [reflexivity|].
    rewrite bool_decide_eq_false_2; auto. }
  rewrite Hseen.
  unfold bind at 1.
  destruct (add_processed arg (post_id post) w) as [r0 w0] eqn:Hadd.
  assert (r0 = Ok tt) as -> by (unfold add_processed in Hadd; congruence).
  rewrite Hl, Ha, Hown.
  apply search_lit_Some in Htrig.
  rewrite (bool_decide_eq_true_2 _ Htrig).
  cbn [negb snd].
  unfold bind at 1. unfold lift at 1.
  destruct (process_flags (get_trigger_line (text post)))
    as [[post_text options]|e] eqn:Hf; [|by constructor].
  cbn [fst snd].
  unfold bind at 1.
  destruct (match_info_of_calls plans verbatims post_text options ms w0)
    as [names Hw1].
  destruct (match_info_of lib plans verbatims post_text options ms w0)
    as [r1 w1] eqn:Hm.
  cbn [snd] in Hw1; subst w1.
  destruct r1 as [[mi|]|e]; [| by econstructor | by econstructor].
  unfold bind at 1. unfold lift at 1.
  destruct (get_id id (mi_plan mi)) as [plan_id|e] eqn:Hp;
    [|by econstructor].
  unfold bind at 1. unfold lift at 1.
  destruct (get_id verbatim_id_of (mi_verbatim mi)) as [verbatim_id|e] eqn:Hv;
    [|by econstructor].
  unfold bind at 1. unfold lift at 1.
  destruct (create_db_record post (get (mi_match mi)) (get (mi_confidence mi))
              plan_id verbatim_id None false true false None)
    as [rec|e] eqn:Hrec; [|by econstructor].
  assert (Hdec : decision post mi rec) by (exists plan_id, verbatim_id; auto).
  unfold bind at 1.
  set (w1 := add_log w0 (calls post_text ("match_verbatim" :: names))) in *.
  assert (Hset : (if negb skip_tracking
                  then db_set (post_id post) rec else ret ()) w1
                 = (Ok tt, written post skip_tracking w1 rec)).
  { unfold written. destruct skip_tracking; reflexivity. }
  rewrite Hset. clear Hset. cbv beta iota.
  set (w2 := written post skip_tracking w1 rec).
  unfold bind at 1.
  match goal with
  | |- context [lift ?b w2] =>
      unfold lift at 1;
      destruct b as [[[text_ reply_type] operation]|e] eqn:Hb
  end; [|by econstructor].
  cbn [fst snd].
  unfold bind at 1. unfold lift at 1.
  assert (Hrs : exists reply_string,
            (if bool_decide ("parent" ∈ options)
             then rbind (parent_reply_prefix post)
                    (fun pre => Ok (pre ++ text_)%string)
             else Ok text_) = Ok reply_string).
  { destruct (bool_decide ("parent" ∈ options)); [|eauto].
    unfold parent_reply_prefix. rewrite Ha. eexists; reflexivity. }
  destruct Hrs as [reply_string ->].
  unfold bind at 1.
  destruct (reply_run post reply_string (bool_decide ("parent" ∈ options))
              send simulate w2) as (to & evs & ro & Hro & ->).
  destruct ro as [[did_reply deleted]|e]; [|by econstructor].
  cbn [fst snd].
  set (u := {| u_reply_type := reply_type |}).
  assert (Hu : outcome_update did_reply deleted u) by done.
  clearbody u.
  assert (Hfin :
    (if negb skip_tracking then db_update (post_id post) u else ret ())
      (add_log w2 (ReplyAttempt to reply_string :: evs))
    = (Ok tt,
       updated post skip_tracking
         (add_log w2 (ReplyAttempt to reply_string :: evs)) rec u)).
  { unfold updated, w2, written. destruct skip_tracking; [reflexivity|].
    unfold db_update; simpl. rewrite lookup_insert_eq. reflexivity. }
  rewrite Hfin. by econstructor.
Qed.
End Runs.

Section Skips.
Import matching plan_bot.

Variable lib : Libraries.
Variable sv : Services.

Lemma process_post_seen post plans verbatims send simulate skip_tracking ms w :
  post_id post ∈ post_ids_processed w ->
  process_post lib sv post plans verbatims callers_set send simulate
    skip_tracking ms w = (Ok tt, w).
Proof.
  intros H. unfold process_post, bind, already_processed.
  by rewrite bool_decide_eq_true_2.
Qed.

Lemma skipped_or_not post :
  not_skipped post \/ exists reason, skip_reason post reason.
Proof.
  destruct (locked post) eqn:Hl; [right; eexists; by apply skip_locked|].
  destruct (author post) as [a|] eqn:Ha;
    [|right; eexists; by apply skip_no_author].
  destruct (Py.contains "warrenplanbot" (Py.lower (name a))) eqn:Hown;
    [right; eexists; by eapply skip_own|].
  destruct (Re.search (Re.Lit trigger) (text post)) eqn:Hs.
  - left. split; [done|]. split; [eauto|].
    apply search_lit_Some. eauto.
  - right. eexists. eapply skip_no_trigger; eauto.
    by apply search_lit_None.
Qed.

Lemma create_db_record_fields post m c p v t rm pr sk sr rec :
  create_db_record post m c p v t rm pr sk sr = Ok rec ->
  r_processed rec = pr /\ r_replied rec = rm /\ r_skipped rec = sk
  /\ r_skip_reason rec = sr /\ r_post_id rec = post_id post
  /\ r_plan_match rec = m /\ r_top_plan_confidence rec = c
  /\ r_top_plan rec = p /\ r_verbatim_id rec = v
  /\ r_reply_timestamp rec = t.
Proof.
  unfold create_db_record. destruct (author post); [|discriminate].
  intros [= <-]. simpl. repeat split.
Qed.

Lemma create_db_record_Ok post a m c p v t rm pr sk sr :
  author post = Some a ->
  exists rec, create_db_record post m c p v t rm pr sk sr = Ok rec.
Proof. intros Ha. unfold create_db_record. rewrite Ha. eauto. Qed.

Local Opaque create_db_record Re.search Py.contains Py.lower.

Lemma process_post_skipped post plans verbatims arg send simulate
  skip_tracking ms w reason :
  skip_reason post reason ->
  (arg = callers_set -> post_id post ∉ post_ids_processed w) ->
  process_post lib sv post plans verbatims arg send simulate skip_tracking
    ms w
  = match create_db_record post None None None None None false true true
            (Some reason) with
    | Ok rec =>
        (Ok tt,
         written post skip_tracking
           (add_processed arg (post_id post) w).2 rec)
    | Raise e => (Raise e, (add_processed arg (post_id post) w).2)
    end.
Proof.
  intros Hr Hnew.
  unfold process_post.
  unfold bind at 1.
  assert (Hseen : already_processed arg (post_id post) w = (Ok false, w)).
  { unfold already_processed. destruct arg; [reflexivity|].
    rewrite bool_decide_eq_false_2; auto. }
  rewrite Hseen.
  unfold bind at 1.
  destruct (add_processed arg (post_id post) w) as [r0 w0] eqn:Hadd.
  assert (r0 = Ok tt) as -> by (unfold add_processed in Hadd; congruence).
  cbn [snd].
  assert (Hfin : forall reason,
    (let! post_record :=
       lift (create_db_record post None None None None None false true
               true (Some reason)) in
     if negb skip_tracking then db_set (post_id post) post_record
     else ret ()) w0
    = match create_db_record post None None None None None false true true
              (Some reason) with
      | Ok rec => (Ok tt, written post skip_tracking w0 rec)
      | Raise e => (Raise e, w0)
      end).
  { intros rs. unfold bind, lift, written.
    destruct (create_db_record _ _ _ _ _ _ _ _ _ _); [|reflexivity].
    by destruct skip_tracking. }
  destruct Hr as [Hl|Hl Ha|a Hl Ha Hown|a Hl Ha Hown Hno].
  - rewrite Hl. apply Hfin.
  - rewrite Hl, Ha. apply Hfin.
  - rewrite Hl, Ha, Hown. apply Hfin.
  - rewrite Hl, Ha, Hown.
    apply search_lit_None in Hno. fold trigger. rewrite Hno.
    rewrite bool_decide_eq_false_2 by (intros [? ?]; discriminate).
    apply Hfin.
Qed.

Lemma run_shape_processed post plans verbatims send simulate skip_tracking
  ms w0 r w' :
  run_shape lib sv post plans verbatims send simulate skip_tracking ms w0 r w' ->
  post_ids_processed w' = post_ids_processed w0.
Proof.
  intros H; destruct H; unfold updated, written;
    destruct skip_tracking; reflexivity.
Qed.

Lemma process_post_marks post plans verbatims send simulate skip_tracking ms w :
  post_id post ∈
    post_ids_processed
      (process_post lib sv post plans verbatims callers_set send simulate
         skip_tracking ms w).2.
Proof.
  destruct (decide (post_id post ∈ post_ids_processed w)) as [Hin|Hnew].
  { by rewrite process_post_seen. }
  destruct (skipped_or_not post) as [Hns|[reason Hr]].
  - pose proof (process_post_not_skipped lib sv post plans verbatims
                  callers_set send simulate skip_tracking ms w Hns
                  (fun _ => Hnew)) as H.
    destruct (process_post _ _ _ _ _ _ _ _ _ _ _) as [r w'].
    apply run_shape_processed in H. cbn [snd]. rewrite H.
    simpl. apply elem_of_union_l. by apply elem_of_singleton.
  - rewrite (process_post_skipped _ _ _ _ _ _ _ _ _ reason Hr (fun _ => Hnew)).
    destruct (create_db_record _ _ _ _ _ _ _ _ _ _); unfold written;
      destruct skip_tracking; simpl;
      apply elem_of_union_l; by apply elem_of_singleton.
Qed.

End Skips.

Section Audit.
Import matching plan_bot.

Variable lib : Libraries.
Variable sv : Services.

Lemma add_processed_keeps arg i w :
  posts_db (add_processed arg i w).2 = posts_db w
  /\ log (add_processed arg i w).2 = log w.
Proof. by destruct arg. Qed.

Lemma get_id_Ok {A} (f : A -> string) (e : entry A) r :
  get_id f e = Ok r -> r = f <$> get e.
Proof. destruct e; simpl; congruence. Qed.

Lemma calls_are_calls t names : Forall is_strategy_call (calls t names).
Proof.
  unfold calls. apply Forall_forall. intros e [n [-> _]]%list_elem_of_fmap.
  by exists n, t.
Qed.

Lemma not_in_calls e t names :
  e ∈ calls t names -> is_strategy_call e.
Proof.
  intros H. eapply Forall_forall in H; [exact H|apply calls_are_calls].
Qed.

Lemma get_id_Val {A} (f : A -> string) (e : entry A) :
  e <> PyNone -> get_id f e = Ok (f <$> get e).
Proof. by destruct e. Qed.

Lemma decision_fields post mi rec :
  decision post mi rec -> records_decision post mi rec.
Proof.
  intros (p & v & Hp & Hv & Hc).
  apply get_id_Ok in Hp, Hv. subst p v.
  apply create_db_record_fields in Hc. unfold records_decision. tauto.
Qed.

Local Opaque process_flags get_trigger_line match_info_of create_db_record
  build_plan_response_text build_verbatim_response_text
  build_all_plans_response_text build_state_of_race_response_text
  build_no_match_response_text Re.search Py.contains Py.lower.

(** The run of [process_post] on a post that is not skipped, once the
    flags are parsed and the chain of strategies has returned the match
    info [mi] with a plan and a verbatim that are not [None]: the record
    of the decision is written, and the run goes on with the reply. *)
Lemma process_post_decided post plans verbatims arg send simulate
  skip_tracking ms w post_text options mi :
  not_skipped post ->
  (arg = callers_set -> post_id post ∉ post_ids_processed w) ->
  process_flags (get_trigger_line (text post)) = Ok (post_text, options) ->
  (match_info_of lib plans verbatims post_text options ms w).1
  = Ok (Some mi) ->
  mi_plan mi <> PyNone -> mi_verbatim mi <> PyNone ->
  exists names rec,
    decision post mi rec
    /\ let w1 :=
         written post skip_tracking
           (add_log (add_processed arg (post_id post) w).2
              (calls post_text ("match_verbatim" :: names))) rec in
       let to := reply_target post (bool_decide ("parent" ∈ options)) in
       match response_of sv post plans mi with
       | Raise e =>
           process_post lib sv post plans verbatims arg send simulate
             skip_tracking ms w
           = (Raise e, w1)
       | Ok built =>
           exists s evs ro,
             reply_string_of post options built.1.1 = Ok s
             /\ reply_outcome sv send simulate to s evs ro
             /\ process_post lib sv post plans verbatims arg send simulate
                  skip_tracking ms w
                = match ro with
                  | Raise e =>
                      (Raise e, add_log w1 (ReplyAttempt to s :: evs))
                  | Ok (did_reply, deleted) =>
                      (Ok tt,
                       updated post skip_tracking
                         (add_log w1 (ReplyAttempt to s :: evs)) rec
                         {| u_reply_type := built.1.2;
                            u_operation := built.2;
                            u_skipped :=
                              if deleted then Some true else None;
                            u_skip_reason :=
                              if deleted then Some "deleted_comment"
                              else None;
                            u_replied := did_reply;
                            u_reply_timestamp :=
                              if default false did_reply
                              then Some SERVER_TIMESTAMP else None |})
                  end
       end.
Proof.
  intros (Hl & (a & Ha & Hown) & Htrig) Hnew Hf Hmi Hplan Hverb.
  remember (process_post lib sv post plans verbatims arg send simulate
              skip_tracking ms w) as run eqn:Hrun.
  unfold process_post in Hrun.
  unfold bind at 1 in Hrun.
  assert (Hseen : already_processed arg (post_id post) w = (Ok false, w)).
  { unfold already_processed. destruct arg; [reflexivity|].
    rewrite bool_decide_eq_false_2; auto. }
  rewrite Hseen in Hrun.
  unfold bind at 1 in Hrun.
  destruct (add_processed arg (post_id post) w) as [r0 w0] eqn:Hadd.
  assert (r0 = Ok tt) as -> by (unfold add_processed in Hadd; congruence).
  rewrite Hl, Ha, Hown in Hrun.
  apply search_lit_Some in Htrig.
  rewrite (bool_decide_eq_true_2 _ Htrig) in Hrun.
  cbn [negb snd] in Hrun |- *.
  unfold bind at 1 in Hrun. unfold lift at 1 in Hrun.
  rewrite Hf in Hrun. cbn [fst snd] in Hrun.
  unfold bind at 1 in Hrun.
  destruct (match_info_of_calls lib plans verbatims post_text options ms w0)
    as [names Hw1].
  rewrite (match_info_of_result lib _ _ _ _ _ w w0) in Hmi.
  destruct (match_info_of lib plans verbatims post_text options ms w0)
    as [r1 w1] eqn:Hm.
  cbn [fst snd] in Hw1, Hmi; subst w1 r1.
  unfold bind at 1 in Hrun. unfold lift at 1 in Hrun.
  rewrite (get_id_Val id _ Hplan) in Hrun.
  unfold bind at 1 in Hrun. unfold lift at 1 in Hrun.
  rewrite (get_id_Val verbatim_id_of _ Hverb) in Hrun.
  unfold bind at 1 in Hrun. unfold lift at 1 in Hrun.
  destruct (create_db_record_Ok post a (get (mi_match mi))
              (get (mi_confidence mi)) (id <$> get (mi_plan mi))
              (verbatim_id_of <$> get (mi_verbatim mi)) None false true
              false None Ha) as [rec Hrec].
  rewrite Hrec in Hrun.
  exists names, rec. split.
  { exists (id <$> get (mi_plan mi)), (verbatim_id_of <$> get (mi_verbatim mi)).
    by rewrite !get_id_Val. }
  unfold bind at 1 in Hrun.
  set (w1 := add_log w0 (calls post_text ("match_verbatim" :: names))) in *.
  assert (Hset : (if negb skip_tracking
                  then db_set (post_id post) rec else ret ()) w1
                 = (Ok tt, written post skip_tracking w1 rec)).
  { unfold written. destruct skip_tracking; reflexivity. }
  rewrite Hset in Hrun. clear Hset. cbv beta iota in Hrun.
  set (w2 := written post skip_tracking w1 rec) in *.
  cbv zeta. unfold response_of. cbv zeta.
  unfold bind at 1 in Hrun. unfold lift at 1 in Hrun.
  match goal with
  | |- match ?b with _ => _ end =>
      destruct b as [[[text_ reply_type] operation]|e] eqn:Hb
  end; [|exact Hrun].
  cbn [fst snd] in Hrun |- *.
  unfold bind at 1 in Hrun. unfold lift at 1 in Hrun.
  unfold reply_string_of.
  assert (Hrs : exists reply_string,
            (if bool_decide ("parent" ∈ options)
             then rbind (parent_reply_prefix post)
                    (fun pre => Ok (pre ++ text_)%string)
             else Ok text_) = Ok reply_string).
  { destruct (bool_decide ("parent" ∈ options)); [|eauto].
    unfold parent_reply_prefix. rewrite Ha. eexists; reflexivity. }
  destruct Hrs as [reply_string Hrs]. rewrite Hrs in Hrun.
  unfold bind at 1 in Hrun.
  destruct (reply_run_target sv post reply_string
              (bool_decide ("parent" ∈ options)) send simulate w2)
    as (evs & ro & Hro & Hreply).
  rewrite Hreply in Hrun.
  exists reply_string, evs, ro. split; [exact Hrs|]. split; [exact Hro|].
  destruct ro as [[did_reply deleted]|e]; [|exact Hrun].
  cbn [fst snd] in Hrun.
  rewrite Hrun. unfold updated, w2, written.
  destruct skip_tracking; [reflexivity|].
  unfold db_update; simpl. rewrite lookup_insert_eq. reflexivity.
Qed.

Lemma is_deleted_comment_spec e :
  is_deleted_comment e = true <-> e = APIException "DELETED_COMMENT".
Proof.
  destruct e as [|key| | | |status|error_type|name]; simpl;
    try (split; [discriminate|discriminate]).
  rewrite String.eqb_eq. split; [by intros ->|by intros [= ->]].
Qed.


(** C9.  When the run of [process_post] reaches the call of
    [post.reply] and that call raises, the reply having been sent: for
    the deleted-comment error the failure is caught, the run returns
    normally and, with tracking on, its last act is the update of the
    record with skipped, the skip reason "deleted_comment" and replied
    false, without a reply time stamp.  Any other exception of the reply
    call leaves [process_post] as it is: no update is written, and the
    stored record is not a skip. *)
Theorem deleted_target_is_a_skip post plans verbatims arg skip_tracking ms
  w post_text options mi built s e :
  not_skipped post ->
  (arg = callers_set -> post_id post ∉ post_ids_processed w) ->
  process_flags (get_trigger_line (text post)) = Ok (post_text, options) ->
  (match_info_of lib plans verbatims post_text options ms w).1
  = Ok (Some mi) ->
  mi_plan mi <> PyNone -> mi_verbatim mi <> PyNone ->
  response_of sv post plans mi = Ok built ->
  reply_string_of post options built.1.1 = Ok s ->
  reddit_reply sv (reply_target post (bool_decide ("parent" ∈ options))) s
  = Some e ->
  reply_failure_handling post skip_tracking
    (reply_target post (bool_decide ("parent" ∈ options))) s e w
    (process_post lib sv post plans verbatims arg true false skip_tracking
       ms w).
Proof.
  intros Hns Hnew Hf Hmi Hplan Hverb Hb Hs He.
  destruct (process_post_decided post plans verbatims arg true false
              skip_tracking ms w post_text options mi Hns Hnew Hf Hmi Hplan
              Hverb)
    as (names & rec & Hd & Hrun).
  cbv zeta in Hrun. rewrite Hb in Hrun.
  destruct Hrun as (s' & evs & ro & Hs' & Hro & Hrun).
  assert (s' = s) as -> by congruence.
  unfold reply_failure_handling.
  destruct (add_processed_keeps arg (post_id post) w) as [Hdb Hlog].
  set (w0 := (add_processed arg (post_id post) w).2) in *.
  set (to := reply_target post (bool_decide ("parent" ∈ options))) in *.
  destruct (decision_fields _ _ _ Hd) as (_ & _ & _ & Hsk & _).
  assert (Hreason : r_skip_reason rec = None).
  { destruct Hd as (p & v & _ & _ & Hc).
    apply create_db_record_fields in Hc. tauto. }
  rewrite Hrun. clear Hrun.
  inversion Hro as [Hsim|Hsim Hsend|Hsim Hsend Hr|Hsim Hsend Hr
                   |e' Hsim Hsend Hr Hne]; subst; try discriminate;
    try congruence.
  - assert (e = APIException "DELETED_COMMENT") as -> by congruence.
    change (is_deleted_comment (APIException "DELETED_COMMENT")) with true.
    cbv iota.
    exists (calls post_text ("match_verbatim" :: names)
            ++ (if skip_tracking then [] else [DbSet (post_id post) rec])
            ++ [ReplyAttempt to s; RedditReply to s]
            ++ (if skip_tracking then []
                else [DbUpdate (post_id post)
                        {| u_reply_type := built.1.2;
                           u_operation := built.2;
                           u_skipped := Some true;
                           u_skip_reason := Some "deleted_comment";
                           u_replied := Some false;
                           u_reply_timestamp := None |}])).
    split.
    { unfold updated, written. destruct skip_tracking; simpl; rewrite Hlog;
        rewrite <- ?app_assoc; simpl; by rewrite ?app_nil_r. }
    split.
    { rewrite !elem_of_app. right. right. left.
      apply elem_of_cons. right. by apply list_elem_of_singleton. }
    split; [reflexivity|].
    unfold updated, written. destruct skip_tracking; simpl; [exact Hdb|].
    eexists rec, _. rewrite lookup_insert_eq.
    split; [|by repeat split].
    rewrite app_comm_cons, last_app. reflexivity.
  - assert (e' = e) as -> by congruence.
    assert (is_deleted_comment e = false) as ->.
    { apply not_true_is_false. by rewrite is_deleted_comment_spec. }
    exists (calls post_text ("match_verbatim" :: names)
            ++ (if skip_tracking then [] else [DbSet (post_id post) rec])
            ++ [ReplyAttempt to s; RedditReply to s]).
    split.
    { unfold written. destruct skip_tracking; simpl; rewrite Hlog;
        by rewrite <- ?app_assoc. }
    split.
    { rewrite !elem_of_app. right. right.
      apply elem_of_cons. right. by apply list_elem_of_singleton. }
    split; [reflexivity|]. split.
    + intros i u Hu.
      apply elem_of_app in Hu as [Hu|Hu].
      { apply not_in_calls in Hu as (? & ? & [=]). }
      apply elem_of_app in Hu as [Hu|Hu].
      * destruct skip_tracking; [by apply elem_of_nil in Hu|].
        apply list_elem_of_singleton in Hu. discriminate.
      * apply elem_of_cons in Hu as [Hu|Hu%list_elem_of_singleton];
          discriminate.
    + unfold written. destruct skip_tracking; simpl; [exact Hdb|].
      exists rec. rewrite lookup_insert_eq. by repeat split.
Qed.

End Audit.

Section Trigger.
Import matching plan_bot.

Variable lib : Libraries.
Variable sv : Services.

Lemma findall_from_nil r s k :
  (forall j, Re.match_ r (Py.drop j s) = None) ->
  Re.findall_from r s k = [].
Proof.
  revert k; induction s as [|c s IH]; intros k H.
  - destruct k; [|reflexivity].
    pose proof (H 0) as H0. cbn [Py.drop] in H0.
    cbn [Re.findall_from]. by rewrite H0.
  - destruct k; cbn [Re.findall_from].
    + pose proof (H 0) as H0. cbn [Py.drop] in H0. rewrite H0.
      apply IH. intros j. apply (H (S j)).
    + apply IH. intros j. apply (H (S j)).
Qed.

Lemma trigger_match_None text i :
  (occurs_at trigger text i ->
   match String.get (i + String.length trigger) text with
   | None => True
   | Some c => Re.word c = true \/ c = "-"%char
   end) ->
  Re.match_ (re_trigger_line trigger) (Py.drop i text) = None.
Proof.
  intros H. unfold Re.match_, re_trigger_line. cbn [Re.run].
  destruct (Re.lit trigger (Py.drop i text)) as [rest|] eqn:E;
    [|reflexivity].
  apply lit_Some in E as [Ho ->]. specialize (H Ho).
  rewrite get_drop, <- drop_drop in H.
  destruct (Py.drop (String.length trigger) (Py.drop i text)) as [|c rest];
    [reflexivity|].
  unfold Re.not_hyphen_word.
  destruct H as [-> | ->]; [by rewrite orb_true_r|reflexivity].
Qed.

Lemma get_trigger_line_empty text :
  never_followed_by_separator text ->
  get_trigger_line text = EmptyString.
Proof.
  intros H. unfold get_trigger_line, get_trigger_line_with, Re.findall.
  fold trigger. rewrite findall_from_nil; [reflexivity|].
  intros j. apply trigger_match_None, H.
Qed.

(** C10.  When every occurrence of the trigger word is followed at once
    by a word character, a hyphen or the end of the text,
    [get_trigger_line] returns the empty string although the word is
    there; a post with such a text that passes the skip checks is
    therefore matched on the empty text. *)
Theorem trigger_without_separator_gives_empty_query post plans verbatims arg
  send simulate skip_tracking ms w :
  never_followed_by_separator (text post) ->
  get_trigger_line (text post) = EmptyString
  /\ (not_skipped post ->
      (arg = callers_set -> post_id post ∉ post_ids_processed w) ->
      matched_on_empty_text w
        (process_post lib sv post plans verbatims arg send simulate
           skip_tracking ms w)).
Proof.
  intros Hsep. pose proof (get_trigger_line_empty _ Hsep) as Hline.
  split; [exact Hline|]. intros Hns Hnew. unfold matched_on_empty_text.
  pose proof (process_post_not_skipped lib sv post plans verbatims arg send
                simulate skip_tracking ms w Hns Hnew) as H.
  destruct (process_post _ _ _ _ _ _ _ _ _ _ _) as [r w'].
  destruct (add_processed_keeps arg (post_id post) w) as [_ Hlog].
  set (w0 := (add_processed arg (post_id post) w).2) in *.
  assert (Hflags : process_flags EmptyString = Ok (EmptyString, ∅))
    by reflexivity.
  assert (Hsent : forall to s evs ro e,
            reply_outcome sv send simulate to s evs ro ->
            e ∈ evs -> ~ is_strategy_call e).
  { intros to s evs ro e Hro He (n & t & ->).
    inversion Hro; subst;
      first [by apply elem_of_nil in He
            | apply list_elem_of_singleton in He; discriminate]. }
  destruct H as [e Hf
                |post_text options names e Hf
                |post_text options names mi rec e Hf Hm Hd
                |post_text options names mi rec to s evs e Hf Hm Hd Hro
                |post_text options names mi rec to s evs did deleted u
                   Hf Hm Hd Hro Hu];
    rewrite Hline, Hflags in Hf; try discriminate;
    injection Hf as <- <-; exists names.
  - exists []. rewrite app_nil_r. split; [simpl; by rewrite Hlog|].
    intros e' He'. by apply elem_of_nil in He'.
  - exists (if skip_tracking then [] else [DbSet (post_id post) rec]).
    split.
    { unfold written. destruct skip_tracking; simpl; rewrite Hlog;
        by rewrite <- ?app_assoc, ?app_nil_r. }
    intros e' He' (n & t & ->).
    destruct skip_tracking; [by apply elem_of_nil in He'|].
    apply list_elem_of_singleton in He'. discriminate.
  - exists ((if skip_tracking then [] else [DbSet (post_id post) rec])
            ++ ReplyAttempt to s :: evs).
    split.
    { unfold written. destruct skip_tracking; simpl; rewrite Hlog;
        by rewrite <- ?app_assoc. }
    intros e' He'.
    apply elem_of_app in He' as [He'|He'].
    { intros (n & t & ->).
      destruct skip_tracking; [by apply elem_of_nil in He'|].
      apply list_elem_of_singleton in He'. discriminate. }
    apply elem_of_cons in He' as [->|He']; [intros (n & t & [=])|].
    eapply Hsent; eauto.
  - exists ((if skip_tracking then [] else [DbSet (post_id post) rec])
            ++ (ReplyAttempt to s :: evs)
            ++ (if skip_tracking then [] else [DbUpdate (post_id post) u])).
    split.
    { unfold updated, written. destruct skip_tracking; simpl; rewrite Hlog;
        rewrite <- ?app_assoc; simpl; by rewrite ?app_nil_r. }
    intros e' He'.
    apply elem_of_app in He' as [He'|He'].
    { intros (n & t & ->).
      destruct skip_tracking; [by apply elem_of_nil in He'|].
      apply list_elem_of_singleton in He'. discriminate. }
    apply elem_of_app in He' as [He'|He'].
    { apply elem_of_cons in He' as [->|He']; [intros (n & t & [=])|].
      eapply Hsent; eauto. }
    intros (n & t & ->).
    destruct skip_tracking; [by apply elem_of_nil in He'|].
    apply list_elem_of_singleton in He'. discriminate.
Qed.

(** C5, as amended.  For a post whose text lacks the trigger word no
    strategy is called and no reply is attempted, whichever skip check
    fires.  When the post is moreover not locked, has an author who is
    not the bot, and tracking is on, the run records it with skipped
    set and the skip reason "trigger_not_found". *)
Theorem no_trigger_is_skipped_before_matching post plans verbatims arg send
  simulate skip_tracking ms w :
  (forall i, ~ occurs_at trigger (text post) i) ->
  (arg = callers_set -> post_id post ∉ post_ids_processed w) ->
  skipped_without_matching post w
    (process_post lib sv post plans verbatims arg send simulate
       skip_tracking ms w)
  /\ (locked post = false ->
      (exists a, author post = Some a
                 /\ Py.contains "warrenplanbot" (Py.lower (name a)) = false) ->
      skip_tracking = false ->
      recorded_skip post "trigger_not_found" w
        (process_post lib sv post plans verbatims arg send simulate
           skip_tracking ms w)).
Proof.
  intros Hno Hnew. unfold skipped_without_matching, recorded_skip.
  assert (exists reason, skip_reason post reason) as [reason Hr].
  { destruct (skipped_or_not post) as [(_ & _ & i & Hi)|H]; [|exact H].
    by destruct (Hno i). }
  rewrite (process_post_skipped lib sv _ _ _ _ _ _ _ _ _ reason Hr Hnew).
  destruct (add_processed_keeps arg (post_id post) w) as [Hdb Hlog].
  set (w0 := (add_processed arg (post_id post) w).2) in *.
  destruct (create_db_record _ _ _ _ _ _ _ _ _ _) as [rec|e] eqn:Hc.
  - apply create_db_record_fields in Hc
      as (Hp & Hrm & Hsk & Hsr & _).
    split.
    + exists (if skip_tracking then [] else [DbSet (post_id post) rec]).
      unfold written. destruct skip_tracking; simpl; rewrite Hlog.
      * split; [by rewrite app_nil_r|].
        intros e He. by apply elem_of_nil in He.
      * split; [reflexivity|].
        intros e ->%list_elem_of_singleton. eauto.
    + intros Hl (a & Ha & Hown) ->. exists rec.
      unfold written; simpl. rewrite Hlog, Hdb.
      repeat split; auto.
      rewrite Hsr. f_equal.
      destruct Hr; congruence.
  - split.
    + exists []. rewrite app_nil_r. split; [done|].
      intros e' He'. by apply elem_of_nil in He'.
    + intros Hl (a & Ha & Hown) ->.
      destruct (create_db_record_Ok post a None None None None None
                  false true true (Some reason) Ha) as [rec Hrec].
      congruence.
Qed.

End Trigger.

Section Idempotence.
Import matching plan_bot.

(** C4.  Within one run, that is with the caller's set of processed ids,
    a second call of [process_post] for the same post id does nothing:
    it returns at once and the set, the audit store and the log of
    writes and replies are what the first call left. *)
Theorem second_invocation_is_noop lib sv post plans verbatims send simulate
  skip_tracking ms lib' sv' post' plans' verbatims' send' simulate'
  skip_tracking' ms' w :
  post_id post' = post_id post ->
  let w1 :=
    (process_post lib sv post plans verbatims callers_set send simulate
       skip_tracking ms w).2 in
  process_post lib' sv' post' plans' verbatims' callers_set send' simulate'
    skip_tracking' ms' w1 = (Ok tt, w1).
Proof.
  intros Hid w1. apply process_post_seen. rewrite Hid.
  apply process_post_marks.
Qed.
End Idempotence.

(** ** The semantic matching engine *)

Section Ranking.
Import matching.


Lemma Qgtb_lt a b : Qgtb a b = true <-> (b < a)%Q.
Proof.
  unfold Qgtb. rewrite negb_true_iff, <- not_true_iff_false, Qle_bool_iff.
  split; [apply Qnot_le_lt | apply Qlt_not_le].
Qed.

Lemma key_le (x y : nat * Q) :
  Qle_bool (by_descending_score x) (by_descending_score y) = true
  <-> (y.2 <= x.2)%Q.
Proof.
  unfold by_descending_score. rewrite Qle_bool_iff. split.
  - intros H. apply Qopp_le_compat in H. by rewrite !Qopp_involutive in H.
  - apply Qopp_le_compat.
Qed.

Lemma elem_of_insert_by {A} (key : A -> Q) x l z :
  z ∈ insert_by key x l <-> z = x \/ z ∈ l.
Proof.
  induction l as [|y l IH]; simpl.
  - rewrite list_elem_of_singleton, elem_of_nil. tauto.
  - destruct (Qle_bool (key x) (key y)); rewrite !elem_of_cons, ?IH; tauto.
Qed.

Lemma elem_of_sorted {A} (key : A -> Q) l z :
  z ∈ sorted key l <-> z ∈ l.
Proof.
  induction l as [|y l IH]; simpl; [tauto|].
  rewrite elem_of_insert_by, elem_of_cons, IH. tauto.
Qed.

Lemma elem_of_enumerate_from {A} n (l : list A) i x :
  (i, x) ∈ enumerate_from n l -> n <= i /\ l !! (i - n) = Some x.
Proof.
  revert n; induction l as [|y l IH]; intros n; simpl.
  - by intros ?%elem_of_nil.
  - intros [[= -> ->]|H]%elem_of_cons.
    + by rewrite Nat.sub_diag.
    + apply IH in H as [Hle Hl]. split; [lia|].
      replace (i - n) with (S (i - S n)) by lia. exact Hl.
Qed.

Lemma ranks_before_head (x y z : nat * Q) :
  (y.2 <= x.2)%Q -> x.1 < y.1 -> x.1 < z.1 -> ranks_before y z ->
  ranks_before x y /\ ranks_before x z.
Proof.
  unfold ranks_before. intros Hyx Hxy Hxz Hyz. split.
  - apply Qle_lt_or_eq in Hyx as [?|?]; auto.
  - assert (z.2 <= x.2)%Q as Hzx.
    { destruct Hyz as [H|[H _]].
      + apply Qlt_le_weak in H. by eapply Qle_trans.
      + rewrite H. done. }
    apply Qle_lt_or_eq in Hzx as [?|?]; auto.
Qed.

Lemma insert_by_ranked x l :
  StronglySorted ranks_before l ->
  (forall y, y ∈ l -> x.1 < y.1) ->
  StronglySorted ranks_before (insert_by by_descending_score x l).
Proof.
  induction 1 as [|y l Hl IH Hy]; intros Hx; simpl.
  - repeat constructor.
  - destruct (Qle_bool _ _) eqn:E.
    + apply key_le in E. constructor; [by constructor|].
      assert (ranks_before x y) as Hxy.
      { unfold ranks_before.
        pose proof (Hx y ltac:(apply elem_of_cons; by left)).
        apply Qle_lt_or_eq in E as [?|?]; auto. }
      constructor; [exact Hxy|].
      apply Forall_forall. intros z Hz.
      rewrite Forall_forall in Hy.
      eapply (ranks_before_head x y z); [exact E| | |].
      * apply Hx. rewrite elem_of_cons. by left.
      * apply Hx. rewrite elem_of_cons. by right.
      * by apply Hy.
    + constructor.
      * apply IH. intros z Hz. apply Hx. rewrite elem_of_cons. by right.
      * apply Forall_forall. intros z Hz.
        apply elem_of_insert_by in Hz as [->|Hz].
        -- left. apply Qnot_le_lt. intros Hle.
           apply key_le in Hle. congruence.
        -- rewrite Forall_forall in Hy. by apply Hy.
Qed.

Lemma sorted_enumerate_ranked n (sims : list Q) :
  StronglySorted ranks_before
    (sorted by_descending_score (enumerate_from n sims)).
Proof.
  revert n; induction sims as [|s sims IH]; intros n; simpl.
  - constructor.
  - apply insert_by_ranked; [apply IH|].
    intros [i t] Hy%elem_of_sorted%elem_of_enumerate_from. simpl. lia.
Qed.

Lemma StronglySorted_sublist_of {A} (R : A -> A -> Prop) l l' :
  StronglySorted R l -> l' `sublist_of` l -> StronglySorted R l'.
Proof.
  intros Hs Hsub. induction Hsub as [|x l1 l2 Hsub IH|x l1 l2 Hsub IH].
  - constructor.
  - apply StronglySorted_inv in Hs as [Hs Hx]. constructor; [auto|].
    rewrite Forall_forall in *. intros z Hz. apply Hx.
    eapply elem_of_sublist; eauto.
  - apply StronglySorted_inv in Hs as [Hs _]. auto.
Qed.

Lemma Forall2_sublist_of {A B} (P : A -> B -> Prop) l k l' :
  Forall2 P l k -> l' `sublist_of` l ->
  exists k', k' `sublist_of` k /\ Forall2 P l' k'.
Proof.
  intros HF Hsub. revert k HF.
  induction Hsub as [|x l1 l2 Hsub IH|x l1 l2 Hsub IH]; intros k HF.
  - exists []. split; [apply sublist_nil_l|constructor].
  - inversion HF as [|? y ? k0 Hxy HF0]; subst.
    destruct (IH _ HF0) as (k' & Hk' & HF').
    exists (y :: k'). split; [by constructor|by constructor].
  - inversion HF as [|? y ? k0 Hxy HF0]; subst.
    destruct (IH _ HF0) as (k' & Hk' & HF').
    exists k'. split; [by constructor|done].
Qed.

Lemma filter_sublist_of {A} (f : A -> bool) l :
  List.filter f l `sublist_of` l.
Proof.
  induction l as [|x l IH]; simpl; [constructor|].
  destruct (f x); by constructor.
Qed.

Lemma dedupe_sublist_of seen l : dedupe seen l `sublist_of` l.
Proof.
  revert seen; induction l as [|x l IH]; intros seen; simpl; [constructor|].
  destruct (bool_decide _); by constructor.
Qed.

Lemma dedupe_fresh seen l x :
  x ∈ dedupe seen l -> pm_plan_id x ∉ seen.
Proof.
  revert seen; induction l as [|y l IH]; intros seen; simpl.
  - by intros ?%elem_of_nil.
  - destruct (bool_decide _) eqn:E; [apply IH|].
    apply bool_decide_eq_false in E.
    intros [->|H]%elem_of_cons; [done|].
    apply IH in H. set_solver.
Qed.

Lemma dedupe_NoDup seen l : NoDup (pm_plan_id <$> dedupe seen l).
Proof.
  revert seen; induction l as [|y l IH]; intros seen; simpl.
  - constructor.
  - destruct (bool_decide _); [apply IH|].
    rewrite fmap_cons. constructor; [|apply IH].
    intros (z & Hid & Hz%dedupe_fresh)%list_elem_of_fmap.
    rewrite <- Hid in Hz. set_solver.
Qed.

Lemma rmap_Forall2 {A B} (f : A -> result B) l r :
  rmap f l = Ok r -> Forall2 (fun y x => f x = Ok y) r l.
Proof.
  revert r; induction l as [|x l IH]; intros r; simpl.
  - intros [= <-]. constructor.
  - destruct (f x) as [y|] eqn:E; [|discriminate]. simpl.
    destruct (rmap f l) as [ys|]; [|discriminate]. simpl.
    intros [= <-]. constructor; auto.
Qed.

Lemma Forall2_impl_elem {A B} (P Q : A -> B -> Prop) l k :
  Forall2 P l k ->
  (forall x y, y ∈ k -> P x y -> Q x y) ->
  Forall2 Q l k.
Proof.
  induction 1 as [|x y l k Hxy HF IH]; intros H; constructor.
  - apply H; [apply elem_of_cons; by left|done].
  - apply IH. intros x' y' Hy'. apply H, elem_of_cons. by right.
Qed.

Lemma StronglySorted_Forall2 {A B} (P : A -> B -> Prop)
  (R : B -> B -> Prop) (R' : A -> A -> Prop) l k :
  Forall2 P l k -> StronglySorted R k ->
  (forall a b p q, P a p -> P b q -> R p q -> R' a b) ->
  StronglySorted R' l.
Proof.
  intros HF Hs Himp. induction HF as [|x y l k Hxy HF IH].
  - constructor.
  - apply StronglySorted_inv in Hs as [Hs Hy]. constructor; [auto|].
    clear IH Hs. induction HF as [|x' y' l k Hxy' HF IH]; constructor.
    + inversion Hy; subst. eauto.
    + apply IH. by inversion Hy.
Qed.

Lemma Forall_filter_true {A} (f : A -> bool) l :
  Forall (fun x => f x = true) (List.filter f l).
Proof.
  induction l as [|x l IH]; simpl; [constructor|].
  destruct (f x) eqn:E; [by constructor|done].
Qed.

Lemma rmap_Ok {A B} (f : A -> result B) l :
  (forall x, x ∈ l -> exists y, f x = Ok y) -> exists r, rmap f l = Ok r.
Proof.
  induction l as [|x l IH]; intros H; simpl; [eauto|].
  destruct (H x) as [y ->]; [apply elem_of_cons; by left|].
  destruct IH as [r ->]; [|simpl; eauto].
  intros z Hz. apply H, elem_of_cons. by right.
Qed.

End Ranking.

Section Engine.
Import matching.

Variable lib : Libraries.
Variables (plans : list Plan) (post_text model_name : string).
Variables (model : model_kind) (similarity : similarity_kind).
Variables (threshold potential_plan_threshold : Q) (model_path : string).
Variable preprocess : string -> list string.

Let models := _load_gensim_models lib model_name model similarity model_path.
Let sims := similarities models (preprocess post_text).

(** C2 (the code raises).  When the similarity query yields no score at
    all, [_gensim_similarity] indexes the empty list of candidates and
    raises IndexError; it returns no result with an empty list of
    potential matches. *)
Theorem no_candidates_raises :
  sims = [] ->
  _gensim_similarity lib plans post_text model_name model similarity
    threshold potential_plan_threshold model_path preprocess
  = Raise IndexError.
Proof.
  unfold _gensim_similarity. fold models. fold sims. by intros ->.
Qed.

(** The lexical strategy, for comparison: on an empty corpus it returns
    a result without a match. *)
Lemma token_sort_ratio_empty_corpus text (th : Q) :
  (0 <= th)%Q ->
  token_sort_ratio lib th [] text
  = Ok (Some {| mi_match := PyNone;
                mi_operation := Absent;
                mi_confidence := Val (inject_Z 0);
                mi_plan := PyNone;
                mi_potential_matches := Absent;
                mi_verbatim := Absent |}).
Proof.
  intros Hth. unfold token_sort_ratio. simpl.
  assert (Qgtb (inject_Z 0) th = false) as ->; [|reflexivity].
  unfold Qgtb. apply negb_false_iff, Qle_bool_iff. exact Hth.
Qed.

Lemma gensim_similarity_returns :
  sims <> [] -> length sims <= length (plan_ids models) ->
  exists mi,
    _gensim_similarity lib plans post_text model_name model similarity
      threshold potential_plan_threshold model_path preprocess
    = Ok (Some mi).
Proof.
  intros Hne Hlen. unfold _gensim_similarity. fold models. fold sims.
  destruct (rmap_Ok (potential_match_of (plan_ids models) plans)
              (sorted (fun item => (- item.2)%Q) (enumerate sims)))
    as [pms Hpms].
  { intros [i s] [_ Hi]%elem_of_sorted%elem_of_enumerate_from.
    unfold potential_match_of. simpl.
    apply lookup_lt_Some in Hi.
    destruct (lookup_lt_is_Some_2 (plan_ids models) i) as [pid ->];
      [lia|eauto]. }
  rewrite Hpms. simpl.
  destruct pms as [|best pms].
  - apply rmap_Forall2, Forall2_nil_inv_l in Hpms. exfalso.
    destruct sims as [|s l]; [done|].
    assert ((0, s) ∈ sorted (fun item : nat * Q => (- item.2)%Q)
                       (enumerate (s :: l))) as Habs.
    { apply elem_of_sorted. unfold enumerate. simpl.
      apply elem_of_cons. by left. }
    rewrite Hpms in Habs. by apply elem_of_nil in Habs.
  - simpl. rewrite bool_decide_eq_false_2 by set_solver. eauto.
Qed.

(** C6.  In every result of [_gensim_similarity] the list of potential
    matches has no two entries with the same plan id, is sorted by
    confidence from high to low, with entries of equal score in corpus
    order, and holds only entries whose confidence is above the
    potential-match threshold. *)
Theorem potential_matches_ranked mi :
  _gensim_similarity lib plans post_text model_name model similarity
    threshold potential_plan_threshold model_path preprocess
  = Ok (Some mi) ->
  ranked_potential_matches sims (plan_ids models) potential_plan_threshold
    mi.
Proof.
  unfold ranked_potential_matches, _gensim_similarity.
  fold models. fold sims.
  destruct (rmap _ _) as [pms|] eqn:Hpms; [|discriminate]. simpl.
  intros Hmi.
  pose (l := List.filter
               (fun m => Qgtb (pm_confidence m) potential_plan_threshold)
               (dedupe ∅ pms)).
  assert (Hl : mi_potential_matches mi = Val l).
  { unfold l. destruct (dedupe ∅ pms) as [|best rest]; [discriminate|].
    injection Hmi as <-. reflexivity. }
  clear Hmi.
  assert (Hsub : l `sublist_of` pms).
  { etrans; [apply filter_sublist_of|apply dedupe_sublist_of]. }
  apply rmap_Forall2 in Hpms.
  destruct (Forall2_sublist_of _ _ _ _ Hpms Hsub) as (ranked & Hr & HF).
  pose proof (sorted_enumerate_ranked 0 sims) as Hsorted.
  fold (enumerate sims) in Hsorted.
  assert (Hranked : StronglySorted ranks_before ranked)
    by (eapply StronglySorted_sublist_of; eauto).
  assert (HF' : Forall2 (fun m (p : nat * Q) =>
                  sims !! p.1 = Some p.2
                  /\ plan_ids models !! p.1 = Some (pm_plan_id m)
                  /\ pm_confidence m = (p.2 * 100)%Q) l ranked).
  { eapply Forall2_impl_elem; [exact HF|].
    intros m [i s] Hp Hm.
    assert ((i, s) ∈ enumerate sims) as [_ Hi]%elem_of_enumerate_from.
    { eapply elem_of_sorted, elem_of_sublist; eauto. }
    rewrite Nat.sub_0_r in Hi.
    unfold potential_match_of in Hm. simpl in *.
    destruct (plan_ids models !! i); [|discriminate].
    injection Hm as <-. auto. }
  exists l, ranked. split; [exact Hl|]. repeat split; auto.
  - eapply sublist_NoDup; [apply (dedupe_NoDup ∅ pms)|].
    apply fmap_sublist, filter_sublist_of.
  - eapply StronglySorted_Forall2; [exact HF'|exact Hranked|].
    intros a b [i s] [j t] (_ & _ & ->) (_ & _ & ->) Hord. simpl in *.
    assert (t <= s)%Q as Hts.
    { destruct Hord as [H|[H _]]; simpl in H;
        [by apply Qlt_le_weak|rewrite H; apply Qle_refl]. }
    apply Qmult_le_compat_r; [exact Hts|done].
  - eapply Forall_impl; [apply Forall_filter_true|].
    intros m Hm. by apply Qgtb_lt.
Qed.
End Engine.

(** ** Flags *)

Section Flags.
Import matching plan_bot.


Lemma parse_optional_unknown tok e :
  _parse_optional tok = Ok (Some (None, e)) -> e = None.
Proof.
  unfold _parse_optional.
  repeat case_match; try congruence.
Qed.

Lemma arg_patterns_length toks pats :
  arg_patterns toks = Ok pats -> length pats = length toks.
Proof.
  revert pats; induction toks as [|tok toks IH]; intros pats; simpl.
  - by intros [= <-].
  - destruct (String.eqb tok "--").
    + intros [= <-]. simpl. by rewrite length_map.
    + destruct (_parse_optional tok); [|discriminate]. simpl.
      destruct (arg_patterns toks); [|discriminate]. simpl.
      intros [= <-]. simpl. f_equal. by apply IH.
Qed.

Lemma fst_zip_all {A B} (l : list A) (k : list B) :
  length k = length l -> (zip l k).*1 = l.
Proof. intros H. apply fst_zip. lia. Qed.

Lemma consume_leading toks pats ns extras ns' extras' :
  arg_patterns toks = Ok pats ->
  consume (zip toks pats) ns extras = Ok (ns', extras') ->
  exists leading,
    toks = leading ++ rest ns'
    /\ Forall option_string leading
    /\ match rest ns' with [] => True | tok :: _ => ends_options tok end
    /\ forall f, flag_of f ns' = true
                 <-> flag_of f ns = true
                     \/ exists tok, tok ∈ leading /\ names_flag tok f.
Proof.
  revert pats ns extras; induction toks as [|tok toks IH];
    intros pats ns extras Hp Hc.
  - injection Hp as <-. injection Hc as <- <-. exists []. simpl.
    repeat split; auto. intros [?|(? & []%elem_of_nil & _)]; done.
  - simpl in Hp. destruct (String.eqb_spec tok "--") as [->|Hne].
    { injection Hp as <-. simpl in Hc. injection Hc as <- <-.
      exists []. simpl. rewrite fst_zip_all by by rewrite length_map.
      repeat split; auto; [by left|].
      intros [?|(? & []%elem_of_nil & _)]; done. }
    destruct (_parse_optional tok) as [t|] eqn:Ht; [|discriminate].
    simpl in Hp.
    destruct (arg_patterns toks) as [ps|] eqn:Hps; [|discriminate].
    simpl in Hp. injection Hp as <-.
    destruct t as [[action explicit]|]; simpl in Hc.
    2:{ injection Hc as <- <-. exists []. simpl.
        rewrite fst_zip_all by by apply arg_patterns_length.
        repeat split; auto; [by right|].
        intros [?|(? & []%elem_of_nil & _)]; done. }
    destruct action as [a|].
    + destruct explicit; [discriminate|].
      destruct (IH _ _ _ eq_refl Hc) as (leading & Htoks & HF & Hend & Hflags).
      exists (tok :: leading). simpl. split; [by f_equal|].
      split; [constructor; [split; eauto|done]|]. split; [done|].
      intros f. rewrite Hflags. split.
      * intros [H|(t' & Ht' & Hn)].
        -- destruct f, a; simpl in H;
             first [by left
                   | right; exists tok;
                     split; [apply elem_of_cons; by left|done]].
        -- right. exists t'. split; [apply elem_of_cons; by right|done].
      * intros [H|(t' & [->|Ht']%elem_of_cons & Hn)].
        -- left. by destruct f, a.
        -- left. unfold names_flag in Hn. rewrite Ht in Hn.
           injection Hn as ->. by destruct f.
        -- right. eauto.
    + apply parse_optional_unknown in Ht as Hex. subst explicit.
      destruct (IH _ _ _ eq_refl Hc) as (leading & Htoks & HF & Hend & Hflags).
      exists (tok :: leading). simpl. split; [by f_equal|].
      split; [constructor; [split; eauto|done]|]. split; [done|].
      intros f. rewrite Hflags. split.
      * intros [H|(t' & Ht' & Hn)]; [by left|].
        right. exists t'. split; [apply elem_of_cons; by right|done].
      * intros [H|(t' & [->|Ht']%elem_of_cons & Hn)]; [by left| |eauto].
        unfold names_flag in Hn. congruence.
Qed.


(** Every alias names its flag, and a word that does not begin with a
    hyphen ends the options. *)
Lemma alias_names_flag tok f :
  (tok, f) ∈ option_string_actions -> names_flag tok f.
Proof.
  unfold option_string_actions. rewrite !elem_of_cons, elem_of_nil.
  intros [H|[H|[H|[H|[H|[H|[]]]]]]]; injection H as -> ->; reflexivity.
Qed.

Lemma word_ends_options c tok :
  c <> "-"%char -> ends_options (String c tok).
Proof.
  intros Hc. right. unfold _parse_optional.
  destruct (Ascii.eqb_spec c "-"); [done|reflexivity].
Qed.


End Flags.

(** ** The exact-title rule *)

Section Title.
Import matching plan_bot.

Variable lib : Libraries.

Lemma find_first {A} (f : A -> bool) before p after :
  f p = true -> (forall q, q ∈ before -> f q = false) ->
  List.find f (before ++ p :: after) = Some p.
Proof.
  intros Hp. induction before as [|q before IH]; intros Hb; simpl.
  - by rewrite Hp.
  - rewrite (Hb q) by (apply elem_of_cons; by left).
    apply IH. intros q' Hq'. apply Hb, elem_of_cons. by right.
Qed.

(** C7, as amended.  When none of the three earlier rules returns a
    result and the normalized text equals the normalized display title
    of a plan, the composite strategy returns the first such plan of the
    corpus as the match, with confidence 100, whatever the statistical
    strategy is; the statistical strategy is not called. *)
Theorem exact_title_wins_after_the_earlier_rules plans verbatims post_text
  options (matching_strategy : strategy) (w : World) before p after :
  match_verbatim verbatims post_text options = None ->
  request_plan_list plans post_text = None ->
  request_state_of_race plans post_text ∅ = None ->
  plans = before ++ p :: after ->
  preprocess_gensim_v1 lib (display_title p)
  = preprocess_gensim_v1 lib post_text ->
  (forall q, q ∈ before ->
     preprocess_gensim_v1 lib (display_title q)
     <> preprocess_gensim_v1 lib post_text) ->
  match_info_of lib plans verbatims post_text options matching_strategy w
  = (Ok (Some {| mi_match := Val (id p);
                 mi_operation := Absent;
                 mi_confidence := Val 100%Q;
                 mi_plan := Val p;
                 mi_potential_matches := Absent;
                 mi_verbatim := Absent |}),
     add_log w
       (calls post_text
          ["match_verbatim"; "request_plan_list"; "request_state_of_race";
           "match_display_title"])).
Proof.
  intros Hv Hl Hs -> Hp Hb. unfold match_info_of.
  rewrite Hv, Hl, Hs.
  do 3 (erewrite or_miss by apply call_run).
  assert (Ht : match_display_title lib (before ++ p :: after) post_text
               = Some {| mi_match := Val (id p);
                         mi_operation := Absent;
                         mi_confidence := Val 100%Q;
                         mi_plan := Val p;
                         mi_potential_matches := Absent;
                         mi_verbatim := Absent |}).
  { unfold match_display_title.
    rewrite (find_first _ before p after); [reflexivity| |].
    - by apply bool_decide_eq_true.
    - intros q Hq. apply bool_decide_eq_false. by apply Hb. }
  erewrite or_hit; [|rewrite call_run, Ht; reflexivity|reflexivity].
  by rewrite !add_log_add_log.
Qed.

End Title.

(** ** Strings *)

Section Strings.

Lemma str_cons c (s t : string) :
  (String c s ++ t)%string = String c (s ++ t)%string.
Proof. reflexivity. Qed.

Lemma str_app_nil_r (s : string) : (s ++ EmptyString)%string = s.
Proof. induction s as [|c s IH]; [done|]. by rewrite str_cons, IH. Qed.

Lemma str_app_assoc (a b c : string) :
  ((a ++ b) ++ c)%string = (a ++ (b ++ c))%string.
Proof. induction a as [|x a IH]; [done|]. by rewrite !str_cons, IH. Qed.

Lemma all_chars_app p a b :
  all_chars p (a ++ b)%string = all_chars p a && all_chars p b.
Proof.
  induction a as [|c a IH]; [reflexivity|].
  rewrite str_cons. simpl. by rewrite IH, andb_assoc.
Qed.

Lemma lower_app a b :
  Py.lower (a ++ b)%string = (Py.lower a ++ Py.lower b)%string.
Proof.
  induction a as [|c a IH]; [reflexivity|].
  rewrite str_cons. simpl. by rewrite IH.
Qed.

Lemma str_take_drop n s : (Py.take n s ++ Py.drop n s)%string = s.
Proof.
  revert s; induction n as [|n IH]; intros [|c s]; try reflexivity.
  cbn [Py.take Py.drop]. by rewrite str_cons, IH.
Qed.

Lemma str_take_app (a b : string) : Py.take (String.length a) (a ++ b) = a.
Proof.
  induction a as [|c a IH]; [by destruct b|].
  rewrite str_cons. simpl. by rewrite IH.
Qed.

Lemma str_drop_app (a b : string) : Py.drop (String.length a) (a ++ b) = b.
Proof. induction a as [|c a IH]; [reflexivity|]. by rewrite str_cons. Qed.

Lemma str_length_app (a b : string) :
  String.length (a ++ b) = String.length a + String.length b.
Proof.
  induction a as [|c a IH]; [reflexivity|].
  rewrite str_cons. simpl. by rewrite IH.
Qed.

Lemma str_app_inv (a b x y : string) :
  (a ++ x)%string = (b ++ y)%string -> String.length a = String.length b ->
  a = b /\ x = y.
Proof.
  revert b; induction a as [|c a IH]; intros [|d b] H Hlen;
    try discriminate Hlen.
  - by split.
  - rewrite !str_cons in H. injection H as -> H.
    injection Hlen as Hlen. destruct (IH b H Hlen) as [-> ->]. by split.
Qed.

Lemma lower_take n s : Py.lower (Py.take n s) = Py.take n (Py.lower s).
Proof.
  revert s; induction n as [|n IH]; intros [|c s]; try reflexivity.
  simpl. by rewrite IH.
Qed.

Lemma lower_drop n s : Py.lower (Py.drop n s) = Py.drop n (Py.lower s).
Proof.
  revert s; induction n as [|n IH]; intros [|c s]; try reflexivity.
  simpl. by rewrite IH.
Qed.

Lemma all_chars_impl (p q : ascii -> bool) s :
  (forall c, p c = true -> q c = true) ->
  all_chars p s = true -> all_chars q s = true.
Proof.
  intros Hpq. induction s as [|c s IH]; [done|]. cbn [all_chars].
  intros [Hc Hs]%andb_true_iff. by rewrite (Hpq c Hc), IH.
Qed.

End Strings.

(** ** Words, stop words and pairs of words *)

Section Words.
Import matching.

Lemma split_from_app cur w s :
  all_chars (fun c => negb (Py.isspace c)) w = true ->
  Py.split_from cur (w ++ s)%string = Py.split_from (cur ++ w)%string s.
Proof.
  revert cur; induction w as [|c w IH]; intros cur H.
  - by rewrite str_app_nil_r.
  - simpl in H. apply andb_true_iff in H as [Hc Hw].
    apply negb_true_iff in Hc.
    rewrite str_cons. cbn [Py.split_from].
    rewrite Hc, IH by exact Hw. by rewrite str_app_assoc.
Qed.

Lemma split_from_words cur s :
  all_chars (fun c => negb (Py.isspace c)) cur = true ->
  Forall is_word (Py.split_from cur s).
Proof.
  revert cur; induction s as [|c s IH]; intros cur Hcur; simpl.
  - destruct cur; [constructor|]. repeat constructor; [done|exact Hcur].
  - destruct (Py.isspace c) eqn:Hc.
    + destruct cur; [by apply IH|].
      constructor; [split; [done|exact Hcur]|by apply IH].
    + apply IH. rewrite all_chars_app, Hcur. simpl. by rewrite Hc.
Qed.

Lemma split_words s : Forall is_word (Py.split s).
Proof. by apply split_from_words. Qed.

Lemma split_join l :
  Forall is_word l -> Py.split (Py.join " " l) = l.
Proof.
  unfold Py.split, Py.join.
  induction 1 as [|x l [Hx Hsp] Hl IH]; [reflexivity|].
  destruct l as [|y l].
  - simpl. rewrite <- (str_app_nil_r x) at 1.
    rewrite split_from_app by exact Hsp. simpl.
    destruct x; [done|reflexivity].
  - change (String.concat " " (x :: y :: l))
      with (x ++ " " ++ String.concat " " (y :: l))%string.
    rewrite split_from_app by exact Hsp.
    set (tl := String.concat " " (y :: l)) in *.
    change (Py.split_from (EmptyString ++ x) (" " ++ tl))
      with (match x with
            | EmptyString => Py.split_from EmptyString tl
            | _ => x :: Py.split_from EmptyString tl
            end).
    rewrite IH. by destruct x.
Qed.

Lemma Forall_list_filter {A} (P : A -> Prop) (f : A -> bool) l :
  Forall P l -> Forall P (List.filter f l).
Proof.
  induction 1 as [|x l Hx Hl IH]; simpl; [constructor|].
  destruct (f x); [by constructor|done].
Qed.

Lemma list_filter_idemp {A} (f : A -> bool) l :
  List.filter f (List.filter f l) = List.filter f l.
Proof.
  induction l as [|x l IH]; simpl; [done|].
  destruct (f x) eqn:E; simpl; [by rewrite E, IH|done].
Qed.

(** X1.  The words of what [_remove_stopwords] returns are the words of
    the text that are not stop words when put in lower case, in their
    order; removing the stop words a second time changes nothing. *)
Theorem remove_stopwords_keeps_the_other_words (stopwords : gset string) s :
  Py.split (_remove_stopwords stopwords s)
  = List.filter (fun w => negb (bool_decide (Py.lower w ∈ stopwords)))
      (Py.split s)
  /\ _remove_stopwords stopwords (_remove_stopwords stopwords s)
     = _remove_stopwords stopwords s.
Proof.
  assert (H : Py.split (_remove_stopwords stopwords s)
              = List.filter
                  (fun w => negb (bool_decide (Py.lower w ∈ stopwords)))
                  (Py.split s)).
  { unfold _remove_stopwords.
    apply split_join, Forall_list_filter, split_words. }
  split; [exact H|].
  unfold _remove_stopwords at 1. rewrite H, list_filter_idemp. reflexivity.
Qed.

Lemma bigrams_length l : length (bigrams l) = length l - 1.
Proof.
  induction l as [|a [|b l] IH]; [done|done|].
  cbn [bigrams length] in *. lia.
Qed.

Lemma bigrams_lookup l i a b :
  l !! i = Some a -> l !! S i = Some b ->
  bigrams l !! i = Some (a ++ " " ++ b)%string.
Proof.
  revert i; induction l as [|x [|y l] IH]; intros i; [done|by destruct i|].
  destruct i as [|i].
  - by intros [= ->] [= ->].
  - intros Ha Hb. apply (IH i Ha Hb).
Qed.

(** X2.  The tokens of [preprocess_gensim_v3] are the words of
    [preprocess_gensim_v1] followed by one token for every pair of
    neighbouring words, the two words joined by a blank: 2n - 1 tokens
    for n words, and none for no word. *)
Theorem v3_tokens_are_words_then_pairs lib doc :
  let words := preprocess_gensim_v1 lib doc in
  let tokens := preprocess_gensim_v3 lib doc in
  length tokens = 2 * length words - 1
  /\ (forall i, i < length words -> tokens !! i = words !! i)
  /\ (forall i a b,
        words !! i = Some a -> words !! S i = Some b ->
        tokens !! (length words + i) = Some (a ++ " " ++ b)%string).
Proof.
  intros words tokens. subst tokens. unfold preprocess_gensim_v3.
  fold words. split; [|split].
  - rewrite length_app, bigrams_length. lia.
  - intros i Hi. by apply lookup_app_l.
  - intros i a b Ha Hb. rewrite lookup_app_r by lia.
    replace (length words + i - length words) with i by lia.
    by apply bigrams_lookup.
Qed.

End Words.

(** ** Strategy.token_sort_ratio *)

Section Lexical.
Import matching.

Variable lib : Libraries.
Variable post_text : string.

(** The loop of [token_sort_ratio] from a confidence [c0] and a match
    [m0]: it keeps them when no plan scores above [c0], and otherwise
    ends with the first plan that has the highest score. *)
Lemma best_so_far plans (c0 : Z) (m0 : option Plan) :
  let '(c, m) :=
    fold_left
      (fun '(match_confidence, match_) plan =>
         let plan_match_confidence :=
           fuzz_token_sort_ratio lib (Py.lower post_text)
             (Py.lower (topic plan)) in
         if (match_confidence <? plan_match_confidence)%Z
         then (plan_match_confidence, Some plan)
         else (match_confidence, match_))
      plans (c0, m0) in
  (c = c0 /\ m = m0
   /\ Forall (fun p => (topic_score lib post_text p <= c0)%Z) plans)
  \/ exists before p after,
       plans = before ++ p :: after
       /\ (c0 < topic_score lib post_text p)%Z
       /\ c = topic_score lib post_text p /\ m = Some p
       /\ Forall (fun q => (topic_score lib post_text q
                            < topic_score lib post_text p)%Z) before
       /\ Forall (fun q => (topic_score lib post_text q
                            <= topic_score lib post_text p)%Z) after.
Proof.
  revert c0 m0; induction plans as [|x l IH]; intros c0 m0.
  { left. by repeat split. }
  cbn [fold_left]. fold (topic_score lib post_text x).
  destruct (Z.ltb_spec c0 (topic_score lib post_text x)) as [Hlt|Hge].
  - specialize (IH (topic_score lib post_text x) (Some x)).
    destruct (fold_left _ l (topic_score lib post_text x, Some x)) as [c m].
    destruct IH as [(-> & -> & Hall)
                   |(before & p & after & -> & Hp & -> & -> & Hb & Ha)].
    + right. exists [], x, l. by repeat split.
    + right. exists (x :: before), p, after.
      split; [done|]. split; [lia|]. split; [done|]. split; [done|].
      split; [by constructor|done].
  - specialize (IH c0 m0).
    destruct (fold_left _ l (c0, m0)) as [c m].
    destruct IH as [(-> & -> & Hall)
                   |(before & p & after & -> & Hp & -> & -> & Hb & Ha)].
    + left. repeat split; auto.
    + right. exists (x :: before), p, after.
      split; [done|]. split; [done|]. split; [done|]. split; [done|].
      split; [constructor; [lia|done]|done].
Qed.

(** X3.  With a threshold that is not negative [token_sort_ratio]
    returns a result for every corpus. When no plan scores above 0 the
    confidence is 0 and the plan and the match are [None]; otherwise the
    plan is the first plan of the corpus with the highest score, the
    confidence is that score, and the match is the id of that plan
    exactly when the score is above the threshold. *)
Theorem token_sort_ratio_takes_the_first_best (threshold : Q) plans :
  (0 <= threshold)%Q ->
  exists mi,
    token_sort_ratio lib threshold plans post_text = Ok (Some mi)
    /\ ((Forall (fun p => (topic_score lib post_text p <= 0)%Z) plans
         /\ mi_confidence mi = Val 0%Q /\ mi_plan mi = PyNone
         /\ mi_match mi = PyNone)
        \/ exists before p after,
             plans = before ++ p :: after
             /\ (0 < topic_score lib post_text p)%Z
             /\ Forall (fun q => (topic_score lib post_text q
                                  < topic_score lib post_text p)%Z) before
             /\ Forall (fun q => (topic_score lib post_text q
                                  <= topic_score lib post_text p)%Z) after
             /\ mi_confidence mi
                = Val (inject_Z (topic_score lib post_text p))
             /\ mi_plan mi = Val p
             /\ mi_match mi
                = (if Qgtb (inject_Z (topic_score lib post_text p)) threshold
                   then Val (id p) else PyNone)).
Proof.
  intros Hth. unfold token_sort_ratio.
  pose proof (best_so_far plans 0%Z None) as H.
  destruct (fold_left _ plans (0%Z, None)) as [c m].
  destruct H as [(-> & -> & Hall)
                |(before & p & after & -> & Hp & -> & -> & Hb & Ha)].
  - assert (Qgtb (inject_Z 0) threshold = false) as ->.
    { unfold Qgtb. apply negb_false_iff, Qle_bool_iff. exact Hth. }
    eexists. split; [reflexivity|]. left. auto.
  - destruct (Qgtb (inject_Z (topic_score lib post_text p)) threshold)
      eqn:Hc; cbn [rbind];
      (eexists; split; [reflexivity|]; right;
       exists before, p, after; cbn [mi_confidence mi_plan mi_match];
       rewrite ?Hc; repeat split; auto).
Qed.

(** X4.  With a negative threshold and no plan that scores above 0, as
    for an empty corpus, [token_sort_ratio] raises TypeError: the
    confidence 0 is above the threshold and the id is asked of [None]. *)
Theorem token_sort_ratio_below_zero (threshold : Q) plans :
  (threshold < 0)%Q ->
  Forall (fun p => (topic_score lib post_text p <= 0)%Z) plans ->
  token_sort_ratio lib threshold plans post_text = Raise TypeError.
Proof.
  intros Hth Hall. unfold token_sort_ratio.
  pose proof (best_so_far plans 0%Z None) as H.
  destruct (fold_left _ plans (0%Z, None)) as [c m].
  destruct H as [(-> & -> & _)
                |(before & p & after & -> & Hp & _)].
  - assert (Qgtb (inject_Z 0) threshold = true) as ->; [|reflexivity].
    by apply Qgtb_lt.
  - apply Forall_app in Hall as [_ Hall].
    apply Forall_cons in Hall as [Hp' _]. lia.
Qed.

End Lexical.

(** ** Strategy._composite_strategy, its results and errors *)

Section CompositeErrors.
Import matching.

Variables (plans : list Plan) (text : string).

(** X5.  When the strategies before it return results without an
    accepted match, [_composite_strategy] returns the result of the
    first strategy that accepts a match, whatever strategies come after
    it; and when the last strategy accepts none either, it returns the
    result of the last strategy. *)
Theorem composite_strategy_stops_at_the_first_match before s d :
  Forall (fun q => exists d', declines q plans text d') before ->
  (accepts s plans text d ->
   forall after,
     _composite_strategy plans text (before ++ s :: after) = Ok (Some d))
  /\ (declines s plans text d ->
      _composite_strategy plans text (before ++ [s]) = Ok (Some d)).
Proof.
  intros Hb. split.
  - intros Hs after. by apply composite_strategy_first_match.
  - intros Hs. by apply composite_strategy_last.
Qed.

(** X6.  [_composite_strategy] raises UnboundLocalError on an empty list
    of strategies, TypeError at a strategy that returns [None], and
    KeyError at a strategy whose result has no "match" key, which is
    what the rules return for operations and verbatims: the rules cannot
    be run through it. *)
Theorem composite_strategy_needs_a_match_key before s rest :
  Forall (fun q => exists d', declines q plans text d') before ->
  _composite_strategy plans text [] = Raise UnboundLocalError
  /\ (s plans text = Ok None ->
      _composite_strategy plans text (before ++ s :: rest) = Raise TypeError)
  /\ (forall d, s plans text = Ok (Some d) -> mi_match d = Absent ->
      _composite_strategy plans text (before ++ s :: rest)
      = Raise (KeyError "match")).
Proof.
  intros Hb. split; [reflexivity|].
  unfold _composite_strategy. generalize (@None (option MatchInfo)).
  induction Hb as [|q before (d' & Hq) _ IH]; intros last.
  - split.
    + intros H. cbn [app _composite_loop]. by rewrite H.
    + intros d H Hm. cbn [app _composite_loop]. rewrite H. cbn [rbind].
      by rewrite Hm.
  - cbn [app]. erewrite composite_loop_step by exact Hq. apply IH.
Qed.

End CompositeErrors.

(** ** Strategy._gensim_similarity: the best match and the errors *)

Section BestMatch.
Import matching.

Variable lib : Libraries.
Variables (plans : list Plan) (post_text model_name : string).
Variables (model : model_kind) (similarity : similarity_kind).
Variables (threshold potential_plan_threshold : Q) (model_path : string).
Variable preprocess : string -> list string.

Let models := _load_gensim_models lib model_name model similarity model_path.
Let sims := similarities models (preprocess post_text).

Lemma enumerate_from_elem {A} n (l : list A) i x :
  l !! i = Some x -> (n + i, x) ∈ enumerate_from n l.
Proof.
  revert n i; induction l as [|y l IH]; intros n [|i]; simpl; try done.
  - intros [= ->]. rewrite Nat.add_0_r. apply elem_of_cons. by left.
  - intros H. apply elem_of_cons. right.
    replace (n + S i) with (S n + i) by lia. by apply IH.
Qed.

Lemma dedupe_head pm pms :
  dedupe ∅ (pm :: pms) = pm :: dedupe {[ pm_plan_id pm ]} pms.
Proof.
  cbn [dedupe]. rewrite bool_decide_eq_false_2 by set_solver.
  by rewrite (right_id_L ∅ (∪)).
Qed.

(** X7.  In every result of [_gensim_similarity] the confidence is 100
    times the highest score of the similarity query, the plan id is the
    one that the id list gives for the first corpus position with that
    score, the match is that id exactly when the confidence is above the
    threshold, and the plan is the first plan of [plans] with that id,
    or [None] when there is none. *)
Theorem best_match_is_the_first_maximum mi :
  _gensim_similarity lib plans post_text model_name model similarity
    threshold potential_plan_threshold model_path preprocess
  = Ok (Some mi) ->
  exists i s pid,
    sims !! i = Some s /\ plan_ids models !! i = Some pid
    /\ (forall j s', sims !! j = Some s' ->
          (s' <= s)%Q /\ ((s' == s)%Q -> i <= j))
    /\ mi_confidence mi = Val (s * 100)%Q
    /\ mi_match mi
       = (if Qgtb (s * 100) threshold then Val pid else PyNone)
    /\ mi_plan mi
       = match find_plan pid plans with Some p => Val p | None => PyNone end.
Proof.
  unfold _gensim_similarity. fold models. fold sims.
  pose proof (sorted_enumerate_ranked 0 sims) as Hsorted.
  fold (enumerate sims) in Hsorted.
  change (fun item : nat * Q => (- item.2)%Q) with by_descending_score.
  assert (Hin : forall z, z ∈ sorted by_descending_score (enumerate sims)
                          <-> z ∈ enumerate sims)
    by (intros; apply elem_of_sorted).
  destruct (sorted by_descending_score (enumerate sims)) as [|[i s] L].
  { discriminate. }
  cbn [rmap]. unfold potential_match_of at 1. cbn [fst snd].
  destruct (plan_ids models !! i) as [pid|] eqn:Hpid; [|discriminate].
  cbn [rbind].
  destruct (rmap _ L) as [pms|]; [|discriminate]. cbn [rbind].
  rewrite dedupe_head. cbn [pm_confidence pm_plan pm_plan_id].
  intros [= <-]. cbn [mi_confidence mi_match mi_plan].
  exists i, s, pid.
  assert (Hi : sims !! i = Some s).
  { assert ((i, s) ∈ enumerate sims) as [_ H]%elem_of_enumerate_from
      by (apply Hin, elem_of_cons; by left).
    by rewrite Nat.sub_0_r in H. }
  split; [exact Hi|]. split; [exact Hpid|]. split; [|done].
  intros j s' Hj.
  assert ((j, s') ∈ (i, s) :: L) as [[= -> ->]|HjL]%elem_of_cons.
  { apply Hin. by apply (enumerate_from_elem 0). }
  { split; [apply Qle_refl|lia]. }
  apply StronglySorted_inv in Hsorted as [_ Hhead].
  rewrite Forall_forall in Hhead. specialize (Hhead _ HjL).
  destruct Hhead as [Hlt|[Heq Hij]]; simpl in *.
  - split; [by apply Qlt_le_weak|]. intros Heq. rewrite Heq in Hlt.
    by apply Qlt_irrefl in Hlt.
  - split; [rewrite Heq; apply Qle_refl|lia].
Qed.

Lemma rmap_Raise_inv {A B} (f : A -> result B) l e :
  rmap f l = Raise e -> exists x, x ∈ l /\ f x = Raise e.
Proof.
  induction l as [|x l IH]; [discriminate|]. cbn [rmap].
  destruct (f x) as [y|e1] eqn:E; cbn [rbind].
  - destruct (rmap f l) as [ys|e2]; cbn [rbind]; [discriminate|].
    intros [= <-]. destruct IH as (z & Hz & Hfz); [done|].
    exists z. split; [apply elem_of_cons; by right|done].
  - intros [= <-]. exists x. split; [apply elem_of_cons; by left|done].
Qed.

Lemma rmap_Raise {A B} (f : A -> result B) l e x :
  x ∈ l -> f x = Raise e ->
  (forall z e1, z ∈ l -> f z = Raise e1 -> e1 = e) ->
  rmap f l = Raise e.
Proof.
  intros Hx Hfx Hall.
  destruct (rmap f l) as [ys|e1] eqn:E.
  - apply rmap_Forall2 in E.
    apply list_elem_of_lookup in Hx as [i Hi].
    destruct (Forall2_lookup_r _ _ _ _ _ E Hi) as (y & _ & Hy). congruence.
  - apply rmap_Raise_inv in E as (z & Hz & Hfz).
    by rewrite (Hall z e1 Hz Hfz).
Qed.

(** X8.  [_gensim_similarity] raises exactly when the similarity query
    yields no score or yields more scores than the id list has entries,
    and what it raises is IndexError; in every other case it returns a
    result. *)
Theorem gensim_similarity_raises e :
  _gensim_similarity lib plans post_text model_name model similarity
    threshold potential_plan_threshold model_path preprocess
  = Raise e
  <-> e = IndexError
      /\ (sims = [] \/ length (plan_ids models) < length sims).
Proof.
  split.
  - intros Hr.
    destruct (decide (sims = [])) as [Hs|Hs].
    { split; [|by left]. revert Hr. unfold _gensim_similarity.
      fold models. fold sims. rewrite Hs. by intros [= <-]. }
    destruct (decide (length sims <= length (plan_ids models))) as [Hl|Hl].
    { destruct (gensim_similarity_returns lib plans post_text model_name
                  model similarity threshold potential_plan_threshold
                  model_path preprocess Hs Hl) as [mi Hmi].
      congruence. }
    split; [|right; lia].
    revert Hr. unfold _gensim_similarity. fold models. fold sims.
    destruct (rmap _ _) as [pms|e1] eqn:E; cbn [rbind].
    + destruct (dedupe ∅ pms); [by intros [= <-]|discriminate].
    + intros [= <-]. apply rmap_Raise_inv in E as ([i s] & _ & E).
      unfold potential_match_of in E.
      destruct (plan_ids models !! (i, s).1); [discriminate|].
      by injection E as <-.
  - intros [-> [Hs|Hl]].
    + unfold _gensim_similarity. fold models. fold sims. by rewrite Hs.
    + unfold _gensim_similarity. fold models. fold sims.
      destruct (lookup_lt_is_Some_2 sims (length (plan_ids models)) Hl)
        as [s Hs].
      rewrite (rmap_Raise _ _ IndexError (length (plan_ids models), s));
        [reflexivity| | |].
      * apply elem_of_sorted. by apply (enumerate_from_elem 0).
      * unfold potential_match_of. cbn [fst].
        by rewrite lookup_ge_None_2.
      * intros [j t] e1 _. unfold potential_match_of.
        destruct (plan_ids models !! (j, t).1); [discriminate|].
        by intros [= <-].
Qed.

End BestMatch.

Section Lsa.
Import matching.

Variable lib : Libraries.


End Lsa.

(** ** Patterns of phrases *)

Section Patterns.

Context {R : Type}.
Implicit Types k : @Re.cont R.

Lemma lit_app l P t :
  Py.lower P = Py.lower l -> Re.lit l (P ++ t) = Some t.
Proof.
  revert P; induction l as [|a l IH]; intros [|b P] H; try discriminate H.
  - reflexivity.
  - simpl in H. injection H as Hc HP. rewrite str_cons. simpl.
    rewrite Hc, Ascii.eqb_refl. by apply IH.
Qed.

Lemma lit_inv l s r :
  Re.lit l s = Some r ->
  exists P, s = (P ++ r)%string /\ Py.lower P = Py.lower l.
Proof.
  intros [H ->]%lit_Some. exists (Py.take (String.length l) s).
  by rewrite str_take_drop.
Qed.

Lemma star_app p a s g k :
  all_chars p a = true -> is_Some (k s g) ->
  is_Some (Re.star p (a ++ s) g k).
Proof.
  intros Ha Hk. induction a as [|c a IH].
  - destruct s as [|c s]; [exact Hk|]. simpl.
    destruct (p c); [|exact Hk].
    destruct (Re.star p s g k); [eauto|exact Hk].
  - simpl in Ha. apply andb_true_iff in Ha as [Hc Ha].
    rewrite str_cons. simpl. rewrite Hc.
    destruct (IH Ha) as [x ->]. eauto.
Qed.

Lemma star_inv p s g k x :
  Re.star p s g k = Some x ->
  exists a s', s = (a ++ s')%string /\ all_chars p a = true
               /\ k s' g = Some x.
Proof.
  induction s as [|c s IH]; simpl.
  - intros H. by exists EmptyString, EmptyString.
  - destruct (p c) eqn:Hc.
    + destruct (Re.star p s g k) as [y|] eqn:E; simpl.
      * intros [= ->]. destruct (IH eq_refl) as (a & s' & -> & Ha & Hk).
        exists (String c a), s'. simpl. by rewrite Hc, Ha.
      * intros H. by exists EmptyString, (String c s).
    + intros H. by exists EmptyString, (String c s).
Qed.

(** When the text after the run does not go on with the class, the
    greedy star takes the whole run first. *)
Lemma star_greedy p a s g k x :
  all_chars p a = true -> k s g = Some x ->
  match s with String c _ => p c = false | EmptyString => True end ->
  Re.star p (a ++ s) g k = Some x.
Proof.
  intros Ha Hk Hs. induction a as [|c a IH].
  - destruct s as [|c s]; [exact Hk|]. simpl. by rewrite Hs.
  - simpl in Ha. apply andb_true_iff in Ha as [Hc Ha].
    rewrite str_cons. simpl. by rewrite Hc, (IH Ha).
Qed.

End Patterns.

Section Phrases.

Lemma search_inv r t m :
  Re.search r t = Some m ->
  exists pre s, t = (pre ++ s)%string /\ Re.match_ r s = Some m.
Proof.
  induction t as [|c t IH]; cbn [Re.search].
  - destruct (Re.match_ r EmptyString) eqn:E; [|discriminate].
    intros [= <-]. by exists EmptyString, EmptyString.
  - destruct (Re.match_ r (String c t)) eqn:E.
    + intros [= <-]. by exists EmptyString, (String c t).
    + intros (pre & s & -> & Hs)%IH. by exists (String c pre), s.
Qed.

Lemma search_app r pre s :
  is_Some (Re.match_ r s) -> is_Some (Re.search r (pre ++ s)).
Proof.
  intros [m Hm]. induction pre as [|c pre IH].
  - change (EmptyString ++ s)%string with s.
    destruct s; cbn [Re.search]; rewrite Hm; eauto.
  - rewrite str_cons. cbn [Re.search].
    destruct (Re.match_ r (String c (pre ++ s))); eauto.
Qed.

Lemma is_Some_or_else {R} (x y : option R) :
  is_Some (Re.or_else x y) <-> is_Some x \/ is_Some y.
Proof.
  destruct x; simpl; [split; eauto|].
  split; [by right|]. by intros [[? [=]]|?].
Qed.

Lemma run_phrases {R} r xs s g (k : @Re.cont R) :
  phrases r = Some xs ->
  is_Some (Re.run r s g k)
  <-> exists x P rest,
        x ∈ xs /\ s = (P ++ rest)%string /\ Py.lower P = Py.lower x
        /\ is_Some (k rest g).
Proof.
  revert xs s k; induction r as [l| | | |a IHa b IHb|a IHa b IHb|a IHa| |];
    intros xs s k; cbn [phrases]; try discriminate.
  - intros [= <-]. cbn [Re.run]. split.
    + destruct (Re.lit l s) as [s'|] eqn:E; [|by intros [? [=]]].
      intros Hk. apply lit_inv in E as (P & -> & HP).
      exists l, P, s'. split; [by apply list_elem_of_singleton|done].
    + intros (x & P & rest & ->%list_elem_of_singleton & -> & HP & Hk).
      by rewrite (lit_app _ _ _ HP).
  - destruct (phrases a) as [xa|]; [|discriminate].
    destruct (phrases b) as [xb|]; [|discriminate].
    intros [= <-]. cbn [Re.run]. rewrite (IHa xa) by reflexivity. split.
    + intros (x & P & rest & Hx & -> & HP & Hk).
      apply (IHb xb) in Hk as (y & Q & rest' & Hy & -> & HQ & Hk);
        [|reflexivity].
      exists (x ++ y)%string, (P ++ Q)%string, rest'.
      split; [|split; [by rewrite str_app_assoc|split; [|done]]].
      * apply list_elem_of_In, in_flat_map. exists x.
        split; [by apply list_elem_of_In|].
        apply in_map_iff. exists y. split; [done|by apply list_elem_of_In].
      * by rewrite !lower_app, HP, HQ.
    + intros (z & P & rest & Hz & -> & HP & Hk).
      apply list_elem_of_In, in_flat_map in Hz as (x & Hx & Hz).
      apply in_map_iff in Hz as (y & <- & Hy).
      apply list_elem_of_In in Hx, Hy.
      rewrite lower_app in HP.
      exists x, (Py.take (String.length x) P),
        (Py.drop (String.length x) P ++ rest)%string.
      split; [done|]. split; [by rewrite <- str_app_assoc, str_take_drop|].
      split.
      * rewrite lower_take, HP, <- (lower_length x). apply str_take_app.
      * apply (IHb xb); [reflexivity|].
        exists y, (Py.drop (String.length x) P), rest.
        split; [done|]. split; [done|]. split; [|done].
        rewrite lower_drop, HP, <- (lower_length x). apply str_drop_app.
  - destruct (phrases a) as [xa|]; [|discriminate].
    destruct (phrases b) as [xb|]; [|discriminate].
    intros [= <-]. cbn [Re.run].
    rewrite is_Some_or_else, (IHa xa), (IHb xb) by reflexivity. split.
    + intros [(x & P & rest & Hx & H)|(x & P & rest & Hx & H)];
        exists x, P, rest; (split; [|exact H]); apply elem_of_app; auto.
    + intros (x & P & rest & [Hx|Hx]%elem_of_app & H); [left|right]; eauto.
  - destruct (phrases a) as [xa|]; [|discriminate].
    intros [= <-]. cbn [Re.run].
    rewrite is_Some_or_else, (IHa xa) by reflexivity. split.
    + intros [(x & P & rest & Hx & H)|Hk].
      * exists x, P, rest. split; [apply elem_of_app; auto|exact H].
      * exists EmptyString, EmptyString, s.
        split; [apply elem_of_app; right; by apply list_elem_of_singleton|done].
    + intros (x & P & rest & [Hx|Hx]%elem_of_app & Hs & HP & Hk);
        [left; eauto 10|right].
      apply list_elem_of_singleton in Hx. subst x.
      destruct P; [|discriminate HP]. by subst s.
Qed.

Lemma run_to_eol {R} s g (k : @Re.cont R) :
  is_Some (Re.run matching.to_eol s g k)
  <-> exists nw rest,
        s = (nw ++ rest)%string /\ all_chars Re.non_word nw = true
        /\ Re.at_eol rest = true /\ is_Some (k rest g).
Proof.
  unfold matching.to_eol. cbn [Re.run]. split.
  - intros [x Hx]. apply star_inv in Hx as (nw & rest & -> & Hnw & Hk).
    exists nw, rest. destruct (Re.at_eol rest); [eauto|discriminate].
  - intros (nw & rest & -> & Hnw & Heol & Hk).
    apply star_app; [exact Hnw|]. by rewrite Heol.
Qed.

Lemma search_ext r1 r2 t :
  (forall s, Re.match_ r1 s = Re.match_ r2 s) ->
  Re.search r1 t = Re.search r2 t.
Proof.
  intros H. induction t as [|c t IH]; cbn [Re.search]; rewrite H; [done|].
  by rewrite IH.
Qed.

Lemma is_Some_search r t :
  is_Some (Re.search r t)
  <-> exists pre s, t = (pre ++ s)%string /\ is_Some (Re.match_ r s).
Proof.
  split.
  - intros [m (pre & s & -> & Hm)%search_inv]. eauto.
  - intros (pre & s & -> & Hm). by apply search_app.
Qed.

(** A pattern that is a phrase pattern followed by [\W*$] matches
    exactly the texts that begin a line with one of its phrases, and is
    found in exactly the texts in which one of them ends a line. *)
Lemma run_phrases_to_eol {R} ph xs s g (k : @Re.cont R) :
  phrases ph = Some xs -> (forall s' g', is_Some (k s' g')) ->
  is_Some (Re.run (Re.Seq ph matching.to_eol) s g k)
  <-> exists x, x ∈ xs /\ begins_a_line x s.
Proof.
  intros Hph Hk. unfold begins_a_line. cbn [Re.run].
  rewrite (run_phrases _ _ _ _ _ Hph). split.
  - intros (x & P & rest & Hx & -> & HP & Hm).
    apply run_to_eol in Hm as (nw & rest' & -> & Hnw & Heol & _).
    exists x. split; [done|]. by exists P, nw, rest'.
  - intros (x & Hx & P & nw & rest & -> & HP & Hnw & Heol).
    exists x, P, (nw ++ rest)%string.
    split; [done|]. split; [done|]. split; [done|].
    apply run_to_eol. exists nw, rest. eauto.
Qed.

Lemma match_phrases ph xs s :
  phrases ph = Some xs ->
  is_Some (Re.match_ (Re.Seq ph matching.to_eol) s)
  <-> exists x, x ∈ xs /\ begins_a_line x s.
Proof. intros Hph. apply run_phrases_to_eol; eauto. Qed.

(** Such a pattern leaves the group as it was. *)
Lemma run_phrases_group {R} r xs s g (k : @Re.cont R) x :
  phrases r = Some xs -> Re.run r s g k = Some x ->
  exists s', k s' g = Some x.
Proof.
  revert xs s k; induction r as [l| | | |a IHa b IHb|a IHa b IHb|a IHa| |];
    intros xs s k; cbn [phrases Re.run]; try discriminate.
  - intros _. destruct (Re.lit l s); [eauto|discriminate].
  - destruct (phrases a) as [xa|]; [|discriminate].
    destruct (phrases b) as [xb|]; [|discriminate].
    intros _ (s1 & H)%(IHa xa); [|reflexivity].
    by apply (IHb xb) in H.
  - destruct (phrases a) as [xa|]; [|discriminate].
    destruct (phrases b) as [xb|]; [|discriminate].
    intros _. destruct (Re.run a s g k) eqn:E; simpl.
    + intros [= ->]. by apply (IHa xa) in E.
    + by intros H%(IHb xb).
  - destruct (phrases a) as [xa|]; [|discriminate].
    intros _. destruct (Re.run a s g k) eqn:E; simpl.
    + intros [= ->]. by apply (IHa xa) in E.
    + eauto.
Qed.

Lemma match_phrases_group ph xs s g x :
  phrases ph = Some xs ->
  Re.run (Re.Seq ph matching.to_eol) s g (fun s' g' => Some (g', s'))
  = Some x ->
  x.1 = g.
Proof.
  intros Hph. cbn [Re.run].
  intros (s1 & H)%(run_phrases_group _ _ _ _ _ _ Hph).
  unfold matching.to_eol in H. cbn [Re.run] in H.
  apply star_inv in H as (nw & rest & _ & _ & H).
  destruct (Re.at_eol rest); [|discriminate]. by injection H as <-.
Qed.

Lemma search_phrases ph xs t :
  phrases ph = Some xs ->
  is_Some (Re.search (Re.Seq ph matching.to_eol) t)
  <-> exists x, x ∈ xs /\ ends_a_line x t.
Proof.
  intros Hph. rewrite is_Some_search. unfold ends_a_line. split.
  - intros (pre & s & -> & (x & Hx & H)%(match_phrases _ _ _ Hph)). eauto 10.
  - intros (x & Hx & pre & s & -> & H). exists pre, s. split; [done|].
    apply (match_phrases _ _ _ Hph). eauto.
Qed.

Lemma consumed_app (q s : string) : Re.consumed (q ++ s) s = q.
Proof.
  unfold Re.consumed. rewrite str_length_app.
  replace (String.length q + String.length s - String.length s)
    with (String.length q) by lia.
  apply str_take_app.
Qed.

End Phrases.

(** ** The rules that read a request *)

Section Requests.
Import matching.

Lemma advanced_or_help text :
  asks_advanced_help text -> begins_a_line "help" text -> False.
Proof.
  intros (A & sp & rest & -> & HA & _) (P & nw & rest' & E & HP & _).
  destruct A as [|a A]; [discriminate HA|].
  destruct P as [|p P]; [discriminate HP|].
  rewrite !str_cons in E. injection E as -> _.
  simpl in HA, HP. injection HA as Ha _. injection HP as Hp _.
  rewrite Ha in Hp. vm_compute in Hp. discriminate Hp.
Qed.

(** What [re.match] of the help pattern gives: group 1 is set exactly
    on a request for the advanced help. *)
Lemma help_match text :
  match Re.match_ re_help text with
  | Some (g, _) =>
      if from_option Py.truthy false g then asks_advanced_help text
      else begins_a_line "help" text
  | None => ~ asks_advanced_help text /\ ~ begins_a_line "help" text
  end.
Proof.
  unfold Re.match_, re_help.
  set (k0 := fun (s' : string) (g' : option string) => Some (g', s')).
  pose (help := fun s' g' =>
          Re.run (Re.Seq (Re.Lit "help") to_eol) s' g' k0).
  change (Re.run _ text None k0) with
    (Re.or_else
       (match Re.lit "advanced" text with
        | Some s1 =>
            match s1 with
            | String c s2 =>
                if Re.space c
                then Re.star Re.space s2 None
                       (fun s' _ => help s' (Some (Re.consumed text s')))
                else None
            | EmptyString => None
            end
        | None => None
        end)
       (help text None)).
  assert (Hhelp : forall s g,
            is_Some (help s g) <-> begins_a_line "help" s).
  { intros s g.
    etrans; [apply (run_phrases_to_eol (Re.Lit "help") ["help"] s g k0
                      eq_refl); intros; unfold k0; eauto|].
    split; [by intros (x & ->%list_elem_of_singleton & H)|].
    intros H. exists "help". split; [by apply list_elem_of_singleton|done]. }
  assert (Hg : forall s g x, help s g = Some x -> x.1 = g).
  { intros s g x. apply (match_phrases_group (Re.Lit "help") ["help"]).
    reflexivity. }
  destruct (Re.lit "advanced" text) as [s1|] eqn:El.
  2:{ cbn [Re.or_else]. destruct (help text None) as [[g r]|] eqn:E.
      - apply Hg in E as Hgr. simpl in Hgr. subst g. cbn [from_option].
        apply (proj1 (Hhelp _ None)). eauto.
      - split.
        + intros (A & sp & rest & -> & HA & _).
          by rewrite (lit_app "advanced" A) in El.
        + intros H%(Hhelp text None). rewrite E in H. by destruct H. }
  apply lit_inv in El as (A & -> & HA).
  assert (Hadv : forall c s2 x,
            Re.space c = true ->
            Re.star Re.space s2 None
              (fun s' _ =>
                 help s' (Some (Re.consumed (A ++ String c s2)%string s')))
            = Some x ->
            from_option Py.truthy false x.1 = true
            /\ asks_advanced_help (A ++ String c s2)%string).
  { intros c s2 x Hc (a & s' & -> & Ha & Hx)%star_inv.
    apply Hg in Hx as Hgx.
    replace (A ++ String c (a ++ s'))%string
      with ((A ++ String c a) ++ s')%string in *
      by by rewrite str_app_assoc, str_cons.
    rewrite consumed_app in Hgx. rewrite Hgx. split.
    - by destruct A.
    - exists A, (String c a), s'. rewrite str_app_assoc, str_cons.
      split; [done|]. split; [done|]. split; [done|].
      split; [simpl; by rewrite Hc|].
      eapply (proj1 (Hhelp s' _)). rewrite Hx. eauto. }
  destruct s1 as [|c s2].
  { cbn [Re.or_else]. destruct (help (A ++ "")%string None) as [[g r]|] eqn:E.
    - apply Hg in E as Hgr. simpl in Hgr. subst g. cbn [from_option].
      apply (proj1 (Hhelp _ None)). eauto.
    - split.
      + intros (A' & sp & rest & E' & HA' & Hsp & _).
        apply str_app_inv in E' as [_ E'];
          [|by rewrite <- (lower_length A), <- (lower_length A'), HA, HA'].
        by destruct sp.
      + intros H%(Hhelp _ None). rewrite E in H. by destruct H. }
  destruct (Re.space c) eqn:Hc.
  2:{ cbn [Re.or_else].
      destruct (help (A ++ String c s2)%string None) as [[g r]|] eqn:E.
      - apply Hg in E as Hgr. simpl in Hgr. subst g. cbn [from_option].
        apply (proj1 (Hhelp _ None)). eauto.
      - split.
        + intros (A' & sp & rest & E' & HA' & Hsp & Hall & _).
          apply str_app_inv in E' as [<- E'];
            [|by rewrite <- (lower_length A), <- (lower_length A'), HA, HA'].
          destruct sp as [|c' sp]; [done|].
          rewrite str_cons in E'. injection E' as -> _.
          cbn [all_chars] in Hall. rewrite Hc in Hall. discriminate Hall.
        + intros H%(Hhelp _ None). rewrite E in H. by destruct H. }
  destruct (Re.star Re.space s2 None _) as [[g r]|] eqn:E.
  - cbn [Re.or_else]. destruct (Hadv c s2 (g, r) Hc E) as [Ht Ha].
    simpl in Ht. by rewrite Ht.
  - cbn [Re.or_else].
    assert (Hno : ~ asks_advanced_help (A ++ String c s2)%string).
    { intros (A' & sp & rest & E' & HA' & Hsp & Hall & Hrest).
      apply str_app_inv in E' as [<- E'];
        [|by rewrite <- (lower_length A), <- (lower_length A'), HA, HA'].
      destruct sp as [|c' sp]; [done|].
      rewrite str_cons in E'. injection E' as -> ->.
      cbn [all_chars] in Hall. apply andb_true_iff in Hall as [_ Hall].
      assert (is_Some
                (Re.star Re.space (sp ++ rest)%string None
                   (fun s' _ =>
                      help s'
                        (Some (Re.consumed
                                 (A ++ String c' (sp ++ rest))%string s')))))
        as [x Hx].
      { apply star_app; [exact Hall|]. by apply Hhelp. }
      congruence. }
    destruct (help (A ++ String c s2)%string None) as [[g r]|] eqn:E2.
    + apply Hg in E2 as Hgr. simpl in Hgr. subst g. cbn [from_option].
      apply (proj1 (Hhelp _ None)). eauto.
    + split; [exact Hno|].
      intros H%(Hhelp _ None). rewrite E2 in H. by destruct H.
Qed.

Lemma find_first_such {A} (f : A -> bool) l x :
  List.find f l = Some x <-> first_such (fun y => f y = true) l x.
Proof.
  unfold first_such. split.
  - induction l as [|y l IH]; [discriminate|]. simpl.
    destruct (f y) eqn:E.
    + intros [= ->]. exists [], l. split; [done|]. split; [done|].
      by intros ? ?%elem_of_nil.
    + intros (before & after & -> & Hx & Hb)%IH.
      exists (y :: before), after. split; [done|]. split; [done|].
      intros z [->|Hz]%elem_of_cons; [congruence|by apply Hb].
  - intros (before & after & -> & Hx & Hb). apply find_first; [done|].
    intros q Hq. apply not_true_is_false. by apply Hb.
Qed.

Lemma why_warren_match text options :
  bool_decide ("why_warren" ∈ options)
  || bool_decide (is_Some (Re.match_ re_why_warren text)) = true
  <-> asks_why_warren text options.
Proof.
  unfold asks_why_warren, re_why_warren.
  rewrite orb_true_iff, !bool_decide_eq_true.
  rewrite (match_phrases (Re.Lit "why warren") ["why warren"] text eq_refl).
  split; (intros [H|H]; [by left|right]).
  - by destruct H as (x & ->%list_elem_of_singleton & H).
  - exists "why warren". split; [by apply list_elem_of_singleton|done].
Qed.

(** X10.  [match_verbatim] returns a result exactly when the text asks
    for a verbatim and the verbatims hold one with the id asked for, and
    the result is the first such verbatim. The id asked for is
    "why_warren" when the flag is set or the text starts with a line of
    "why warren"; otherwise "advanced_help" when the text starts with
    "advanced", white space and a line of "help", and "basic_help" when
    it starts with a line of "help"; letter case does not count. *)
Theorem verbatim_rule_answers_requests verbatims text options mi :
  match_verbatim verbatims text options = Some mi
  <-> exists i v,
        verbatim_request text options i
        /\ first_such (fun u => verbatim_id_of u = i) verbatims v
        /\ mi = verbatim_reply v.
Proof.
  unfold match_verbatim.
  set (verbatim_id :=
         if bool_decide ("why_warren" ∈ options)
            || bool_decide (is_Some (Re.match_ re_why_warren text))
         then Some "why_warren"
         else match Re.match_ re_help text with
              | Some (group1, _) =>
                  if from_option Py.truthy false group1
                  then Some "advanced_help" else Some "basic_help"
              | None => None
              end).
  assert (Hid : forall i,
            verbatim_id = Some i <-> verbatim_request text options i).
  { intros i. subst verbatim_id.
    pose proof (why_warren_match text options) as Hwhy.
    pose proof (help_match text) as Hhelp.
    destruct (_ || _).
    - pose proof (proj1 Hwhy eq_refl) as Hw. split.
      + intros [= <-]. by constructor.
      + by inversion 1.
    - assert (Hw : ~ asks_why_warren text options)
        by (intros ?%Hwhy; discriminate).
      destruct (Re.match_ re_help text) as [[g r]|].
      + destruct (from_option Py.truthy false g); split.
        * intros [= <-]. by constructor.
        * inversion 1; [done|done|]. by destruct (advanced_or_help text).
        * intros [= <-]. by constructor.
        * inversion 1; [done| |done]. by destruct (advanced_or_help text).
      + destruct Hhelp as [Hna Hnh]. split; [discriminate|].
        by inversion 1. }
  clearbody verbatim_id.
  split.
  - destruct (List.find _ verbatims) as [v|] eqn:Hf; [|discriminate].
    intros [= <-]. apply find_first_such in Hf.
    destruct Hf as (before & after & -> & Hv & Hb).
    apply bool_decide_eq_true in Hv.
    exists (verbatim_id_of v), v.
    split; [by apply Hid|]. split; [|done].
    exists before, after. split; [done|]. split; [done|].
    intros u Hu Hi. apply (Hb u Hu). apply bool_decide_eq_true. congruence.
  - intros (i & v & Hi%Hid & (before & after & -> & Hv & Hb) & ->).
    rewrite (find_first _ before v after); [done| |].
    + apply bool_decide_eq_true. congruence.
    + intros q Hq. apply bool_decide_eq_false. intros Hq'.
      apply (Hb q Hq). congruence.
Qed.

(** X11.  [request_plan_list] returns the operation "all_the_plans"
    exactly when "show me the plans" stands somewhere in the text, in
    any letter case, followed up to the end of its line by nothing but
    characters that are not word characters; otherwise it returns
    [None]. *)
Theorem plan_list_request_ends_a_line plans text mi :
  request_plan_list plans text = Some mi
  <-> mi = operation_info "all_the_plans"
      /\ ends_a_line "show me the plans" text.
Proof.
  unfold request_plan_list, re_plan_list.
  pose proof (search_phrases (Re.Lit "show me the plans") _ text eq_refl) as H.
  destruct (bool_decide_reflect
              (is_Some (Re.search
                          (Re.Seq (Re.Lit "show me the plans") to_eol) text)))
    as [Hs|Hs].
  - apply H in Hs as (x & ->%list_elem_of_singleton & Hx).
    split; [by intros [= <-]|by intros [-> _]].
  - split; [discriminate|]. intros [_ Hx]. destruct Hs. apply H.
    exists "show me the plans". split; [by apply list_elem_of_singleton|done].
Qed.

Lemma search_state_of text :
  is_Some (Re.search re_state_of text)
  <-> exists x, x ∈ [ "state of the race"; "state of the primary";
                      "state of race"; "state of primary" ]
                /\ ends_a_line x text.
Proof.
  set (ph := Re.Seq (Re.Lit "state of ")
               (Re.Seq (Re.Opt (Re.Lit "the "))
                  (Re.Alt (Re.Lit "race") (Re.Lit "primary")))).
  rewrite (search_ext re_state_of (Re.Seq ph to_eol) text (fun s => eq_refl)).
  apply (search_phrases ph _ text eq_refl).
Qed.

Lemma search_is_over text :
  is_Some (Re.search re_is_over text)
  <-> exists x, x ∈ [ "is the race over"; "is the primary over" ]
                /\ ends_a_line x text.
Proof.
  set (ph := Re.Seq (Re.Lit "is the ")
               (Re.Seq (Re.Alt (Re.Lit "race") (Re.Lit "primary"))
                  (Re.Lit " over"))).
  rewrite (search_ext re_is_over (Re.Seq ph to_eol) text (fun s => eq_refl)).
  apply (search_phrases ph _ text eq_refl).
Qed.

Lemma search_status_check text :
  is_Some (Re.search re_status_check text)
  <-> exists x, x ∈ [ "status check" ] /\ ends_a_line x text.
Proof. apply (search_phrases (Re.Lit "status check") _ text eq_refl). Qed.

(** X12.  [request_state_of_race] returns the operation "state_of_race"
    exactly when the flag is among its options or one of seven phrases
    ends a line of the text: "state of [the] race", "state of [the]
    primary", "is the race over", "is the primary over", "status check";
    otherwise it returns [None]. *)
Theorem state_of_race_request_ends_a_line plans text options mi :
  request_state_of_race plans text options = Some mi
  <-> mi = operation_info "state_of_race"
      /\ ("state_of_race" ∈ options
          \/ exists phrase,
               phrase ∈ state_of_race_phrases /\ ends_a_line phrase text).
Proof.
  unfold request_state_of_race.
  assert (Hb : bool_decide ("state_of_race" ∈ options)
               || bool_decide (is_Some (Re.search re_state_of text))
               || bool_decide (is_Some (Re.search re_is_over text))
               || bool_decide (is_Some (Re.search re_status_check text))
               = true
               <-> "state_of_race" ∈ options
                   \/ exists phrase,
                        phrase ∈ state_of_race_phrases
                        /\ ends_a_line phrase text).
  { rewrite !orb_true_iff, !bool_decide_eq_true.
    rewrite search_state_of, search_is_over, search_status_check.
    unfold state_of_race_phrases. split.
    - intros [[[H|(x & Hx & H)]|(x & Hx & H)]|(x & Hx & H)]; [by left|..];
        right; exists x; (split; [|exact H]);
        revert Hx; rewrite !elem_of_cons, !elem_of_nil; tauto.
    - intros [H|(x & Hx & H)]; [tauto|].
      revert Hx. rewrite !elem_of_cons, elem_of_nil.
      intros [Hx|[Hx|[Hx|[Hx|[Hx|[Hx|[Hx|[]]]]]]]]; subst x;
        [left; left; right..|left; right|left; right|right];
        (eexists; split; [|exact H]); rewrite !elem_of_cons; tauto. }
  destruct (_ || _).
  - pose proof (proj1 Hb eq_refl) as H.
    split; [by intros [= <-]|by intros [-> _]].
  - split; [discriminate|]. intros [_ H]. apply Hb in H. discriminate H.
Qed.

End Requests.

(** ** Reply texts *)

Section Builders.
Import matching plan_bot.

Lemma plan_links_Ok plans :
  (exists t, _plan_links plans = Ok t) <-> Forall is_Some plans.
Proof.
  unfold _plan_links. split.
  - intros [t Ht].
    destruct (rmap _ plans) as [links|] eqn:E; [|discriminate].
    apply rmap_Forall2 in E. clear Ht.
    induction E as [|l [p|] ? ? H _ IH]; constructor; eauto; discriminate.
  - intros H.
    destruct (rmap_Ok (fun plan : option Plan =>
                         match plan with
                         | Some p =>
                             Ok ("[" ++ display_title p ++ "](" ++ url p
                                 ++ ")  ")%string
                         | None => Raise TypeError
                         end) plans) as [links ->]; [|simpl; eauto].
    rewrite Forall_forall in H. intros x [p ->]%H. eauto.
Qed.

Lemma plan_links_Raise plans e : _plan_links plans = Raise e -> e = TypeError.
Proof.
  unfold _plan_links.
  destruct (rmap _ plans) as [links|e1] eqn:E; [discriminate|].
  cbn [rbind]. intros [= <-].
  apply rmap_Raise_inv in E as ([p|] & _ & E); [discriminate|].
  by injection E.
Qed.

(** X13.  [build_plan_response_text] never raises for a plan. For a
    cluster the reply is the static list of links with the reply type
    "plan_cluster", whatever the response builder of [llm.py] and the
    text of the post are; for another plan it is the text of that
    builder with the type "plan_llm" when that text is not empty, and
    the static summary with the type "plan" when the builder returns
    [None] or an empty text. *)
Theorem plan_reply_kinds sv (p : Plan) full_post_text :
  exists body,
    build_plan_response_text sv (Some p) full_post_text
    = Ok (body,
          if is_cluster p then "plan_cluster"
          else if from_option Py.truthy false
                    (build_llm_plan_response_text sv (Some p) full_post_text)
               then "plan_llm" else "plan")
    /\ (is_cluster p = true ->
        forall sv' text',
          build_plan_response_text sv' (Some p) text'
          = Ok (body, "plan_cluster"))
    /\ (is_cluster p = false ->
        body = match build_llm_plan_response_text sv (Some p)
                       full_post_text with
               | Some t => if Py.truthy t then t
                           else build_response_text_pure_plan p
               | None => build_response_text_pure_plan p
               end).
Proof.
  unfold build_plan_response_text. cbn [from_option].
  destruct (is_cluster p) eqn:Hc.
  - unfold build_response_text_plan_cluster.
    destruct (proj2 (plan_links_Ok (map Some (plans_of p)))) as [links ->].
    { apply Forall_forall. intros x (y & -> & _)%list_elem_of_fmap. eauto. }
    cbn [rbind]. eexists. split; [reflexivity|]. split; [|done].
    intros _ sv' text'. reflexivity.
  - destruct (build_llm_plan_response_text sv (Some p) full_post_text)
      as [t|]; cbn [from_option]; [destruct (Py.truthy t)|];
      eexists; (split; [reflexivity|]); split; done.
Qed.

(** X14.  [build_no_match_response_text] looks at the first eight
    potential matches only: it returns a text when each of them has a
    plan (and when there is no potential match at all), and raises
    TypeError when one of them has none, which is so when the id list of
    the model names a plan that [plans] does not hold. *)
Theorem no_match_reply_reads_eight_candidates potential_plan_matches :
  let shown := firstn 8 (default [] potential_plan_matches) in
  (Forall (fun m => is_Some (pm_plan m)) shown
   -> exists t, build_no_match_response_text potential_plan_matches = Ok t)
  /\ (Exists (fun m => pm_plan m = None) shown
      -> build_no_match_response_text potential_plan_matches
         = Raise TypeError).
Proof.
  intros shown. subst shown.
  destruct potential_plan_matches as [[|m l]|]; cbn [default];
    unfold build_no_match_response_text.
  1,3: split; [eauto|]; simpl; by intros ?%Exists_nil.
  split.
  - intros H.
    destruct (proj2 (plan_links_Ok (map pm_plan (firstn 8 (m :: l)))))
      as [t ->]; [|simpl; eauto].
    apply Forall_forall. intros x (y & -> & Hy)%list_elem_of_fmap.
    rewrite Forall_forall in H. by apply H.
  - intros H.
    destruct (_plan_links (map pm_plan (firstn 8 (m :: l)))) as [t|e] eqn:E.
    + exfalso.
      assert (Forall is_Some (map pm_plan (firstn 8 (m :: l)))) as Hall
        by (apply plan_links_Ok; eauto).
      apply Exists_exists in H as (x & Hx & Hn).
      rewrite Forall_forall in Hall.
      destruct (Hall (pm_plan x)) as [p Hp]; [|congruence].
      by apply (list_elem_of_fmap_2 pm_plan).
    + apply plan_links_Raise in E as ->. reflexivity.
Qed.

(** X15.  [build_all_plans_response_text] returns a text when at least
    three of the plans are not clusters, and raises IndexError when
    fewer are. *)
Theorem all_plans_reply_needs_three_plans plans :
  (3 <= length (List.filter (fun p => negb (is_cluster p)) plans)
   -> exists t, build_all_plans_response_text plans = Ok t)
  /\ (length (List.filter (fun p => negb (is_cluster p)) plans) < 3
      -> build_all_plans_response_text plans = Raise IndexError).
Proof.
  unfold build_all_plans_response_text.
  destruct (List.filter _ plans) as [|p0 [|p1 [|p2 others]]]; simpl;
    split; intros H; try lia; eauto.
Qed.

(** X16.  For the days of a month [day_suffix] gives the English ordinal
    ending: "st" for 1, 21 and 31, "nd" for 2 and 22, "rd" for 3 and 23,
    and "th" for every other day, 11, 12 and 13 among them. *)
Theorem day_suffix_of_a_day_of_the_month d :
  1 <= d <= 31 ->
  day_suffix d
  = if bool_decide (d ∈ [1; 21; 31]) then "st"
    else if bool_decide (d ∈ [2; 22]) then "nd"
    else if bool_decide (d ∈ [3; 23]) then "rd"
    else "th".
Proof.
  intros [H1 H2].
  do 32 (destruct d as [|d]; [try lia; reflexivity|]). lia.
Qed.

End Builders.

(** ** get_trigger_line *)

Section TriggerLine.
Import matching plan_bot.

Lemma trigger_match w s g rest :
  Re.match_ (re_trigger_line w) s = Some (g, rest) ->
  exists T sep q,
    s = (T ++ sep ++ q ++ rest)%string
    /\ Py.lower T = Py.lower w
    /\ sep <> EmptyString /\ all_chars Re.not_hyphen_word sep = true
    /\ g = Some q /\ one_sentence q.
Proof.
  unfold Re.match_, re_trigger_line. cbn [Re.run].
  destruct (Re.lit w s) as [s1|] eqn:El; [|discriminate].
  apply lit_inv in El as (T & -> & HT).
  destruct s1 as [|c s2]; [discriminate|].
  destruct (Re.not_hyphen_word c) eqn:Hc; [|discriminate].
  intros (a & s3 & -> & Ha & H)%star_inv.
  apply star_inv in H as (body & s4 & -> & Hbody & H).
  assert (Hsep : all_chars Re.not_hyphen_word (String c a) = true)
    by (simpl; by rewrite Hc, Ha).
  destruct s4 as [|t s5].
  - cbn [Re.or_else] in H. injection H as <- <-.
    rewrite consumed_app.
    exists T, (String c a), body. rewrite str_app_nil_r.
    repeat split; try done.
    exists body, EmptyString. rewrite str_app_nil_r. auto.
  - destruct (Re.terminal t) eqn:Ht; cbn [Re.or_else] in H;
      injection H as <- <-.
    + replace (body ++ String t s5)%string
        with ((body ++ String t EmptyString) ++ s5)%string
        by by rewrite str_app_assoc.
      rewrite consumed_app.
      exists T, (String c a), (body ++ String t EmptyString)%string.
      repeat split; try done. exists body, (String t EmptyString).
      split; [done|]. split; [done|]. right. by exists t.
    + rewrite consumed_app.
      exists T, (String c a), body.
      repeat split; try done.
      exists body, EmptyString. rewrite str_app_nil_r. auto.
Qed.

Lemma findall_from_elem r s k x :
  x ∈ Re.findall_from r s k ->
  exists pre s' g rest,
    s = (pre ++ s')%string /\ Re.match_ r s' = Some (g, rest)
    /\ x = default EmptyString g.
Proof.
  revert k; induction s as [|c s IH]; intros k.
  - destruct k; cbn [Re.findall_from]; [|by intros ?%elem_of_nil].
    destruct (Re.match_ r EmptyString) as [[g rest]|] eqn:E;
      [|by intros ?%elem_of_nil].
    intros ->%list_elem_of_singleton.
    by exists EmptyString, EmptyString, g, rest.
  - assert (Hrec : forall n, x ∈ Re.findall_from r s n ->
              exists pre s' g rest,
                String c s = (pre ++ s')%string
                /\ Re.match_ r s' = Some (g, rest)
                /\ x = default EmptyString g).
    { intros n (pre & s' & g & rest & -> & Hm & Hx)%IH.
      by exists (String c pre), s', g, rest. }
    destruct k; cbn [Re.findall_from]; [|apply Hrec].
    destruct (Re.match_ r (String c s)) as [[g rest]|] eqn:E; [|apply Hrec].
    intros [->|H]%elem_of_cons; [|by eapply Hrec].
    by exists EmptyString, (String c s), g, rest.
Qed.

Lemma last_elem {A} (l : list A) d : l <> [] -> List.last l d ∈ l.
Proof.
  induction l as [|x l IH]; [done|]. intros _.
  destruct l as [|y l]; [by apply list_elem_of_singleton|].
  apply elem_of_cons. right. by apply IH.
Qed.

(** X17.  What [get_trigger_line] returns is at most one sentence:
    characters other than [!], [?] and [.], with at most one of these at
    the end. When it is not empty it stands in the text right behind the
    trigger word, in any letter case, and one or more characters that
    are neither hyphens nor word characters. *)
Theorem trigger_line_is_one_sentence text :
  one_sentence (get_trigger_line text)
  /\ (get_trigger_line text <> EmptyString ->
      follows_trigger (get_trigger_line text) text).
Proof.
  unfold get_trigger_line, get_trigger_line_with.
  destruct (Re.findall (re_trigger_line "!warrenplanbot") text)
    as [|m ms] eqn:E.
  { split; [|done]. exists EmptyString, EmptyString. auto. }
  pose proof (last_elem (m :: ms) EmptyString ltac:(done)) as Hin.
  cbv beta iota zeta.
  set (line := List.last (m :: ms) EmptyString) in *. clearbody line.
  rewrite <- E in Hin.
  apply findall_from_elem in Hin as (pre & s' & g & post & -> & Hm & ->).
  apply trigger_match in Hm as (T & sep & q & -> & HT & Hsep & Hall & -> & Hq).
  split; [exact Hq|]. intros _. by exists pre, T, sep, post.
Qed.

Lemma lower_char_bang c : Py.lower_char c = "!"%char -> c = "!"%char.
Proof.
  destruct c as [[] [] [] [] [] [] [] []]; vm_compute; congruence.
Qed.

Lemma trigger_needs_bang c s :
  c <> "!"%char ->
  Re.match_ (re_trigger_line trigger) (String c s) = None.
Proof.
  intros Hc. unfold Re.match_, re_trigger_line, trigger. cbn [Re.run Re.lit].
  destruct (Ascii.eqb_spec (Py.lower_char "!") (Py.lower_char c)) as [E|];
    [|reflexivity].
  destruct Hc. apply lower_char_bang. by rewrite <- E.
Qed.

Lemma has_char_cons c d s :
  Py.has_char c (String d s) = false -> c <> d /\ Py.has_char c s = false.
Proof.
  cbn [Py.has_char]. intros [H1 H2]%orb_false_iff. split; [|exact H2].
  intros ->. by rewrite Ascii.eqb_refl in H1.
Qed.

Lemma findall_from_no_bang_app pre s :
  Py.has_char "!" pre = false -> s <> EmptyString ->
  Re.findall_from (re_trigger_line trigger) (pre ++ s) 0
  = Re.findall_from (re_trigger_line trigger) s 0.
Proof.
  intros Hpre Hs. induction pre as [|c pre IH]; [reflexivity|].
  apply has_char_cons in Hpre as [Hc Hpre].
  rewrite str_cons. cbn [Re.findall_from].
  rewrite trigger_needs_bang by congruence. by apply IH.
Qed.

Lemma findall_from_no_bang s :
  Py.has_char "!" s = false ->
  Re.findall_from (re_trigger_line trigger) s 0 = [].
Proof.
  intros Hs. induction s as [|c s IH]; [reflexivity|].
  apply has_char_cons in Hs as [Hc Hs].
  cbn [Re.findall_from]. rewrite trigger_needs_bang by congruence.
  by apply IH.
Qed.

Lemma findall_from_skip r a s :
  Re.findall_from r (a ++ s) (String.length a) = Re.findall_from r s 0.
Proof. induction a as [|c a IH]; [reflexivity|]. by rewrite str_cons. Qed.

Lemma trigger_match_request T sep q tail :
  Py.lower T = trigger ->
  sep <> EmptyString -> all_chars Re.not_hyphen_word sep = true ->
  all_chars Re.not_terminal q = true ->
  match (q ++ tail)%string with
  | String c _ => Re.not_hyphen_word c = false
  | EmptyString => True
  end ->
  match tail with
  | String t _ => Re.terminal t = true
  | EmptyString => True
  end ->
  Re.match_ (re_trigger_line trigger) (T ++ sep ++ q ++ tail)
  = Some (Some (q ++ Py.take 1 tail)%string, Py.drop 1 tail).
Proof.
  intros HT Hsep Hall Hq Hstart Htail.
  unfold Re.match_, re_trigger_line. cbn [Re.run].
  rewrite (lit_app trigger T) by by rewrite HT.
  destruct sep as [|c sep]; [done|].
  cbn [all_chars] in Hall. apply andb_true_iff in Hall as [Hc Hall].
  rewrite str_cons, Hc.
  apply star_greedy; [exact Hall| |exact Hstart].
  apply star_greedy; [exact Hq| |].
  - destruct tail as [|t rest].
    + cbn [Re.or_else Py.take Py.drop].
      by rewrite consumed_app, str_app_nil_r.
    + rewrite Htail. cbn [Re.or_else Py.take Py.drop].
      replace (q ++ String t rest)%string
        with ((q ++ String t EmptyString) ++ rest)%string
        by by rewrite str_app_assoc.
      by rewrite consumed_app.
  - destruct tail as [|t rest]; [done|].
    unfold Re.not_terminal. by rewrite Htail.
Qed.

(** X18.  For a text with one request, that is the trigger word in any
    letter case, separators, and a query without [!], [?] and [.] that
    ends the text or is ended by one of them, [get_trigger_line] returns
    the query with that one character, provided no [!] stands before the
    trigger word or behind the end of the query. A second trigger word
    in the same sentence is not read: its [!] ends the query. *)
Theorem trigger_line_of_a_request pre T sep q tail :
  Py.has_char "!" pre = false ->
  Py.lower T = trigger ->
  sep <> EmptyString -> all_chars Re.not_hyphen_word sep = true ->
  all_chars Re.not_terminal q = true ->
  match (q ++ tail)%string with
  | String c _ => Re.not_hyphen_word c = false
  | EmptyString => True
  end ->
  match tail with
  | String t rest => Re.terminal t = true /\ Py.has_char "!" rest = false
  | EmptyString => True
  end ->
  get_trigger_line (pre ++ T ++ sep ++ q ++ tail)
  = (q ++ Py.take 1 tail)%string.
Proof.
  intros Hpre HT Hsep Hall Hq Hstart Htail.
  unfold get_trigger_line, get_trigger_line_with, Re.findall. fold trigger.
  destruct T as [|c0 T']; [discriminate HT|].
  rewrite findall_from_no_bang_app by done.
  set (s := (String c0 T' ++ sep ++ q ++ tail)%string).
  assert (Hm : Re.match_ (re_trigger_line trigger) s
               = Some (Some (q ++ Py.take 1 tail)%string, Py.drop 1 tail)).
  { apply trigger_match_request; try done.
    by destruct tail as [|t rest]; [|destruct Htail]. }
  assert (Hs : s = String c0 ((T' ++ sep ++ q ++ Py.take 1 tail)
                              ++ Py.drop 1 tail)%string).
  { unfold s. rewrite str_cons. f_equal.
    rewrite !str_app_assoc. by rewrite (str_take_drop 1 tail). }
  assert (Hlen : String.length s - String.length (Py.drop 1 tail) - 1
                 = String.length (T' ++ sep ++ q ++ Py.take 1 tail)%string).
  { rewrite Hs. cbn [String.length]. rewrite str_length_app. lia. }
  assert (Hrest : Re.findall_from (re_trigger_line trigger)
                    (Py.drop 1 tail) 0 = []).
  { destruct tail as [|t rest]; [reflexivity|].
    apply findall_from_no_bang. by destruct Htail. }
  revert Hm Hlen. rewrite Hs. intros Hm Hlen.
  cbn [Re.findall_from]. rewrite Hm, Hlen, findall_from_skip, Hrest.
  reflexivity.
Qed.

End TriggerLine.

(** ** process_flags on plain text, twice, and its exit *)

Section FlagParsing.
Import matching plan_bot.

Lemma parse_optional_plain tok :
  Py.startswith tok "-" = false -> _parse_optional tok = Ok None.
Proof.
  destruct tok as [|c tok]; [reflexivity|].
  unfold Py.startswith. cbn [Py.strip_prefix]. unfold _parse_optional.
  rewrite (Ascii.eqb_sym c).
  destruct (Ascii.eqb "-" c); [discriminate|reflexivity].
Qed.

Lemma arg_patterns_plain toks :
  Forall (fun tok => Py.startswith tok "-" = false) toks ->
  arg_patterns toks = Ok (map (fun _ => A) toks).
Proof.
  induction 1 as [|tok toks Htok _ IH]; [reflexivity|].
  cbn [arg_patterns].
  destruct (String.eqb_spec tok "--") as [->|_];
    [vm_compute in Htok; discriminate Htok|].
  by rewrite (parse_optional_plain _ Htok), IH.
Qed.

Lemma consume_at_positional toks pats ns extras :
  length pats = length toks ->
  match pats with O _ _ :: _ => False | _ => True end ->
  consume (zip toks pats) ns extras
  = Ok (mkNamespace (ns_parent ns) (ns_why_warren ns) (ns_state_of_race ns)
          toks, extras).
Proof.
  intros Hlen Hhead.
  assert (Hfst : map fst (zip toks pats) = toks) by by apply fst_zip_all.
  destruct toks as [|tok toks], pats as [|[| |] pats];
    try discriminate Hlen; try done; cbn [zip zip_with consume];
    cbn [zip zip_with] in Hfst; by rewrite Hfst.
Qed.

(** X19.  On a text in which no word starts with a hyphen
    [process_flags] does not exit: it returns the words of the text
    joined by single blanks, and no option. *)
Theorem process_flags_without_hyphens text :
  Forall (fun tok => Py.startswith tok "-" = false) (Py.split text) ->
  process_flags text = Ok (Py.join " " (Py.split text), ∅).
Proof.
  intros H. unfold process_flags, parse_known_args.
  rewrite (arg_patterns_plain _ H). cbn [rbind].
  rewrite consume_at_positional; [reflexivity|by rewrite length_map|].
  by destruct (Py.split text).
Qed.

Lemma arg_patterns_app leading toks pats :
  Forall (fun tok => tok <> "--") leading ->
  arg_patterns (leading ++ toks) = Ok pats ->
  arg_patterns toks = Ok (drop (length leading) pats).
Proof.
  intros H; revert pats; induction H as [|tok leading Htok _ IH];
    intros pats; [done|].
  cbn [app arg_patterns].
  destruct (String.eqb_spec tok "--") as [->|_]; [done|].
  destruct (_parse_optional tok); [|discriminate]. cbn [rbind].
  destruct (arg_patterns (leading ++ toks)); [|discriminate]. cbn [rbind].
  intros [= <-]. by apply IH.
Qed.

Lemma ends_options_pattern tok toks pats :
  ends_options tok -> arg_patterns (tok :: toks) = Ok pats ->
  match pats with O _ _ :: _ => False | _ => True end.
Proof.
  intros Hend. cbn [arg_patterns].
  destruct (String.eqb_spec tok "--") as [->|Hne].
  - by intros [= <-].
  - destruct Hend as [-> | ->]; [done|]. cbn [rbind].
    destruct (arg_patterns toks); [|discriminate]. by intros [= <-].
Qed.

(** X20.  What [process_flags] returns as the remaining text is a fixed
    point: run on it again, [process_flags] returns the same text and no
    option. *)
Theorem process_flags_idempotent text remaining options :
  process_flags text = Ok (remaining, options) ->
  process_flags remaining = Ok (remaining, ∅).
Proof.
  unfold process_flags at 1, parse_known_args.
  destruct (arg_patterns (Py.split text)) as [pats|] eqn:Hp;
    [|discriminate]. cbn [rbind].
  destruct (consume _ _ _) as [[ns extras]|] eqn:Hc; [|discriminate].
  cbn [rbind fst]. intros [= <- _].
  destruct (consume_leading _ _ _ _ _ _ Hp Hc)
    as (leading & Htoks & HF & Hend & _).
  assert (Hw : Forall is_word (rest ns)).
  { pose proof (split_words text) as Hall. rewrite Htoks in Hall.
    by apply Forall_app in Hall as [_ ?]. }
  unfold process_flags, parse_known_args.
  rewrite (split_join _ Hw).
  rewrite Htoks in Hp. apply arg_patterns_app in Hp.
  2:{ eapply Forall_impl; [exact HF|]. by intros tok [? _]. }
  rewrite Hp. cbn [rbind].
  rewrite consume_at_positional; [reflexivity| |].
  - by apply arg_patterns_length.
  - destruct (rest ns) as [|tok toks]; [by injection Hp as <-|].
    eapply ends_options_pattern; eauto.
Qed.

Lemma process_flags_exit text e :
  process_flags text = Raise e -> e = SystemExit 2.
Proof.
  unfold process_flags, parse_known_args.
  assert (Hp : forall toks e1,
             arg_patterns toks = Raise e1 -> e1 = SystemExit 2).
  { induction toks as [|tok toks IH]; intros e1; [discriminate|].
    cbn [arg_patterns]. destruct (String.eqb tok "--"); [discriminate|].
    destruct (_parse_optional tok) as [t|e2] eqn:Ht.
    - cbn [rbind]. destruct (arg_patterns toks) as [ps|e3];
        [discriminate|]. cbn [rbind]. intros [= <-]. by apply IH.
    - cbn [rbind]. intros [= <-]. revert Ht. unfold _parse_optional.
      repeat case_match; congruence. }
  assert (Hc : forall args ns extras e1,
            consume args ns extras = Raise e1 -> e1 = SystemExit 2).
  { induction args as [|[tok pat] args IH]; intros ns extras e1;
      [discriminate|].
    cbn [consume]. destruct pat as [|[a|] [x|]|]; try discriminate;
      try apply IH. congruence. }
  destruct (arg_patterns (Py.split text)) as [pats|e1] eqn:E.
  - cbn [rbind]. destruct (consume _ _ _) as [[ns extras]|e2] eqn:E2;
      [discriminate|]. cbn [rbind]. intros [= <-]. by eapply Hc.
  - cbn [rbind]. intros [= <-]. by eapply Hp.
Qed.

End FlagParsing.

(** ** What a call of process_post does to the outside *)

Section Effects.
Import matching plan_bot.

Variable lib : Libraries.
Variable sv : Services.

Lemma reply_outcome_events send simulate to s evs ro :
  reply_outcome sv send simulate to s evs ro ->
  evs = [] \/ evs = [RedditReply to s] /\ send = true /\ simulate = false.
Proof. destruct 1; auto. Qed.

Lemma run_shape_trace post plans verbatims send simulate skip_tracking ms
  w0 r w' :
  run_shape lib sv post plans verbatims send simulate skip_tracking ms w0 r w' ->
  post_ids_processed w' = post_ids_processed w0
  /\ (skip_tracking = true -> posts_db w' = posts_db w0)
  /\ exists evs,
       log w' = log w0 ++ evs
       /\ run_trace post send simulate skip_tracking evs.
Proof.
  intros H. split; [by eapply run_shape_processed|].
  split.
  { intros ->. destruct H; reflexivity. }
  unfold run_trace.
  destruct H as [e He|post_text options names e Hf
                |post_text options names mi rec e Hf Hm Hd
                |post_text options names mi rec to s evs e Hf Hm Hd Hro
                |post_text options names mi rec to s evs did deleted u
                   Hf Hm Hd Hro Hu].
  - exists []. split; [by rewrite app_nil_r|].
    exists [], [], [], []. repeat split; auto.
  - eexists. split; [reflexivity|].
    exists (calls post_text ("match_verbatim" :: names)), [], [], [].
    split; [by rewrite !app_nil_r|].
    split; [apply calls_are_calls|]. auto.
  - exists (calls post_text ("match_verbatim" :: names)
            ++ if skip_tracking then [] else [DbSet (post_id post) rec]).
    split.
    { unfold written. destruct skip_tracking; simpl;
        by rewrite ?app_nil_r, <- ?app_assoc. }
    exists (calls post_text ("match_verbatim" :: names)),
      (if skip_tracking then [] else [DbSet (post_id post) rec]), [], [].
    split; [by rewrite !app_nil_r|].
    split; [apply calls_are_calls|].
    split; [|auto]. destruct skip_tracking; eauto.
  - exists (calls post_text ("match_verbatim" :: names)
            ++ (if skip_tracking then [] else [DbSet (post_id post) rec])
            ++ (ReplyAttempt to s :: evs) ++ []).
    split.
    { unfold written. destruct skip_tracking; simpl;
        by rewrite ?app_nil_r, <- ?app_assoc. }
    exists (calls post_text ("match_verbatim" :: names)),
      (if skip_tracking then [] else [DbSet (post_id post) rec]),
      (ReplyAttempt to s :: evs), [].
    split; [reflexivity|].
    split; [apply calls_are_calls|].
    split; [destruct skip_tracking; eauto|].
    split; [|auto]. right. exists to, s.
    destruct (reply_outcome_events _ _ _ _ _ _ Hro) as [->|(-> & ? & ?)]; auto.
  - exists (calls post_text ("match_verbatim" :: names)
            ++ (if skip_tracking then [] else [DbSet (post_id post) rec])
            ++ (ReplyAttempt to s :: evs)
            ++ (if skip_tracking then [] else [DbUpdate (post_id post) u])).
    split.
    { unfold updated, written. destruct skip_tracking; simpl;
        by rewrite ?app_nil_r, <- ?app_assoc. }
    exists (calls post_text ("match_verbatim" :: names)),
      (if skip_tracking then [] else [DbSet (post_id post) rec]),
      (ReplyAttempt to s :: evs),
      (if skip_tracking then [] else [DbUpdate (post_id post) u]).
    split; [reflexivity|].
    split; [apply calls_are_calls|].
    split; [destruct skip_tracking; eauto|].
    split; [|destruct skip_tracking; eauto].
    right. exists to, s.
    destruct (reply_outcome_events _ _ _ _ _ _ Hro) as [->|(-> & ? & ?)]; auto.
Qed.

Lemma process_post_trace post plans verbatims arg send simulate
  skip_tracking ms w :
  let w' := (process_post lib sv post plans verbatims arg send simulate
               skip_tracking ms w).2 in
  post_ids_processed w'
  = marked arg (post_id post) (post_ids_processed w)
  /\ (skip_tracking = true -> posts_db w' = posts_db w)
  /\ exists evs,
       log w' = log w ++ evs
       /\ run_trace post send simulate skip_tracking evs.
Proof.
  intros w'. subst w'.
  assert (Hnone : run_trace post send simulate skip_tracking []).
  { exists [], [], [], []. repeat split; auto. }
  assert (Hseen : post_id post ∈ post_ids_processed w ->
            let w' := (process_post lib sv post plans verbatims callers_set
                         send simulate skip_tracking ms w).2 in
            post_ids_processed w'
            = marked callers_set (post_id post) (post_ids_processed w)
            /\ (skip_tracking = true -> posts_db w' = posts_db w)
            /\ exists evs,
                 log w' = log w ++ evs
                 /\ run_trace post send simulate skip_tracking evs).
  { intros Hin. rewrite process_post_seen by exact Hin. cbn [snd marked].
    split; [symmetry; by apply subseteq_union_1_L, singleton_subseteq_l|].
    split; [done|].
    exists []. by rewrite app_nil_r. }
  assert (Hnew' : (arg = callers_set -> post_id post ∉ post_ids_processed w)
                  \/ (arg = callers_set
                      /\ post_id post ∈ post_ids_processed w)).
  { destruct arg; [by left|].
    destruct (decide (post_id post ∈ post_ids_processed w)); auto. }
  destruct Hnew' as [Hnew'|[-> Hin]]; [|by apply Hseen].
  clear Hseen.
  destruct (add_processed_keeps arg (post_id post) w) as [Hdb Hlog].
  assert (Hids : post_ids_processed (add_processed arg (post_id post) w).2
                 = marked arg (post_id post) (post_ids_processed w))
    by by destruct arg.
  destruct (skipped_or_not post) as [Hns|[reason Hr]].
  - pose proof (process_post_not_skipped lib sv post plans verbatims arg
                  send simulate skip_tracking ms w Hns Hnew') as H.
    destruct (process_post _ _ _ _ _ _ _ _ _ _ _) as [r w'].
    apply run_shape_trace in H as (H1 & H2 & evs & H3 & H4).
    cbn [snd]. rewrite H1, H3, Hids, Hlog.
    split; [done|]. split; [|eauto].
    intros Hs. by rewrite H2, Hdb.
  - rewrite (process_post_skipped lib sv _ _ _ _ _ _ _ _ _ reason Hr Hnew').
    destruct (create_db_record _ _ _ _ _ _ _ _ _ _) as [rec|e]; cbn [snd].
    + unfold written.
      destruct skip_tracking; cbn [post_ids_processed posts_db log].
      * rewrite Hids, Hdb, Hlog. split; [done|]. split; [done|].
        exists []. by rewrite app_nil_r.
      * rewrite Hids, Hlog. split; [done|]. split; [done|].
        eexists. split; [reflexivity|].
        exists [], [DbSet (post_id post) rec], [], [].
        repeat split; eauto.
    + rewrite Hids, Hdb, Hlog. split; [done|]. split; [done|].
      exists []. by rewrite app_nil_r.
Qed.

Lemma run_trace_posted post send simulate skip_tracking evs :
  run_trace post send simulate skip_tracking evs ->
  posted_replies evs = []
  \/ (exists to s, posted_replies evs = [(to, s)])
     /\ send = true /\ simulate = false.
Proof.
  intros (cs & db1 & att & db2 & -> & Hcs & Hdb1 & Hatt & Hdb2).
  unfold posted_replies. rewrite !omap_app.
  assert (omap (fun e => match e with
                         | RedditReply to s => Some (to, s)
                         | _ => None
                         end) cs = []) as ->.
  { induction Hcs as [|e cs (n & t & ->) _ IH]; [done|]. exact IH. }
  assert (omap (fun e => match e with
                         | RedditReply to s => Some (to, s)
                         | _ => None
                         end) db1 = []) as ->
    by by destruct Hdb1 as [->|(_ & rec & ->)].
  assert (omap (fun e => match e with
                         | RedditReply to s => Some (to, s)
                         | _ => None
                         end) db2 = []) as ->
    by by destruct Hdb2 as [->|(_ & u & ->)].
  rewrite app_nil_r. simpl.
  destruct Hatt as [->|(to & s & [->|(-> & ? & ?)])]; [by left|by left|].
  right. eauto.
Qed.

Lemma run_trace_writes post send simulate evs :
  run_trace post send simulate true evs ->
  Forall (fun e => ~ is_db_write e) evs.
Proof.
  intros (cs & db1 & att & db2 & -> & Hcs & Hdb1 & Hatt & Hdb2).
  destruct Hdb1 as [->|[[=] _]]. destruct Hdb2 as [->|[[=] _]].
  rewrite app_nil_r. simpl. apply Forall_app. split.
  - eapply Forall_impl; [exact Hcs|]. by intros e (n & t & ->) [].
  - destruct Hatt as [->|(to & s & [->|(-> & ? & ?)])];
      repeat (apply Forall_cons; split; [by intros []|]);
      apply Forall_nil_2.
Qed.

(** X21.  When the argument parser exits on the trigger line of a post
    that passes the skip checks, which it does with status 2 and with
    nothing else, [process_post] raises that SystemExit: the post id is
    in the caller's set, and nothing is written, no strategy is called
    and no reply is attempted. *)
Theorem parser_exit_ends_the_run post plans verbatims arg send simulate
  skip_tracking ms w e :
  not_skipped post ->
  (arg = callers_set -> post_id post ∉ post_ids_processed w) ->
  process_flags (get_trigger_line (text post)) = Raise e ->
  e = SystemExit 2
  /\ process_post lib sv post plans verbatims arg send simulate
       skip_tracking ms w
     = (Raise (SystemExit 2),
        mkWorld (marked arg (post_id post) (post_ids_processed w))
          (posts_db w) (log w)).
Proof.
  intros Hns Hnew Hf. pose proof (process_flags_exit _ _ Hf) as ->.
  split; [reflexivity|].
  pose proof (process_post_not_skipped lib sv post plans verbatims arg send
                simulate skip_tracking ms w Hns Hnew) as H.
  destruct (process_post _ _ _ _ _ _ _ _ _ _ _) as [r w'].
  inversion H; subst; try congruence.
  f_equal; [congruence|]. destruct arg, w; reflexivity.
Qed.

(** X22.  The chain of strategies in [process_post] reads one option
    only: two sets of options that agree on "why_warren" give the same
    result and the same calls. The state-of-race flag in particular has
    no effect, since [request_state_of_race] is called without the
    options. *)
Theorem only_the_why_warren_flag_is_read plans verbatims post_text
  options options' ms w :
  ("why_warren" ∈ options <-> "why_warren" ∈ options') ->
  match_info_of lib plans verbatims post_text options ms w
  = match_info_of lib plans verbatims post_text options' ms w.
Proof.
  intros H. unfold match_info_of, match_verbatim.
  by rewrite (bool_decide_ext _ _ H).
Qed.

(** X23.  With [skip_tracking] set, no call of [process_post] writes
    into the audit store: the store is as it was and the events of the
    call hold neither a set nor an update. *)
Theorem no_tracking_leaves_the_store post plans verbatims arg send simulate
  ms w :
  let w' := (process_post lib sv post plans verbatims arg send simulate
               true ms w).2 in
  posts_db w' = posts_db w
  /\ exists evs, log w' = log w ++ evs
                 /\ Forall (fun e => ~ is_db_write e) evs.
Proof.
  destruct (process_post_trace post plans verbatims arg send simulate true
              ms w) as (_ & Hdb & evs & Hlog & Htr).
  split; [by apply Hdb|]. exists evs. split; [exact Hlog|].
  by eapply run_trace_writes.
Qed.

(** X24.  A call of [process_post] posts at most one reply, and it posts
    one only when [send] is set and [simulate] is not. *)
Theorem replies_are_posted_on_send_only post plans verbatims arg send
  simulate skip_tracking ms w :
  let w' := (process_post lib sv post plans verbatims arg send simulate
               skip_tracking ms w).2 in
  exists evs,
    log w' = log w ++ evs
    /\ length (posted_replies evs) <= 1
    /\ (posted_replies evs <> [] -> send = true /\ simulate = false).
Proof.
  destruct (process_post_trace post plans verbatims arg send simulate
              skip_tracking ms w) as (_ & _ & evs & Hlog & Htr).
  exists evs. split; [exact Hlog|].
  destruct (run_trace_posted _ _ _ _ _ Htr)
    as [->|((to & s & ->) & Hsend & Hsim)]; simpl; split; auto; done.
Qed.

(** X25.  After every call of [process_post] with the caller's set,
    however the call ends, the set is the set of before with the id of
    the post added; nothing else is added and nothing is removed.
    Without a caller's set nothing is kept. *)
Theorem processed_set_gains_the_post_id post plans verbatims arg send
  simulate skip_tracking ms w :
  post_ids_processed
    (process_post lib sv post plans verbatims arg send simulate
       skip_tracking ms w).2
  = marked arg (post_id post) (post_ids_processed w).
Proof.
  apply (process_post_trace post plans verbatims arg send simulate
           skip_tracking ms w).
Qed.

(** X26.  For a post whose author is [None], locked or not,
    [process_post] raises AttributeError when it builds the skip record:
    the id is marked as processed, and no record of the skip is written. *)
Theorem post_without_author_raises post plans verbatims arg send simulate
  skip_tracking ms w :
  author post = None ->
  (arg = callers_set -> post_id post ∉ post_ids_processed w) ->
  process_post lib sv post plans verbatims arg send simulate skip_tracking
    ms w
  = (Raise AttributeError,
     mkWorld (marked arg (post_id post) (post_ids_processed w))
       (posts_db w) (log w)).
Proof.
  intros Ha Hnew.
  assert (exists reason, skip_reason post reason) as [reason Hr].
  { destruct (locked post) eqn:Hl; eexists;
      [by apply skip_locked|by apply skip_no_author]. }
  rewrite (process_post_skipped lib sv _ _ _ _ _ _ _ _ _ reason Hr Hnew).
  unfold create_db_record. rewrite Ha.
  destruct arg, w; reflexivity.
Qed.

(** X27.  For a post with an author that one of the skip checks stops,
    [process_post] returns after writing one record, marked processed
    and skipped, whose skip reason is that of the first check that holds
    in the order locked, own post, no trigger; with [skip_tracking] it
    returns without writing. No strategy is called and no reply is
    attempted. *)
Theorem skip_reason_is_the_first_check (post : Post) plans verbatims arg
  send simulate (skip_tracking : bool) ms w reason :
  skip_reason post reason ->
  is_Some (author post) ->
  (arg = callers_set -> post_id post ∉ post_ids_processed w) ->
  if skip_tracking
  then process_post lib sv post plans verbatims arg send simulate
         skip_tracking ms w
       = (Ok tt,
          mkWorld (marked arg (post_id post) (post_ids_processed w))
            (posts_db w) (log w))
  else recorded_skip post reason w
         (process_post lib sv post plans verbatims arg send simulate
            skip_tracking ms w).
Proof.
  intros Hr [a Ha] Hnew.
  rewrite (process_post_skipped lib sv _ _ _ _ _ _ _ _ _ reason Hr Hnew).
  destruct (create_db_record_Ok post a None None None None None false true
              true (Some reason) Ha) as [rec Hrec].
  rewrite Hrec. unfold written.
  destruct skip_tracking.
  - destruct arg, w; reflexivity.
  - apply create_db_record_fields in Hrec as (Hp & Hrm & Hsk & Hsr & _).
    destruct (add_processed_keeps arg (post_id post) w) as [Hdb Hlog].
    exists rec. cbn [log posts_db]. rewrite Hdb, Hlog. repeat split; auto.
Qed.

End Effects.

(** ** The parent flag *)

Section ParentReplies.
Import matching plan_bot.

Variable lib : Libraries.
Variable sv : Services.

Lemma replies_as_asked_none post options (w w' : World) r evs :
  log w' = log w ++ evs ->
  (forall to s, ReplyAttempt to s ∉ evs) ->
  replies_as_asked post options w (r, w').
Proof.
  intros Hlog Hno. exists evs. split; [exact Hlog|].
  intros to s Hin. by destruct (Hno to s).
Qed.

Lemma no_attempt_in_calls t names to s : ReplyAttempt to s ∉ calls t names.
Proof.
  unfold calls. by intros (n & [=] & _)%list_elem_of_fmap.
Qed.

Lemma no_attempt_in_written post (st : bool) rec t names to s :
  ReplyAttempt to s ∉
    calls t names ++ (if st then [] else [DbSet (post_id post) rec]).
Proof.
  intros [H|H]%elem_of_app; [by apply no_attempt_in_calls in H|].
  destruct st; [by apply elem_of_nil in H|].
  by apply list_elem_of_singleton in H.
Qed.

Lemma log_written post st w rec :
  log (written post st w rec)
  = log w ++ (if st then [] else [DbSet (post_id post) rec]).
Proof. unfold written. destruct st; simpl; by rewrite ?app_nil_r. Qed.

Lemma log_updated post st w rec u :
  log (updated post st w rec u)
  = log w ++ (if st then [] else [DbUpdate (post_id post) u]).
Proof. unfold updated. destruct st; simpl; by rewrite ?app_nil_r. Qed.

Local Opaque process_flags get_trigger_line match_info_of create_db_record
  build_plan_response_text build_verbatim_response_text
  build_all_plans_response_text build_state_of_race_response_text
  build_no_match_response_text Re.search Py.contains Py.lower.

(** X28.  On a post that passes the skip checks, every reply attempt of
    [process_post] goes to the parent of the post when the parent flag
    is among the options of the trigger line and the post has a parent,
    and to the post itself otherwise; with the flag, the reply text
    starts with the line that names the author of the post as the one
    who asked. *)
Theorem parent_flag_redirects_the_reply post plans verbatims arg send
  simulate skip_tracking ms w post_text options :
  not_skipped post ->
  (arg = callers_set -> post_id post ∉ post_ids_processed w) ->
  process_flags (get_trigger_line (text post)) = Ok (post_text, options) ->
  replies_as_asked post options w
    (process_post lib sv post plans verbatims arg send simulate
       skip_tracking ms w).
Proof.
  intros (Hl & (a & Ha & Hown) & Htrig) Hnew Hf.
  unfold process_post.
  unfold bind at 1.
  assert (Hseen : already_processed arg (post_id post) w = (Ok false, w)).
  { unfold already_processed. destruct arg; [reflexivity|].
    rewrite bool_decide_eq_false_2; auto. }
  rewrite Hseen.
  unfold bind at 1.
  destruct (add_processed_keeps arg (post_id post) w) as [_ Hlog0].
  destruct (add_processed arg (post_id post) w) as [r0 w0] eqn:Hadd.
  assert (r0 = Ok tt) as -> by (unfold add_processed in Hadd; congruence).
  cbn [snd] in Hlog0.
  rewrite Hl, Ha, Hown.
  apply search_lit_Some in Htrig.
  rewrite (bool_decide_eq_true_2 _ Htrig).
  cbn [negb snd].
  unfold bind at 1. unfold lift at 1. rewrite Hf.
  cbn [fst snd].
  unfold bind at 1.
  destruct (match_info_of_calls lib plans verbatims post_text options ms w0)
    as [names Hw1].
  destruct (match_info_of lib plans verbatims post_text options ms w0)
    as [r1 w1] eqn:Hm.
  cbn [snd] in Hw1; subst w1.
  set (cs := calls post_text ("match_verbatim" :: names)).
  assert (Hcs : forall r,
            replies_as_asked post options w (r, add_log w0 cs)).
  { intros r. apply (replies_as_asked_none _ _ _ _ _ cs).
    - unfold add_log; simpl. by rewrite Hlog0.
    - intros to s. apply no_attempt_in_calls. }
  destruct r1 as [[mi|]|e]; [|apply Hcs|apply Hcs].
  unfold bind at 1. unfold lift at 1.
  destruct (get_id id (mi_plan mi)) as [plan_id|e] eqn:Hp; [|apply Hcs].
  unfold bind at 1. unfold lift at 1.
  destruct (get_id verbatim_id_of (mi_verbatim mi)) as [verbatim_id|e] eqn:Hv;
    [|apply Hcs].
  unfold bind at 1. unfold lift at 1.
  destruct (create_db_record post (get (mi_match mi)) (get (mi_confidence mi))
              plan_id verbatim_id None false true false None)
    as [rec|e] eqn:Hrec; [|apply Hcs].
  unfold bind at 1.
  set (w1 := add_log w0 cs) in *.
  assert (Hset : (if negb skip_tracking
                  then db_set (post_id post) rec else ret ()) w1
                 = (Ok tt, written post skip_tracking w1 rec)).
  { unfold written. destruct skip_tracking; reflexivity. }
  rewrite Hset. clear Hset. cbv beta iota.
  set (w2 := written post skip_tracking w1 rec).
  assert (Hlog2 : log w2
                  = log w ++ cs
                    ++ (if skip_tracking then []
                        else [DbSet (post_id post) rec])).
  { unfold w2. rewrite log_written. unfold w1, add_log; simpl.
    by rewrite Hlog0, <- app_assoc. }
  assert (Hw2 : forall r, replies_as_asked post options w (r, w2)).
  { intros r. eapply replies_as_asked_none; [exact Hlog2|].
    intros to s. apply no_attempt_in_written. }
  unfold bind at 1.
  match goal with
  | |- context [lift ?b w2] =>
      unfold lift at 1;
      destruct b as [[[text_ reply_type] operation]|e] eqn:Hb
  end; [|apply Hw2].
  cbn [fst snd].
  unfold bind at 1. unfold lift at 1.
  assert (Hrs : exists reply_string,
            (if bool_decide ("parent" ∈ options)
             then rbind (parent_reply_prefix post)
                    (fun pre => Ok (pre ++ text_)%string)
             else Ok text_) = Ok reply_string
            /\ ("parent" ∈ options ->
                reply_string
                = ("/u/" ++ name a ++ " asked me to chime in!"
                   ++ nl ++ nl ++ text_)%string)).
  { destruct (bool_decide_reflect ("parent" ∈ options)) as [Hpar|Hpar].
    - unfold parent_reply_prefix. rewrite Ha. eexists. split; [reflexivity|].
      intros _. by rewrite !str_app_assoc.
    - eexists. split; [reflexivity|]. done. }
  destruct Hrs as (reply_string & -> & Hprefix).
  unfold bind at 1.
  destruct (reply_run_target sv post reply_string
              (bool_decide ("parent" ∈ options)) send simulate w2)
    as (evs & ro & Hro & ->).
  set (to := reply_target post (bool_decide ("parent" ∈ options))) in *.
  assert (Hatt : forall r (w' : World) db,
            log w' = log w2 ++ (ReplyAttempt to reply_string :: evs) ++ db ->
            (forall to' s', ReplyAttempt to' s' ∉ db) ->
            replies_as_asked post options w (r, w')).
  { intros r w' db Hlog Hdb. eexists. split.
    { rewrite Hlog, Hlog2, <- !app_assoc. reflexivity. }
    intros to' s' Hin.
    assert (to' = to /\ s' = reply_string) as [-> ->].
    { apply elem_of_app in Hin as [Hin|Hin];
        [by apply no_attempt_in_calls in Hin|].
      apply elem_of_app in Hin as [Hin|Hin].
      { destruct skip_tracking; [by apply elem_of_nil in Hin|].
        by apply list_elem_of_singleton in Hin. }
      apply elem_of_app in Hin as [Hin|Hin]; [|by apply Hdb in Hin].
      apply elem_of_cons in Hin as [[= -> ->]|Hin]; [done|].
      destruct Hro; try by apply elem_of_nil in Hin.
      all: by apply list_elem_of_singleton in Hin. }
    split; [reflexivity|]. intros Hpar. exists a, text_. auto. }
  destruct ro as [[did_reply deleted]|e].
  2:{ apply (Hatt _ _ []); [|intros ? ? ?%elem_of_nil; done].
      unfold add_log; simpl. by rewrite app_nil_r. }
  cbn [fst snd].
  set (u := {| u_reply_type := reply_type |}). clearbody u.
  assert (Hfin :
    (if negb skip_tracking then db_update (post_id post) u else ret ())
      (add_log w2 (ReplyAttempt to reply_string :: evs))
    = (Ok tt,
       updated post skip_tracking
         (add_log w2 (ReplyAttempt to reply_string :: evs)) rec u)).
  { unfold updated, w2, written. destruct skip_tracking; [reflexivity|].
    unfold db_update; simpl. rewrite lookup_insert_eq. reflexivity. }
  rewrite Hfin.
  apply (Hatt _ _ (if skip_tracking then []
                   else [DbUpdate (post_id post) u])).
  - rewrite log_updated. unfold add_log; simpl. by rewrite <- app_assoc.
  - intros to' s' Hin. destruct skip_tracking; [by apply elem_of_nil in Hin|].
    by apply list_elem_of_singleton in Hin.
Qed.

End ParentReplies.

(** ** scripts/parse_plans.py: _flatten *)

Section Flatten.
Import parse_plans.

Lemma value_nested_ind (P : value -> Prop) :
  (forall v, ~ is_list v -> P v) ->
  (forall items, Forall P items -> P (VList items)) ->
  forall v, P v.
Proof.
  intros HA HL. fix IH 1. intros v.
  destruct v as [|b|n|q|s|items|items];
    try (by apply HA; intros []).
  apply HL.
  induction items as [|x items IHitems]; constructor;
    [apply IH|exact IHitems].
Qed.

Lemma flatten_atoms l :
  Forall (fun v => ~ is_list v) l -> flat_map _flatten l = l.
Proof.
  induction 1 as [|x l Hx _ IH]; [done|]. cbn [flat_map]. rewrite IH.
  destruct x; try reflexivity. destruct Hx. exact I.
Qed.

(** X29.  [_flatten] returns a list without lists in it; flattening that
    list again gives it back; and a value that is not a list is returned
    as the one element of a list. *)
Theorem flatten_gives_a_flat_list x :
  Forall (fun v => ~ is_list v) (_flatten x)
  /\ _flatten (VList (_flatten x)) = _flatten x
  /\ (~ is_list x -> _flatten x = [x]).
Proof.
  assert (H : Forall (fun v => ~ is_list v) (_flatten x)).
  { induction x as [v Hv|items IH] using value_nested_ind.
    - destruct v; by repeat constructor.
    - cbn [_flatten].
      induction IH as [|y items Hy _ IH']; [constructor|].
      cbn [flat_map]. apply Forall_app. by split. }
  split; [exact H|]. split; [by apply flatten_atoms|].
  intros Hx. destruct x; try reflexivity. destruct Hx. exact I.
Qed.

End Flatten.

(** ** main.py: the file of the posts replied to *)

Section RepliedTo.
Import main.

Lemma read_text_one_line s :
  all_chars (fun c => negb (Ascii.eqb c carriage_return)) s = true ->
  read_text s = s.
Proof.
  induction s as [|c s IH]; [done|]. cbn [all_chars read_text].
  intros [Hc Hs]%andb_true_iff. apply negb_true_iff in Hc.
  by rewrite Hc, IH.
Qed.

Lemma split_lines_from_app cur w s :
  all_chars (fun c => negb (Ascii.eqb c Re.newline)) w = true ->
  split_lines_from cur (w ++ s)%string
  = split_lines_from (cur ++ w)%string s.
Proof.
  revert cur; induction w as [|c w IH]; intros cur H.
  - by rewrite str_app_nil_r.
  - cbn [all_chars] in H. apply andb_true_iff in H as [Hc Hw].
    apply negb_true_iff in Hc.
    rewrite str_cons. cbn [split_lines_from].
    rewrite Hc, IH by exact Hw. by rewrite str_app_assoc.
Qed.

Lemma one_line_no_newline i :
  one_line i ->
  all_chars (fun c => negb (Ascii.eqb c Re.newline)) i = true.
Proof.
  apply all_chars_impl. intros c H.
  apply negb_true_iff, orb_false_iff in H as [-> _]. reflexivity.
Qed.

Lemma one_line_no_carriage_return i :
  one_line i ->
  all_chars (fun c => negb (Ascii.eqb c carriage_return)) i = true.
Proof.
  apply all_chars_impl. intros c H.
  apply negb_true_iff, orb_false_iff in H as [_ ->]. reflexivity.
Qed.

Lemma write_no_carriage_return ids :
  Forall one_line ids ->
  all_chars (fun c => negb (Ascii.eqb c carriage_return))
    (write_posts_replied_to ids) = true.
Proof.
  induction 1 as [|i ids Hi _ IH]; [done|]. cbn [write_posts_replied_to].
  rewrite !all_chars_app, IH, (one_line_no_carriage_return _ Hi).
  reflexivity.
Qed.

(** X30.  What the script writes into [posts_replied_to.txt] it reads
    back at its next start: for ids without line breaks the list read is
    the list written, without its empty ids. *)
Theorem replied_list_is_read_back ids :
  Forall one_line ids ->
  read_posts_replied_to (write_posts_replied_to ids)
  = List.filter Py.truthy ids.
Proof.
  intros Hall. unfold read_posts_replied_to.
  rewrite read_text_one_line by by apply write_no_carriage_return.
  induction Hall as [|i ids Hi _ IH]; [reflexivity|].
  cbn [write_posts_replied_to].
  rewrite split_lines_from_app by by apply one_line_no_newline.
  rewrite str_cons. cbn [split_lines_from].
  rewrite Ascii.eqb_refl. cbn [List.filter].
  change (EmptyString ++ i)%string with i.
  change (EmptyString ++ write_posts_replied_to ids)%string
    with (write_posts_replied_to ids).
  by rewrite IH.
Qed.

End RepliedTo.

(** ** The properties at concrete inputs *)

Section Instances.
Import matching plan_bot Examples.

(** C1 as it is written fails on a plan whose id is empty: the result
    of the exact-title rule is returned with an empty match and no
    operation, and the statistical strategy, which would name a match,
    is not called. *)
Lemma composite_counterexample :
  ~ (forall lib plans verbatims post_text options ms w mi,
       (match_info_of lib plans verbatims post_text options ms w).1
       = Ok (Some mi) ->
       from_option Py.truthy false (get (mi_match mi)) = true
       \/ from_option Py.truthy false (get (mi_operation mi)) = true
       \/ ms plans post_text = Ok (Some mi)).
Proof.
  intros H.
  destruct (H (lib_with models4) [plan_without_id] [basic_help]
              "Child Care" ∅ sure_of_help fresh
              {| mi_match := Val EmptyString;
                 mi_operation := Absent;
                 mi_confidence := Val 100%Q;
                 mi_plan := Val plan_without_id;
                 mi_potential_matches := Absent;
                 mi_verbatim := Absent |})
    as [Hm|[Ho|Hs]].
  - vm_compute. reflexivity.
  - discriminate Hm.
  - discriminate Ho.
  - discriminate Hs.
Qed.

(** What the chain does on that text: four calls, and the result of the
    title rule. *)
Example title_of_a_plan_without_id :
  match_info_of (lib_with models4) [plan_without_id] [basic_help]
    "Child Care" ∅ sure_of_help fresh
  = (Ok (Some {| mi_match := Val EmptyString;
                 mi_operation := Absent;
                 mi_confidence := Val 100%Q;
                 mi_plan := Val plan_without_id;
                 mi_potential_matches := Absent;
                 mi_verbatim := Absent |}),
     add_log fresh
       (calls "Child Care"
          ["match_verbatim"; "request_plan_list";
           "request_state_of_race"; "match_display_title"])).
Proof. vm_compute. reflexivity. Qed.

Lemma no_candidates_raises_witness :
  similarities models_none [] = []
  /\ _gensim_similarity (lib_with models_none) [] "child care" "lsa"
       LsiModel MatrixSimilarity (781 # 10) 50 GENSIM_V3_MODELS_PATH
       (fun _ => [])
     = Raise IndexError.
Proof.
  split; [reflexivity|].
  apply (no_candidates_raises (lib_with models_none)). reflexivity.
Defined.

Lemma potential_matches_ranked_witness :
  exists mi,
    _gensim_similarity (lib_with models4) [] "child care" "lsa" LsiModel
      MatrixSimilarity (781 # 10) 50 GENSIM_V3_MODELS_PATH (fun _ => [])
    = Ok (Some mi)
    /\ ranked_potential_matches [1 # 2; 9 # 10; 9 # 10; 3 # 5]
         ["a"; "b"; "a"; "c"] 50 mi.
Proof.
  eexists. split; [vm_compute; reflexivity|].
  apply (potential_matches_ranked (lib_with models4) [] "child care" "lsa"
           LsiModel MatrixSimilarity (781 # 10) 50 GENSIM_V3_MODELS_PATH
           (fun _ => [])).
  vm_compute. reflexivity.
Defined.



(** What that run does: the parser exits, and the log stays empty. *)
Example ambiguous_flag_ends_the_run :
  not_skipped (comment_with "!WarrenPlanBot --s" false)
  /\ (process_post (lib_with models4) (replies None)
        (comment_with "!WarrenPlanBot --s" false) [plan_help] [basic_help]
        no_set true false false no_opinion fresh)
     = (Raise (SystemExit 2), fresh).
Proof.
  split; [|reflexivity].
  split; [reflexivity|]. split.
  - eexists. split; reflexivity.
  - exists 0. reflexivity.
Qed.

Lemma deleted_target_is_a_skip_witness :
  let post := comment_with "!WarrenPlanBot help" false in
  let run e :=
    process_post (lib_with models4) (replies (Some e)) post [plan_help]
      [basic_help] callers_set true false false no_opinion fresh in
  exists s,
    (forall e,
       rbind (response_of (replies (Some e)) post [plan_help]
                (verbatim_reply basic_help))
         (fun built => reply_string_of post ∅ built.1.1)
       = Ok s)
    /\ reply_failure_handling post false ("comment", "c1") s
         (APIException "DELETED_COMMENT") fresh
         (run (APIException "DELETED_COMMENT"))
    /\ reply_failure_handling post false ("comment", "c1") s
         (APIException "RATELIMIT") fresh (run (APIException "RATELIMIT")).
Proof.
  intros post run.
  assert (Hns : not_skipped post).
  { split; [reflexivity|]. split.
    - eexists. split; reflexivity.
    - exists 0. reflexivity. }
  assert (Hf : process_flags (get_trigger_line (text post))
               = Ok ("help", ∅)) by reflexivity.
  assert (Hm : (match_info_of (lib_with models4) [plan_help] [basic_help]
                  "help" ∅ no_opinion fresh).1
               = Ok (Some (verbatim_reply basic_help)))
    by (vm_compute; reflexivity).
  eexists. split; [intros e; reflexivity|].
  split.
  - refine (deleted_target_is_a_skip (lib_with models4)
              (replies (Some (APIException "DELETED_COMMENT"))) post
              [plan_help] [basic_help] callers_set false no_opinion fresh
              "help" ∅ (verbatim_reply basic_help) _ _
              (APIException "DELETED_COMMENT") Hns _ Hf Hm
              _ _ eq_refl eq_refl eq_refl);
      [intros _; apply not_elem_of_empty|discriminate|discriminate].
  - refine (deleted_target_is_a_skip (lib_with models4)
              (replies (Some (APIException "RATELIMIT"))) post
              [plan_help] [basic_help] callers_set false no_opinion fresh
              "help" ∅ (verbatim_reply basic_help) _ _
              (APIException "RATELIMIT") Hns _ Hf Hm
              _ _ eq_refl eq_refl eq_refl);
      [intros _; apply not_elem_of_empty|discriminate|discriminate].
Defined.

Lemma second_invocation_is_noop_witness :
  let w1 :=
    (process_post (lib_with models4) (replies None)
       (comment_with "!WarrenPlanBot help" false) [plan_help] [basic_help]
       callers_set true false false no_opinion fresh).2 in
  process_post (lib_with models4) (replies None)
    (comment_with "!WarrenPlanBot show me the plans" false) [plan_help]
    [basic_help] callers_set true false false no_opinion w1
  = (Ok tt, w1).
Proof.
  apply (second_invocation_is_noop (lib_with models4) (replies None)
           (comment_with "!WarrenPlanBot help" false)).
  reflexivity.
Defined.

Lemma trigger_without_separator_witness :
  never_followed_by_separator "!WarrenPlanBot"
  /\ get_trigger_line "!WarrenPlanBot" = EmptyString
  /\ matched_on_empty_text fresh
       (process_post (lib_with models4) (replies None)
          (comment_with "!WarrenPlanBot" false) [plan_help] [basic_help]
          callers_set true false false no_opinion fresh).
Proof.
  assert (Hsep : never_followed_by_separator "!WarrenPlanBot").
  { intros i Hi. unfold occurs_at in Hi.
    destruct i as [|i]; [exact I|].
    do 14 (destruct i as [|i]; [discriminate Hi|]).
    discriminate Hi. }
  split; [exact Hsep|].
  destruct (trigger_without_separator_gives_empty_query (lib_with models4)
              (replies None) (comment_with "!WarrenPlanBot" false)
              [plan_help] [basic_help] callers_set true false false
              no_opinion fresh Hsep) as [Hline Hrun].
  split; [exact Hline|]. apply Hrun.
  - split; [reflexivity|]. split.
    + eexists. split; reflexivity.
    + exists 0. reflexivity.
  - intros _. apply not_elem_of_empty.
Defined.

Lemma no_trigger_is_skipped_witness :
  (forall i, ~ occurs_at trigger "what is her plan" i)
  /\ skipped_without_matching (comment_with "what is her plan" false) fresh
       (process_post (lib_with models4) (replies None)
          (comment_with "what is her plan" false) [plan_help] [basic_help]
          callers_set true false false no_opinion fresh)
  /\ recorded_skip (comment_with "what is her plan" false)
       "trigger_not_found" fresh
       (process_post (lib_with models4) (replies None)
          (comment_with "what is her plan" false) [plan_help] [basic_help]
          callers_set true false false no_opinion fresh).
Proof.
  assert (Hno : forall i, ~ occurs_at trigger "what is her plan" i).
  { apply search_lit_None. reflexivity. }
  split; [exact Hno|].
  destruct (no_trigger_is_skipped_before_matching (lib_with models4)
              (replies None) (comment_with "what is her plan" false)
              [plan_help] [basic_help] callers_set true false false
              no_opinion fresh Hno) as [Hnone Hrec].
  { intros _. apply not_elem_of_empty. }
  split; [exact Hnone|]. apply Hrec; [reflexivity| |reflexivity].
  eexists. split; reflexivity.
Defined.

(** C5 as it is written fails on a locked post without the trigger
    word: the record says "post_locked". *)
Lemma no_trigger_counterexample :
  ~ (forall lib sv post plans verbatims send simulate ms w,
       (forall i, ~ occurs_at trigger (text post) i) ->
       post_id post ∉ post_ids_processed w ->
       exists rec,
         posts_db (process_post lib sv post plans verbatims callers_set
                     send simulate false ms w).2 !! post_id post
         = Some (mkDoc rec [])
         /\ r_skipped rec = true
         /\ r_skip_reason rec = Some "trigger_not_found").
Proof.
  intros H.
  destruct (H (lib_with models4) (replies None)
              (comment_with "what is her plan" true) [plan_help]
              [basic_help] true false no_opinion fresh)
    as (rec & Hdb & _ & Hreason).
  - apply search_lit_None. reflexivity.
  - apply not_elem_of_empty.
  - rewrite (process_post_skipped _ _ _ _ _ _ _ _ _ _ _ "post_locked")
      in Hdb; [|by constructor|intros _; apply not_elem_of_empty].
    simpl in Hdb. rewrite lookup_insert_eq in Hdb.
    injection Hdb as <-. discriminate Hreason.
Qed.

Lemma exact_title_wins_witness :
  preprocess_gensim_v1 (lib_with models4) (display_title plan_help)
  = preprocess_gensim_v1 (lib_with models4) "HELP"
  /\ match_info_of (lib_with models4) [plan_help] [] "HELP" ∅ no_opinion
       fresh
     = (Ok (Some {| mi_match := Val "help_plan";
                    mi_operation := Absent;
                    mi_confidence := Val 100%Q;
                    mi_plan := Val plan_help;
                    mi_potential_matches := Absent;
                    mi_verbatim := Absent |}),
        add_log fresh
          (calls "HELP"
             ["match_verbatim"; "request_plan_list";
              "request_state_of_race"; "match_display_title"])).
Proof.
  split; [vm_compute; reflexivity|].
  apply (exact_title_wins_after_the_earlier_rules (lib_with models4)
           [plan_help] [] "HELP" ∅ no_opinion fresh [] plan_help []).
  - reflexivity.
  - vm_compute; reflexivity.
  - vm_compute; reflexivity.
  - reflexivity.
  - vm_compute; reflexivity.
  - intros q Hq. by apply elem_of_nil in Hq.
Defined.

(** C7 as it is written fails when an earlier rule fires: the text
    "help" equals the normalized title of the plan "Help", and the
    verbatim rule answers it. *)
Lemma exact_title_counterexample :
  ~ (forall lib plans verbatims post_text options ms w p,
       p ∈ plans ->
       preprocess_gensim_v1 lib (display_title p)
       = preprocess_gensim_v1 lib post_text ->
       exists mi,
         (match_info_of lib plans verbatims post_text options ms w).1
         = Ok (Some mi)
         /\ get (mi_match mi) = Some (id p)
         /\ get (mi_confidence mi) = Some 100%Q).
Proof.
  intros H.
  destruct (H (lib_with models4) [plan_help] [basic_help] "help" ∅
              no_opinion fresh plan_help)
    as (mi & Hmi & Hmatch & _).
  - apply list_elem_of_singleton. reflexivity.
  - vm_compute; reflexivity.
  - vm_compute in Hmi. injection Hmi as <-. discriminate Hmatch.
Qed.



(** What the two readings of flag extraction give on that text. *)
Example flag_behind_a_word :
  process_flags "medicare --parent" = Ok ("medicare --parent", ∅)
  /\ extract_flags_anywhere "medicare --parent"
     = ("medicare", list_to_set ["parent"]).
Proof. split; reflexivity. Qed.

(** The further properties at concrete inputs. *)

Lemma token_sort_ratio_takes_the_first_best_witness :
  (0 <= 50)%Q
  /\ exists mi,
       token_sort_ratio lib_by_length 50 [plan_help; plan_care; plan_help]
         "care"
       = Ok (Some mi)
       /\ mi_plan mi = Val plan_care /\ mi_match mi = PyNone.
Proof.
  split; [vm_compute; discriminate|].
  destruct (token_sort_ratio_takes_the_first_best lib_by_length "care" 50
              [plan_help; plan_care; plan_help])
    as (mi & Hmi & _); [vm_compute; discriminate|].
  exists mi. split; [exact Hmi|].
  vm_compute in Hmi. injection Hmi as <-. split; reflexivity.
Defined.

Lemma token_sort_ratio_below_zero_witness :
  (-1 < 0)%Q
  /\ Forall (fun p => (topic_score (lib_with models4) "care" p <= 0)%Z)
       [plan_help]
  /\ token_sort_ratio (lib_with models4) (-1) [plan_help] "care"
     = Raise TypeError.
Proof.
  assert (H1 : (-1 < 0)%Q) by reflexivity.
  assert (H2 : Forall
                 (fun p => (topic_score (lib_with models4) "care" p <= 0)%Z)
                 [plan_help]).
  { repeat constructor. vm_compute. discriminate. }
  split; [exact H1|]. split; [exact H2|].
  exact (token_sort_ratio_below_zero (lib_with models4) "care" (-1)
           [plan_help] H1 H2).
Defined.

Lemma composite_strategy_stops_at_the_first_match_witness :
  Forall (fun q => exists d', declines q [] "help" d') [no_opinion]
  /\ exists d,
       accepts sure_of_help [] "help" d
       /\ _composite_strategy [] "help" [no_opinion; sure_of_help; rule_miss]
          = Ok (Some d).
Proof.
  assert (H : Forall (fun q => exists d', declines q [] "help" d')
                [no_opinion]).
  { repeat constructor. eexists. split; [reflexivity|]. left. reflexivity. }
  split; [exact H|]. eexists.
  assert (Ha : accepts sure_of_help [] "help"
                 {| mi_match := Val "help_plan";
                    mi_operation := Absent;
                    mi_confidence := Val 100%Q;
                    mi_plan := Val plan_help;
                    mi_potential_matches := Val [];
                    mi_verbatim := Absent |}).
  { split; [reflexivity|]. exists "help_plan". split; reflexivity. }
  split; [exact Ha|].
  exact (proj1 (composite_strategy_stops_at_the_first_match [] "help"
                  [no_opinion] sure_of_help _ H) Ha [rule_miss]).
Defined.

Lemma composite_strategy_needs_a_match_key_witness :
  Forall (fun q => exists d', declines q [] "help" d') [no_opinion]
  /\ _composite_strategy [] "help" [no_opinion; rule_miss; sure_of_help]
     = Raise TypeError.
Proof.
  assert (H : Forall (fun q => exists d', declines q [] "help" d')
                [no_opinion]).
  { repeat constructor. eexists. split; [reflexivity|]. left. reflexivity. }
  split; [exact H|].
  exact (proj1 (proj2 (composite_strategy_needs_a_match_key [] "help"
                         [no_opinion] rule_miss [sure_of_help] H))
           eq_refl).
Defined.

Lemma best_match_is_the_first_maximum_witness :
  exists mi,
    _gensim_similarity (lib_with models4) [] "child care" "lsa" LsiModel
      MatrixSimilarity (781 # 10) 50 GENSIM_V3_MODELS_PATH (fun _ => [])
    = Ok (Some mi)
    /\ exists i s pid,
         [1 # 2; 9 # 10; 9 # 10; 3 # 5] !! i = Some s
         /\ ["a"; "b"; "a"; "c"] !! i = Some pid
         /\ mi_confidence mi = Val (s * 100)%Q.
Proof.
  eexists. split; [vm_compute; reflexivity|].
  destruct (best_match_is_the_first_maximum (lib_with models4) []
              "child care" "lsa" LsiModel MatrixSimilarity (781 # 10) 50
              GENSIM_V3_MODELS_PATH (fun _ => []) _ eq_refl)
    as (i & s & pid & Hi & Hpid & _ & Hc & _).
  exists i, s, pid. split; [exact Hi|]. split; [exact Hpid|exact Hc].
Defined.


Lemma no_match_reply_reads_eight_candidates_witness :
  Forall (fun m => is_Some (pm_plan m)) (firstn 8 [maybe_help])
  /\ exists t, build_no_match_response_text (Some [maybe_help]) = Ok t.
Proof.
  assert (H : Forall (fun m => is_Some (pm_plan m)) (firstn 8 [maybe_help])).
  { repeat constructor. eexists. reflexivity. }
  split; [exact H|].
  exact (proj1 (no_match_reply_reads_eight_candidates (Some [maybe_help]))
           H).
Defined.

Lemma all_plans_reply_needs_three_plans_witness :
  length (List.filter (fun p => negb (is_cluster p)) [plan_help; plan_care])
  < 3
  /\ build_all_plans_response_text [plan_help; plan_care] = Raise IndexError.
Proof.
  assert (H : length (List.filter (fun p => negb (is_cluster p))
                        [plan_help; plan_care]) < 3)
    by (vm_compute; lia).
  split; [exact H|].
  exact (proj2 (all_plans_reply_needs_three_plans [plan_help; plan_care]) H).
Defined.

Lemma day_suffix_of_a_day_of_the_month_witness :
  1 <= 22 <= 31 /\ day_suffix 22 = "nd".
Proof.
  assert (H : 1 <= 22 <= 31) by lia.
  split; [exact H|].
  exact (day_suffix_of_a_day_of_the_month 22 H).
Defined.

Lemma trigger_line_is_one_sentence_witness :
  get_trigger_line "hey !WarrenPlanBot child care? thanks" <> EmptyString
  /\ one_sentence (get_trigger_line "hey !WarrenPlanBot child care? thanks")
  /\ follows_trigger
       (get_trigger_line "hey !WarrenPlanBot child care? thanks")
       "hey !WarrenPlanBot child care? thanks".
Proof.
  assert (H : get_trigger_line "hey !WarrenPlanBot child care? thanks"
              <> EmptyString) by (vm_compute; discriminate).
  split; [exact H|].
  destruct (trigger_line_is_one_sentence
              "hey !WarrenPlanBot child care? thanks") as [H1 H2].
  split; [exact H1|exact (H2 H)].
Defined.

Lemma trigger_line_of_a_request_witness :
  Py.has_char "!" "hey " = false
  /\ Py.lower "!WarrenPlanBot" = trigger
  /\ all_chars Re.not_hyphen_word " " = true
  /\ all_chars Re.not_terminal "child care" = true
  /\ get_trigger_line "hey !WarrenPlanBot child care? thanks"
     = "child care?".
Proof.
  split; [reflexivity|]. split; [reflexivity|]. split; [reflexivity|].
  split; [reflexivity|].
  apply (trigger_line_of_a_request "hey " "!WarrenPlanBot" " " "child care"
           "? thanks"); try reflexivity.
  - discriminate.
  - split; reflexivity.
Defined.

Lemma process_flags_without_hyphens_witness :
  Forall (fun tok => Py.startswith tok "-" = false)
    (Py.split "medicare  for all")
  /\ process_flags "medicare  for all" = Ok ("medicare for all", ∅).
Proof.
  assert (H : Forall (fun tok => Py.startswith tok "-" = false)
                (Py.split "medicare  for all")).
  { vm_compute. repeat constructor. }
  split; [exact H|].
  exact (process_flags_without_hyphens "medicare  for all" H).
Defined.

Lemma process_flags_idempotent_witness :
  process_flags "--parent medicare --why-warren"
  = Ok ("medicare --why-warren", list_to_set ["parent"])
  /\ process_flags "medicare --why-warren"
     = Ok ("medicare --why-warren", ∅).
Proof.
  assert (H : process_flags "--parent medicare --why-warren"
              = Ok ("medicare --why-warren", list_to_set ["parent"]))
    by reflexivity.
  split; [exact H|].
  exact (process_flags_idempotent _ _ _ H).
Defined.

Lemma parser_exit_ends_the_run_witness :
  not_skipped (comment_with "!WarrenPlanBot --s" false)
  /\ process_flags (get_trigger_line "!WarrenPlanBot --s")
     = Raise (SystemExit 2)
  /\ process_post (lib_with models4) (replies None)
       (comment_with "!WarrenPlanBot --s" false) [plan_help] [basic_help]
       callers_set true false false no_opinion fresh
     = (Raise (SystemExit 2), mkWorld (marked callers_set "c1" ∅) ∅ []).
Proof.
  assert (Hns : not_skipped (comment_with "!WarrenPlanBot --s" false)).
  { split; [reflexivity|]. split.
    - eexists. split; reflexivity.
    - exists 0. reflexivity. }
  assert (Hf : process_flags (get_trigger_line "!WarrenPlanBot --s")
               = Raise (SystemExit 2)) by reflexivity.
  split; [exact Hns|]. split; [exact Hf|].
  apply (parser_exit_ends_the_run (lib_with models4) (replies None)
           (comment_with "!WarrenPlanBot --s" false) [plan_help]
           [basic_help] callers_set true false false no_opinion fresh
           (SystemExit 2) Hns).
  - intros _. apply not_elem_of_empty.
  - exact Hf.
Defined.

Lemma only_the_why_warren_flag_is_read_witness :
  match_info_of (lib_with models4) [plan_help] [basic_help] EmptyString
    (list_to_set ["state_of_race"; "parent"]) no_opinion fresh
  = match_info_of (lib_with models4) [plan_help] [basic_help] EmptyString
      ∅ no_opinion fresh.
Proof.
  apply only_the_why_warren_flag_is_read. split.
  - intros H. apply elem_of_list_to_set in H.
    apply elem_of_cons in H as [H|H]; [discriminate H|].
    apply list_elem_of_singleton in H. discriminate H.
  - intros H. by apply not_elem_of_empty in H.
Defined.

Lemma post_without_author_raises_witness :
  author deleted_comment = None
  /\ process_post (lib_with models4) (replies None) deleted_comment
       [plan_help] [basic_help] callers_set true false false no_opinion
       fresh
     = (Raise AttributeError, mkWorld (marked callers_set "c2" ∅) ∅ []).
Proof.
  split; [reflexivity|].
  apply (post_without_author_raises (lib_with models4) (replies None)
           deleted_comment [plan_help] [basic_help] callers_set true false
           false no_opinion fresh eq_refl).
  intros _. apply not_elem_of_empty.
Defined.

Lemma skip_reason_is_the_first_check_witness :
  skip_reason (comment_with "!WarrenPlanBot help" true) "post_locked"
  /\ recorded_skip (comment_with "!WarrenPlanBot help" true) "post_locked"
       fresh
       (process_post (lib_with models4) (replies None)
          (comment_with "!WarrenPlanBot help" true) [plan_help]
          [basic_help] callers_set true false false no_opinion fresh).
Proof.
  assert (H : skip_reason (comment_with "!WarrenPlanBot help" true)
                "post_locked") by (by constructor).
  split; [exact H|].
  apply (skip_reason_is_the_first_check (lib_with models4) (replies None)
           (comment_with "!WarrenPlanBot help" true) [plan_help]
           [basic_help] callers_set true false false no_opinion fresh
           "post_locked" H).
  - eexists. reflexivity.
  - intros _. apply not_elem_of_empty.
Defined.

Lemma parent_flag_redirects_the_reply_witness :
  not_skipped (comment_with "!WarrenPlanBot --parent help" false)
  /\ process_flags (get_trigger_line "!WarrenPlanBot --parent help")
     = Ok ("help", list_to_set ["parent"])
  /\ replies_as_asked (comment_with "!WarrenPlanBot --parent help" false)
       (list_to_set ["parent"]) fresh
       (process_post (lib_with models4) (replies None)
          (comment_with "!WarrenPlanBot --parent help" false) [plan_help]
          [basic_help] callers_set true false false no_opinion fresh).
Proof.
  assert (Hns : not_skipped
                  (comment_with "!WarrenPlanBot --parent help" false)).
  { split; [reflexivity|]. split.
    - eexists. split; reflexivity.
    - exists 0. reflexivity. }
  assert (Hf : process_flags (get_trigger_line "!WarrenPlanBot --parent help")
               = Ok ("help", list_to_set ["parent"])) by reflexivity.
  split; [exact Hns|]. split; [exact Hf|].
  apply (parent_flag_redirects_the_reply (lib_with models4) (replies None)
           (comment_with "!WarrenPlanBot --parent help" false) [plan_help]
           [basic_help] callers_set true false false no_opinion fresh
           "help" (list_to_set ["parent"]) Hns).
  - intros _. apply not_elem_of_empty.
  - exact Hf.
Defined.

Lemma flatten_gives_a_flat_list_witness :
  ~ is_list (parse_plans.VStr "a")
  /\ parse_plans._flatten (parse_plans.VStr "a") = [parse_plans.VStr "a"].
Proof.
  assert (H : ~ is_list (parse_plans.VStr "a")) by (intros []).
  split; [exact H|].
  exact (proj2 (proj2 (flatten_gives_a_flat_list (parse_plans.VStr "a"))) H).
Defined.

Lemma replied_list_is_read_back_witness :
  Forall one_line ["abc"; EmptyString; "d1"]
  /\ main.read_posts_replied_to
       (main.write_posts_replied_to ["abc"; EmptyString; "d1"])
     = List.filter Py.truthy ["abc"; EmptyString; "d1"].
Proof.
  assert (H : Forall one_line ["abc"; EmptyString; "d1"])
    by (repeat constructor).
  split; [exact H|].
  exact (replied_list_is_read_back _ H).
Defined.

(** With the threshold of [tfidf_gensim_v3], which lies below the
    threshold of the potential matches, a match can come without any
    potential match. *)
Example tfidf_match_without_potential_matches :
  exists mi,
    tfidf_gensim_v3
      (lib_with {| plan_ids := ["a"]; similarities := fun _ => [2 # 5] |})
      [] "child care"
    = Ok (Some mi)
    /\ mi_match mi = Val "a" /\ mi_potential_matches mi = Val [].
Proof. eexists. split; [vm_compute; reflexivity|]. split; reflexivity. Qed.

(** A second trigger word in the sentence of the first is not read. *)
Example second_trigger_in_a_sentence :
  get_trigger_line "!warrenplanbot foo !warrenplanbot bar" = "foo !".
Proof. reflexivity. Qed.

End Instances.
